(** * yarp-openvr: the trackers module and the camera device

    A shallow embedding of [OpenVRTrackersModule.cpp] and of the pixel loop
    of [OpenVRCamera.cpp].  C++ [double]s are binary64 primitive floats,
    [std::string]s are strings, [std::array<double,N>] is a vector of
    length [N], a [yarp::sig::Matrix] is its row-major storage together with
    its dimensions.  A member function is a state transformer on the
    object's fields which also produces the calls it makes on its external
    collaborators and the lines it logs; it yields [None] where the C++
    has undefined behaviour (null dereference, unchecked access out of
    bounds). *)

From Stdlib Require Import Floats ZArith NArith Ascii String.
From Stdlib.Strings Require Import Byte.
From stdpp Require Import base option list vector gmap strings.

Local Open Scope string_scope.
Local Open Scope list_scope.

(** ** The YARP types the sources use *)

Module yarp.

(** [yarp::os::Value]: the alternatives the module distinguishes. *)
Inductive Value : Type :=
| VNull
| VBool (b : bool)
| VInt32 (z : Z)
| VFloat64 (d : float)
| VString (s : string).

Definition isString (v : Value) : bool :=
  match v with VString _ => true | _ => false end.

Definition isFloat64 (v : Value) : bool :=
  match v with VFloat64 _ => true | _ => false end.

Definition asString (v : Value) : string :=
  match v with VString s => s | _ => "" end.

(** Only called behind [isFloat64] in the sources. *)
Definition asFloat64 (v : Value) : float :=
  match v with VFloat64 d => d | _ => 0%float end.

(** [yarp::os::ResourceFinder] and [yarp::os::Property], seen as
    dictionaries from option names to values. *)
Abbreviation ResourceFinder := (gmap string Value).
Abbreviation Property := (gmap string Value).

Definition check (rf : ResourceFinder) (key : string) : bool :=
  bool_decide (is_Some (rf !! key)).

Definition find (rf : ResourceFinder) (key : string) : Value :=
  default VNull (rf !! key).

Definition put (key : string) (v : Value) (p : Property) : Property :=
  <[key := v]> p.

(** [yarp::sig::Matrix]: [m[r][c]] is [storage[r * ncols + c]]. *)
Record Matrix : Type := mkMatrix {
  nrows : nat;
  ncols : nat;
  storage : list float
}.

Definition in_bounds (m : Matrix) (r c : nat) : bool :=
  bool_decide (r < nrows m) && bool_decide (c < ncols m).

(** Read access [m[r][c]]. *)
Definition mat_get (m : Matrix) (r c : nat) : option float :=
  if in_bounds m r c then storage m !! (r * ncols m + c) else None.

(** The store behind [m[r][c] = v], for indices known to be in range. *)
Definition mat_put (r c : nat) (v : float) (m : Matrix) : Matrix :=
  mkMatrix (nrows m) (ncols m) (<[r * ncols m + c := v]> (storage m)).

(** [m[r][c] = v]: the operator does not check its indices, so a write
    out of range has no defined result. *)
Definition mat_set (r c : nat) (v : float) (m : Matrix) : option Matrix :=
  if in_bounds m r c then Some (mat_put r c v m) else None.

(** [Matrix::zero]: all [nrows * ncols] entries of the storage are
    cleared. *)
Definition zero (m : Matrix) : Matrix :=
  mkMatrix (nrows m) (ncols m) (replicate (nrows m * ncols m) 0%float).

(** [Matrix::eye]: zero everything, then put ones on the diagonal of the
    largest leading square block. *)
Definition eye (m : Matrix) : Matrix :=
  let tmpR := if bool_decide (ncols m < nrows m) then ncols m else nrows m in
  foldl (fun acc r => mat_put r r 1%float acc) (zero m) (seq 0 tmpR).

(** [Matrix::resize]: same dimensions, nothing happens; otherwise a fresh
    zero matrix receives the overlapping block of the old one. *)
Definition resize (r c : nat) (m : Matrix) : Matrix :=
  if bool_decide (r = nrows m) && bool_decide (c = ncols m) then m
  else
    mkMatrix r c
      (flat_map (fun i => map (fun j => default 0%float (mat_get m i j)) (seq 0 c))
                (seq 0 r)).

(** What a log line is made of ([yInfo() << a << b ...]). *)
Inductive LogItem : Type :=
| LStr (s : string)
| LDouble (d : float)
| LProperty (p : Property).

Inductive LogLevel : Type := Info | Warning | Error.

End yarp.

(** ** The OpenVR devices manager, as the module uses it *)

Module openvr.

(** Modelled from the spec: the declaration of [TrackedDeviceType] is not
    in the sources at hand; the data model lists the variants HMD,
    Controller, GenericTracker and Other, the last one standing for every
    type the module's switch does not name. *)
Inductive TrackedDeviceType : Type :=
| HMD
| Controller
| GenericTracker
| Other.

(** Modelled from the spec: the declaration of [TrackingUniverseOrigin] is
    not in the sources at hand; the data model gives the origins Seated,
    Standing and Raw, the three [configure] selects among. *)
Inductive TrackingUniverseOrigin : Type :=
| Seated
| Standing
| Raw.

(** Modelled from the spec: the declaration of [openvr::Pose] is not in
    the sources at hand; the data model gives it a row-major 3x3 rotation
    of nine scalars and a translation of three, which [updateModule] reads
    as [rotationRowMajor[0..8]] and [position[0..2]]. *)
Record Pose : Type := mkPose {
  position : vec float 3;
  rotationRowMajor : vec float 9
}.

(** Modelled from the spec: the class [openvr::DevicesManager] is not in
    the sources at hand; these are the member functions the module calls,
    with the signatures of the device manager boundary, on an abstract
    manager state [M].  The three queries do not change the manager. *)
Class DevicesManager (M : Type) : Type := {
  initialize : TrackingUniverseOrigin -> M -> bool * M;
  resetSeatedPosition : M -> bool * M;
  computePoses : M -> M;
  managedDevices : M -> list string;
  type : M -> string -> TrackedDeviceType;
  pose : M -> string -> option Pose
}.

End openvr.

(** ** What a member function does to the outside *)

Inductive Event : Type :=
| EvLog (lvl : yarp.LogLevel) (line : list yarp.LogItem)
| EvDriverOpen (cfg : yarp.Property) (ok : bool)
| EvDriverView (ok : bool)
| EvInitialize (origin : openvr.TrackingUniverseOrigin) (ok : bool)
| EvResetSeatedPosition (ok : bool)
| EvComputePoses
| EvRpcOpen (port : string) (ok : bool)
| EvSetTransform (sn child parent : string) (m : yarp.Matrix) (ok : bool).

(** The result of a fallible call on a collaborator, if the event is one. *)
Definition call_result (e : Event) : option bool :=
  match e with
  | EvDriverOpen _ ok | EvDriverView ok | EvInitialize _ ok
  | EvResetSeatedPosition ok | EvRpcOpen _ ok => Some ok
  | _ => None
  end.

Definition is_warning (e : Event) : bool :=
  match e with EvLog yarp.Warning _ => true | _ => false end.

(** The results of the fallible calls of a trace, in order. *)
Definition call_results (evs : list Event) : list bool := omap call_result evs.

(** The origins the manager was initialised with in a trace. *)
Definition origins (evs : list Event) : list openvr.TrackingUniverseOrigin :=
  omap (fun e => match e with EvInitialize o _ => Some o | _ => None end) evs.

(** Events which are no call and no warning. *)
Definition quiet (l : list Event) : Prop :=
  call_results l = [] /\ origins l = [] /\ existsb is_warning l = false.

(** The device a publish call is made for ([sn] in [updateModule]). *)
Definition published_device (e : Event) : option string :=
  match e with EvSetTransform sn _ _ _ _ => Some sn | _ => None end.

(** ** Member functions as state transformers *)

Definition Op (S A : Type) : Type := S -> option (A * S * list Event).

Definition op_ret {S A} (a : A) : Op S A := fun s => Some (a, s, []).

Definition op_bind {S A B} (c : Op S A) (k : A -> Op S B) : Op S B :=
  fun s =>
    match c s with
    | None => None
    | Some (a, s1, e1) =>
        match k a s1 with
        | None => None
        | Some (b, s2, e2) => Some (b, s2, e1 ++ e2)
        end
    end.

(** A result with the events [e] put in front of its own. *)
Definition with_events {S A} (e : list Event) (r : option (A * S * list Event))
  : option (A * S * list Event) :=
  match r with
  | None => None
  | Some (a, s, e') => Some (a, s, e ++ e')
  end.

Declare Scope op_scope.
Delimit Scope op_scope with op.
Notation "x ← y ; z" := (op_bind y (fun x => z))
  (at level 20, y at level 100, z at level 200, only parsing) : op_scope.
Notation "' x ← y ; z" := (op_bind y (fun x => z))
  (at level 20, x pattern, y at level 100, z at level 200, only parsing) : op_scope.
Notation "x ;; z" := (op_bind x (fun _ => z))
  (at level 100, z at level 200, only parsing, right associativity) : op_scope.

Definition emit {S} (e : Event) : Op S unit := fun s => Some (tt, s, [e]).
Definition gets {S A} (f : S -> A) : Op S A := fun s => Some (f s, s, []).
Definition modify {S} (f : S -> S) : Op S unit := fun s => Some (tt, f s, []).

Definition log {S} (lvl : yarp.LogLevel) (line : list yarp.LogItem) : Op S unit :=
  emit (EvLog lvl line).

(** A range-based [for]. *)
Fixpoint for_each {S A} (l : list A) (body : A -> Op S unit) : Op S unit :=
  match l with
  | [] => op_ret tt
  | x :: l' => op_bind (body x) (fun _ => for_each l' body)
  end.

(** ** The YARP collaborators of the module *)

(** [yarp::dev::PolyDriver] holding the transform client: [open] with a
    configuration, [view] of the [IFrameTransform] interface (no handle when
    the device does not implement it), [close]. *)
Class PolyDriver (D T : Type) : Type := {
  drv_open : yarp.Property -> D -> bool * D;
  drv_view : D -> option T;
  drv_close : D -> D
}.

(** [yarp::dev::IFrameTransform::setTransform (child, parent, matrix)]. *)
Class IFrameTransform (T : Type) : Type := {
  setTransform : string -> string -> yarp.Matrix -> T -> bool * T
}.

(** [yarp::os::RpcServer]: [attachAsServer] binds it to the module. *)
Class RpcServer (P : Type) : Type := {
  attachAsServer : P -> P;
  port_open : string -> P -> bool * P;
  port_close : P -> P
}.

(** ** OpenVRTrackersModule.cpp *)

(** [std::tolower] in the "C" locale, on one [unsigned char]. *)
Definition tolower (c : ascii) : ascii :=
  let n := N_of_ascii c in
  if (65 <=? n)%N && (n <=? 90)%N then ascii_of_N (n + 32) else c.

(** [std::transform (s.begin(), s.end(), s.begin(), tolower)]. *)
Fixpoint transform_tolower (s : string) : string :=
  match s with
  | EmptyString => EmptyString
  | String c s' => String (tolower c) (transform_tolower s')
  end.

(** [s.c_str ()] read back as a string: the characters before the first
    NUL. *)
Fixpoint c_str (s : string) : string :=
  match s with
  | EmptyString => EmptyString
  | String c s' =>
      if Ascii.eqb c "000"%char then EmptyString else String c (c_str s')
  end.

Module openvr_trackers_module.

(** The C++ literal [0.010], that is the binary64 number nearest to it. *)
Definition DefaultPeriod : float := 0x1.47ae147ae147bp-7%float.
Definition DefaultTfLocal : string := "/tf".
Definition DefaultTfRemote : string := "/transformServer".
Definition DefaultTfBaseFrameName : string := "openVR_origin".
Definition ModuleName : string := "OpenVRTrackersModule".
Definition LogPrefix : string := ModuleName +:+ ":".
Definition DefaultVrOrigin : string := "Seated".

End openvr_trackers_module.

Module OpenVRTrackersModule.
Import yarp openvr openvr_trackers_module.
Local Open Scope op_scope.

(** The data members of the class ([m_name] is the name kept by
    [RFModule::setName]); [m_tf] is the interface pointer, [None] when
    null. *)
Record State (M D T P : Type) : Type := mkState {
  m_name : string;
  m_period : float;
  m_baseFrame : string;
  m_sendBuffer : Matrix;
  m_manager : M;
  m_driver : D;
  m_tf : option T;
  m_rpcPort : P
}.
Arguments mkState {M D T P}.
Arguments m_name {M D T P}.
Arguments m_period {M D T P}.
Arguments m_baseFrame {M D T P}.
Arguments m_sendBuffer {M D T P}.
Arguments m_manager {M D T P}.
Arguments m_driver {M D T P}.
Arguments m_tf {M D T P}.
Arguments m_rpcPort {M D T P}.

Section Members.
Context {M D T P : Type}.
Context `{!DevicesManager M, !PolyDriver D T, !IFrameTransform T, !RpcServer P}.

Abbreviation St := (State M D T P).

Definition set_name (v : string) (s : St) : St :=
  mkState v (m_period s) (m_baseFrame s) (m_sendBuffer s) (m_manager s)
          (m_driver s) (m_tf s) (m_rpcPort s).
Definition set_period (v : float) (s : St) : St :=
  mkState (m_name s) v (m_baseFrame s) (m_sendBuffer s) (m_manager s)
          (m_driver s) (m_tf s) (m_rpcPort s).
Definition set_baseFrame (v : string) (s : St) : St :=
  mkState (m_name s) (m_period s) v (m_sendBuffer s) (m_manager s)
          (m_driver s) (m_tf s) (m_rpcPort s).
Definition set_sendBuffer (v : Matrix) (s : St) : St :=
  mkState (m_name s) (m_period s) (m_baseFrame s) v (m_manager s)
          (m_driver s) (m_tf s) (m_rpcPort s).
Definition set_manager (v : M) (s : St) : St :=
  mkState (m_name s) (m_period s) (m_baseFrame s) (m_sendBuffer s) v
          (m_driver s) (m_tf s) (m_rpcPort s).
Definition set_driver (v : D) (s : St) : St :=
  mkState (m_name s) (m_period s) (m_baseFrame s) (m_sendBuffer s) (m_manager s)
          v (m_tf s) (m_rpcPort s).
Definition set_tf (v : option T) (s : St) : St :=
  mkState (m_name s) (m_period s) (m_baseFrame s) (m_sendBuffer s) (m_manager s)
          (m_driver s) v (m_rpcPort s).
Definition set_rpcPort (v : P) (s : St) : St :=
  mkState (m_name s) (m_period s) (m_baseFrame s) (m_sendBuffer s) (m_manager s)
          (m_driver s) (m_tf s) v.

(** *** Calls on the collaborators *)

Definition driver_open (cfg : Property) : Op St bool := fun s =>
  let '(ok, d) := drv_open cfg (m_driver s) in
  Some (ok, set_driver d s, [EvDriverOpen cfg ok]).

(** [m_driver.view (m_tf) && m_tf] *)
Definition driver_view : Op St bool := fun s =>
  let h := drv_view (m_driver s) in
  let ok := bool_decide (is_Some h) in
  Some (ok, set_tf h s, [EvDriverView ok]).

Definition manager_initialize (o : TrackingUniverseOrigin) : Op St bool := fun s =>
  let '(ok, m) := initialize o (m_manager s) in
  Some (ok, set_manager m s, [EvInitialize o ok]).

Definition manager_resetSeatedPosition : Op St bool := fun s =>
  let '(ok, m) := openvr.resetSeatedPosition (m_manager s) in
  Some (ok, set_manager m s, [EvResetSeatedPosition ok]).

Definition manager_computePoses : Op St unit := fun s =>
  Some (tt, set_manager (computePoses (m_manager s)) s, [EvComputePoses]).

Definition rpcPort_attach : Op St unit :=
  modify (fun s => set_rpcPort (attachAsServer (m_rpcPort s)) s).

Definition rpcPort_open (name : string) : Op St bool := fun s =>
  let '(ok, p) := port_open name (m_rpcPort s) in
  Some (ok, set_rpcPort p s, [EvRpcOpen name ok]).

(** [m_tf->setTransform (child, m_baseFrame, m_sendBuffer)] for the device
    [sn]; dereferencing a null [m_tf] is undefined. *)
Definition tf_setTransform (sn child : string) : Op St bool := fun s =>
  match m_tf s with
  | None => None
  | Some tf =>
      let '(ok, tf') := setTransform child (m_baseFrame s) (m_sendBuffer s) tf in
      Some (ok, set_tf (Some tf') s,
            [EvSetTransform sn child (m_baseFrame s) (m_sendBuffer s) ok])
  end.

(** [m_sendBuffer[r][c] = v] *)
Definition sendBuffer_set (r c : nat) (v : float) : Op St unit := fun s =>
  match mat_set r c v (m_sendBuffer s) with
  | None => None
  | Some m => Some (tt, set_sendBuffer m s, [])
  end.

(** *** configure *)

(** Each "Try to find the ... entry" block of [configure], in turn. *)

Definition find_name (rf : ResourceFinder) : Op St string :=
  if negb (check rf "name" && isString (find rf "name")) then
    log Info [LStr LogPrefix; LStr "Using default name:"; LStr ModuleName];;
    op_ret ModuleName
  else op_ret (asString (find rf "name")).

Definition find_period (rf : ResourceFinder) : Op St unit :=
  if negb (check rf "period" && isFloat64 (find rf "period")) then
    log Info [LStr LogPrefix; LStr "Using default period:";
              LDouble DefaultPeriod; LStr "s"];;
    modify (set_period DefaultPeriod)
  else modify (set_period (asFloat64 (find rf "period"))).

Definition find_tfBaseFrameName (rf : ResourceFinder) : Op St unit :=
  if negb (check rf "tfBaseFrameName" && isString (find rf "tfBaseFrameName")) then
    log Info [LStr LogPrefix; LStr "Using default tfBaseFrameName:";
              LStr DefaultTfBaseFrameName];;
    modify (set_baseFrame DefaultTfBaseFrameName)
  else modify (set_baseFrame (asString (find rf "tfBaseFrameName"))).

Definition find_tfLocal (rf : ResourceFinder) : Op St string :=
  if negb (check rf "tfLocal" && isString (find rf "tfLocal")) then
    getName ← gets m_name;
    log Info [LStr LogPrefix; LStr "Using default tfLocal:";
              LStr ("/" +:+ getName +:+ DefaultTfLocal)];;
    op_ret ("/" +:+ getName +:+ DefaultTfLocal)
  else op_ret (asString (find rf "tfLocal")).

Definition find_tfRemote (rf : ResourceFinder) : Op St string :=
  if negb (check rf "tfRemote" && isString (find rf "tfRemote")) then
    log Info [LStr LogPrefix; LStr "Using default tfRemote:"; LStr DefaultTfRemote];;
    op_ret DefaultTfRemote
  else op_ret (asString (find rf "tfRemote")).

Definition find_vrOrigin (rf : ResourceFinder) : Op St TrackingUniverseOrigin :=
  if negb (check rf "vrOrigin" && isString (find rf "vrOrigin")) then
    log Info [LStr LogPrefix; LStr "Using default vrOrigin:"; LStr DefaultVrOrigin];;
    op_ret Seated
  else
    let vrOriginString := transform_tolower (asString (find rf "vrOrigin")) in
    if String.eqb vrOriginString "seated" then op_ret Seated
    else if String.eqb vrOriginString "standing" then op_ret Standing
    else if String.eqb vrOriginString "raw" then op_ret Raw
    else
      log Warning [LStr LogPrefix; LStr "Invalid inserted vrOrigin value: ";
                   LStr vrOriginString; LStr ", using the default value: seated"];;
      op_ret Seated.

Definition configure (rf : ResourceFinder) : Op St bool :=
  name ← find_name rf;
  (* this->setName (name.c_str ()) *)
  modify (set_name (c_str name));;
  find_period rf;;
  find_tfBaseFrameName rf;;
  tfLocal ← find_tfLocal rf;
  tfRemote ← find_tfRemote rf;
  vrOrigin ← find_vrOrigin rf;
  (* Create configuration of the "transformClient" device *)
  let tfClientCfg :=
    put "remote" (VString tfRemote)
      (put "local" (VString tfLocal)
         (put "device" (VString "transformClient") ∅)) in
  (* Open the transformClient device *)
  ok ← driver_open tfClientCfg;
  if negb ok then
    log Error [LStr LogPrefix;
               LStr "Unable to open polydriver with the following options:";
               LProperty tfClientCfg];;
    op_ret false
  else
  (* Extract and store the IFrameTransform interface *)
  ok ← driver_view;
  if negb ok then
    log Error [LStr LogPrefix; LStr "Unable to view IFrameTransform interface."];;
    op_ret false
  else
  (* Initialize the transform buffer *)
  modify (fun s => set_sendBuffer (resize 4 4 (m_sendBuffer s)) s);;
  modify (fun s => set_sendBuffer (eye (m_sendBuffer s)) s);;
  (* Initialize the OpenVR driver *)
  ok ← manager_initialize vrOrigin;
  if negb ok then
    log Error [LStr LogPrefix;
               LStr "Failed to initialize the OpenVR devices manager."];;
    op_ret false
  else
  ok ← manager_resetSeatedPosition;
  if negb ok then
    log Error [LStr LogPrefix; LStr "Failed to reset seated position."];;
    op_ret false
  else
  (* Bind the RPC service to the module's object *)
  rpcPort_attach;;
  ok ← rpcPort_open ("/" +:+ ModuleName +:+ "/rpc");
  if negb ok then
    log Error [LStr LogPrefix; LStr "Could not open";
               LStr ("/" +:+ ModuleName +:+ "/rpc"); LStr " RPC port."];;
    op_ret false
  else
  op_ret true.

(** *** getPeriod *)

Definition getPeriod : Op St float := gets m_period.

(** *** updateModule *)

(** Lines 193-210: the prefix selected by the device type. *)
Definition tfNamePrefix (t : TrackedDeviceType) : string :=
  match t with
  | HMD => "/hmd/"
  | Controller => "/controllers/"
  | GenericTracker => "/trackers/"
  | _ => ""
  end.

(** Lines 212-230: reset the buffer and fill it from the pose. *)
Definition fill_sendBuffer (p : Pose) : Op St unit :=
  modify (fun s => set_sendBuffer (eye (m_sendBuffer s)) s);;
  sendBuffer_set 0 0 (rotationRowMajor p !!! 0%fin);;
  sendBuffer_set 0 1 (rotationRowMajor p !!! 1%fin);;
  sendBuffer_set 0 2 (rotationRowMajor p !!! 2%fin);;
  sendBuffer_set 1 0 (rotationRowMajor p !!! 3%fin);;
  sendBuffer_set 1 1 (rotationRowMajor p !!! 4%fin);;
  sendBuffer_set 1 2 (rotationRowMajor p !!! 5%fin);;
  sendBuffer_set 2 0 (rotationRowMajor p !!! 6%fin);;
  sendBuffer_set 2 1 (rotationRowMajor p !!! 7%fin);;
  sendBuffer_set 2 2 (rotationRowMajor p !!! 8%fin);;
  sendBuffer_set 0 3 (position p !!! 0%fin);;
  sendBuffer_set 1 3 (position p !!! 1%fin);;
  sendBuffer_set 2 3 (position p !!! 2%fin).

(** The body of the loop over the managed devices. *)
Definition update_device (sn : string) : Op St unit :=
  poseOpt ← gets (fun s => pose (m_manager s) sn);
  match poseOpt with
  | Some p =>
      prefix ← gets (fun s => tfNamePrefix (type (m_manager s) sn));
      fill_sendBuffer p;;
      _ ← tf_setTransform sn (prefix +:+ sn);
      op_ret tt
  | None => op_ret tt
  end.

Definition updateModule : Op St bool :=
  manager_computePoses;;
  devices ← gets (fun s => managedDevices (m_manager s));
  for_each devices update_device;;
  op_ret true.

(** *** close *)

Definition close : Op St bool :=
  modify (fun s => set_driver (drv_close (m_driver s)) s);;
  modify (fun s => set_rpcPort (port_close (m_rpcPort s)) s);;
  op_ret true.

(** *** resetSeatedPosition *)

Definition resetSeatedPosition : Op St bool :=
  ok ← manager_resetSeatedPosition;
  if negb ok then
    log Error [LStr LogPrefix; LStr "Failed to reset seated position."];;
    op_ret false
  else op_ret true.

End Members.
End OpenVRTrackersModule.

(** ** The module in use *)

Module Running.
Import yarp openvr OpenVRTrackersModule.
Local Open Scope op_scope.

(** The member functions YARP invokes once [configure] has succeeded: the
    scheduler asks for the period and runs the update, the RPC port
    forwards the reset command. *)
Inductive Call : Type :=
| CallGetPeriod
| CallUpdateModule
| CallResetSeatedPosition.

Inductive Result : Type :=
| RDouble (d : float)
| RBool (b : bool).

Section Calls.
Context {M D T P : Type}.
Context `{!DevicesManager M, !PolyDriver D T, !IFrameTransform T, !RpcServer P}.

Definition call (c : Call) : Op (State M D T P) Result :=
  match c with
  | CallGetPeriod => d ← getPeriod; op_ret (RDouble d)
  | CallUpdateModule => b ← updateModule; op_ret (RBool b)
  | CallResetSeatedPosition => b ← resetSeatedPosition; op_ret (RBool b)
  end.

(** A sequence of invocations, one after the other. *)
Fixpoint calls (cs : list Call) : Op (State M D T P) (list Result) :=
  match cs with
  | [] => op_ret []
  | c :: cs' => r ← call c; rs ← calls cs'; op_ret (r :: rs)
  end.

(** What [configure] leaves behind when it succeeds and what the update
    relies on: a 4x4 send-buffer and a non-null [m_tf]. *)
Definition Configured (s : State M D T P) : Prop :=
  nrows (m_sendBuffer s) = 4 /\ ncols (m_sendBuffer s) = 4 /\
  length (storage (m_sendBuffer s)) = 16 /\ is_Some (m_tf s).

(** How [configure] can end: it returns [r] after the calls on its
    collaborators answered [calls], the manager having been initialised
    with the origins [os].  The first failing call is the last one made. *)
Definition configure_ends (o : TrackingUniverseOrigin) (r : bool)
    (calls : list bool) (os : list TrackingUniverseOrigin) : Prop :=
  (r = false /\ calls = [false] /\ os = []) \/
  (r = false /\ calls = [true; false] /\ os = []) \/
  (r = false /\ calls = [true; true; false] /\ os = [o]) \/
  (r = false /\ calls = [true; true; true; false] /\ os = [o]) \/
  (r = false /\ calls = [true; true; true; true; false] /\ os = [o]) \/
  (r = true /\ calls = [true; true; true; true; true] /\ os = [o]).

(** The fields no cycle and no reset command writes to. *)
Definition same_settings (s s' : State M D T P) : Prop :=
  m_name s' = m_name s /\ m_period s' = m_period s /\
  m_baseFrame s' = m_baseFrame s /\ m_driver s' = m_driver s /\
  m_rpcPort s' = m_rpcPort s.

(** The devices of a snapshot which have a pose. *)
Definition tracked (mgr : M) (devs : list string) : list string :=
  filter (fun sn => is_Some (pose mgr sn)) devs.

End Calls.

(** The settings as the options give them: the value of the option when
    it is there with the right type, the default otherwise. *)
Definition name_option (rf : ResourceFinder) : string :=
  match rf !! "name" with
  | Some (VString n) => n
  | _ => openvr_trackers_module.ModuleName
  end.

(** The name of the module: [setName] is given the [name] option as a C
    string, which ends at its first NUL. *)
Definition configured_name (rf : ResourceFinder) : string :=
  c_str (name_option rf).

Definition configured_period (rf : ResourceFinder) : float :=
  match rf !! "period" with
  | Some (VFloat64 d) => d
  | _ => openvr_trackers_module.DefaultPeriod
  end.

Definition configured_baseFrame (rf : ResourceFinder) : string :=
  match rf !! "tfBaseFrameName" with
  | Some (VString n) => n
  | _ => openvr_trackers_module.DefaultTfBaseFrameName
  end.

(** Lower case as the description of the [vrOrigin] option means it, written
    without [tolower]: each of the 26 capital letters has its small letter,
    every other character is kept. *)
Definition lowercase_letter (c : ascii) : ascii :=
  match c with
  | "A" => "a" | "B" => "b" | "C" => "c" | "D" => "d" | "E" => "e" | "F" => "f"
  | "G" => "g" | "H" => "h" | "I" => "i" | "J" => "j" | "K" => "k" | "L" => "l"
  | "M" => "m" | "N" => "n" | "O" => "o" | "P" => "p" | "Q" => "q" | "R" => "r"
  | "S" => "s" | "T" => "t" | "U" => "u" | "V" => "v" | "W" => "w" | "X" => "x"
  | "Y" => "y" | "Z" => "z"
  | _ => c
  end%char.

Fixpoint in_lower_case (v : string) : string :=
  match v with
  | EmptyString => EmptyString
  | String c v' => String (lowercase_letter c) (in_lower_case v')
  end.

(** The origin a [vrOrigin] string names, compared in lower case; [None]
    for a string which names none. *)
Definition origin_named (v : string) : option TrackingUniverseOrigin :=
  let l := in_lower_case v in
  if decide (l = "seated") then Some Seated
  else if decide (l = "standing") then Some Standing
  else if decide (l = "raw") then Some Raw
  else None.

(** The origin [configure] is to select: the one the option names, Seated
    when it names none or is not there as a string. *)
Definition configured_origin (rf : ResourceFinder) : TrackingUniverseOrigin :=
  match rf !! "vrOrigin" with
  | Some (VString v) => default Seated (origin_named v)
  | _ => Seated
  end.

(** Whether the [vrOrigin] option is a string which names no origin. *)
Definition unrecognized_origin (rf : ResourceFinder) : bool :=
  match rf !! "vrOrigin" with
  | Some (VString v) => bool_decide (origin_named v = None)
  | _ => false
  end.

(** The homogeneous transform of a pose, cell by cell: the rotation in the
    top-left 3x3 block, the translation in the top-right column, and
    [0 0 0 1] in the bottom row. *)
Definition TransformOf (p : Pose) (m : Matrix) : Prop :=
  nrows m = 4 /\ ncols m = 4 /\ length (storage m) = 16 /\
  (forall i j, i < 3 -> j < 3 ->
     exists v, vec_to_list (rotationRowMajor p) !! (3 * i + j) = Some v /\
               mat_get m i j = Some v) /\
  (forall i, i < 3 ->
     exists v, vec_to_list (position p) !! i = Some v /\
               mat_get m i 3 = Some v) /\
  mat_get m 3 0 = Some 0%float /\ mat_get m 3 1 = Some 0%float /\
  mat_get m 3 2 = Some 0%float /\ mat_get m 3 3 = Some 1%float.

(** The same transform, written out as the matrix it is. *)
Definition homogeneous (p : Pose) : Matrix :=
  let R := rotationRowMajor p in
  let t := position p in
  mkMatrix 4 4
    [ R !!! 0%fin; R !!! 1%fin; R !!! 2%fin; t !!! 0%fin;
      R !!! 3%fin; R !!! 4%fin; R !!! 5%fin; t !!! 1%fin;
      R !!! 6%fin; R !!! 7%fin; R !!! 8%fin; t !!! 2%fin;
      0%float; 0%float; 0%float; 1%float ].

(** [e] is the publish call of the device [sn], as the snapshot [mgr] and
    the base frame [base] determine it, whatever the client answers. *)
Definition publication `{!DevicesManager M} (mgr : M) (base sn : string)
    (e : Event) : Prop :=
  exists p ok,
    pose mgr sn = Some p /\
    e = EvSetTransform sn (tfNamePrefix (type mgr sn) +:+ sn) base
                       (homogeneous p) ok.

End Running.

(** ** A concrete environment to run the module in *)

Module Bench.
Import yarp openvr OpenVRTrackersModule.

(** A manager over a fixed table of devices; it initialises when the
    runtime is reachable and resets only once initialised. *)
Record Manager : Type := mkManager {
  reachable : bool;
  initialized : option TrackingUniverseOrigin;
  devices : list (string * (TrackedDeviceType * option Pose))
}.

Definition device (m : Manager) (sn : string)
  : option (TrackedDeviceType * option Pose) :=
  (fun d => snd (snd d)) <$> list_find (fun d => fst d = sn) (devices m).

#[export] Instance bench_manager : DevicesManager Manager := {|
  initialize o m :=
    if reachable m then (true, mkManager true (Some o) (devices m)) else (false, m);
  openvr.resetSeatedPosition m := (bool_decide (is_Some (initialized m)), m);
  computePoses m := m;
  managedDevices m := fst <$> devices m;
  type m sn := default Other (fst <$> device m sn);
  pose m sn := device m sn ≫= snd
|}.

(** A transform client which answers from a script, then succeeds, and
    counts the transforms it received. *)
Record Client : Type := mkClient {
  script : list bool;
  received : nat
}.

#[export] Instance bench_client : IFrameTransform Client := {|
  setTransform child parent m c :=
    match script c with
    | [] => (true, mkClient [] (S (received c)))
    | ok :: rest => (ok, mkClient rest (if ok then S (received c) else received c))
    end
|}.

(** A driver which opens when the server is there and exposes the
    interface when the device has it. *)
Record Driver : Type := mkDriver {
  server_up : bool;
  has_interface : bool;
  opened : bool
}.

#[export] Instance bench_driver : PolyDriver Driver Client := {|
  drv_open cfg d :=
    if server_up d then (true, mkDriver true (has_interface d) true) else (false, d);
  drv_view d :=
    if opened d && has_interface d then Some (mkClient [] 0) else None;
  drv_close d := mkDriver (server_up d) (has_interface d) false
|}.

(** A port which opens when its name is free. *)
Record Port : Type := mkPort {
  name_free : bool;
  attached : bool;
  port_opened : bool
}.

#[export] Instance bench_port : RpcServer Port := {|
  attachAsServer p := mkPort (name_free p) true (port_opened p);
  port_open name p :=
    if name_free p then (true, mkPort false (attached p) true) else (false, p);
  port_close p := mkPort (name_free p) (attached p) false
|}.

Definition identity9 : vec float 9 :=
  [# 1; 0; 0; 0; 1; 0; 0; 0; 1]%float.

Definition hmd_pose : Pose := mkPose [# 1; 2; 3]%float identity9.

Definition tracker_pose : Pose :=
  mkPose [# 0.5; 0.25; 4]%float [# 0; -1; 0; 1; 0; 0; 0; 0; 1]%float.

(** One headset, one controller out of view, one tracker, one base
    station (a type the module's switch does not name). *)
Definition table : list (string * (TrackedDeviceType * option Pose)) :=
  [ ("LHR-0001", (HMD, Some hmd_pose));
    ("LHR-0002", (Controller, None));
    ("LHR-0003", (GenericTracker, Some tracker_pose));
    ("LHB-0004", (Other, Some hmd_pose)) ].

(** The module before [configure], in a world where everything works. *)
Definition fresh : State Manager Driver Client Port :=
  mkState "" 0%float "" (mkMatrix 0 0 [])
          (mkManager true None table)
          (mkDriver true true false)
          None
          (mkPort true false false).

(** The same module when the transform server is down. *)
Definition fresh_no_server : State Manager Driver Client Port :=
  set_driver (mkDriver false true false) fresh.

(** The same module when the tracking runtime is unreachable. *)
Definition fresh_no_runtime : State Manager Driver Client Port :=
  set_manager (mkManager false None table) fresh.

Definition options : ResourceFinder :=
  {[ "period" := VFloat64 0.5%float; "vrOrigin" := VString "Standing" ]}.

Definition odd_options : ResourceFinder :=
  {[ "vrOrigin" := VString "sideways" ]}.

Definition mixed_case_options : ResourceFinder :=
  {[ "vrOrigin" := VString "StAnDiNg" ]}.

Definition scripted (answers : list bool)
    (s : State Manager Driver Client Port) : State Manager Driver Client Port :=
  set_tf (Some (mkClient answers 0)) s.

(** The state an operation ends in ([d] when it has no defined result). *)
Definition state_after {A} (r : option (A * State Manager Driver Client Port * list Event))
    (d : State Manager Driver Client Port) : State Manager Driver Client Port :=
  match r with Some (_, s, _) => s | None => d end.

Definition events_of {A} (r : option (A * State Manager Driver Client Port * list Event))
  : list Event :=
  match r with Some (_, _, e) => e | None => [] end.

(** The module after a successful [configure], and some invocations
    later. *)
Definition configured : State Manager Driver Client Port :=
  state_after (configure options fresh) fresh.

Definition some_calls : list Running.Call :=
  [Running.CallUpdateModule; Running.CallGetPeriod;
   Running.CallResetSeatedPosition; Running.CallGetPeriod].

Definition running : State Manager Driver Client Port :=
  state_after (Running.calls some_calls configured) configured.

End Bench.

(** ** The module lock *)

(** [updateModule] and [resetSeatedPosition] both begin with
    [const auto lock = std::unique_lock (m_mutex)], released when the
    function returns.  YARP calls the first from its periodic thread and the
    second from the thread of the RPC port; here the two threads are
    interleaved step by step, a thread which finds the mutex taken waits. *)
Module Scheduling.
Import yarp openvr OpenVRTrackersModule.
Local Open Scope op_scope.

Inductive Thread : Type := Updater | Resetter.

(** Where the periodic thread stands in [updateModule]. *)
Inductive UpdatePoint : Type :=
| UpdateCalled
| UpdateLocked
| UpdateLoop (rest : list string)
| UpdateReturned (r : bool).

(** Where the RPC thread stands in [resetSeatedPosition]. *)
Inductive ResetPoint : Type :=
| ResetCalled
| ResetLocked
| ResetReturning (r : bool)
| ResetReturned (r : bool).

Record Machine (M D T P : Type) : Type := mkMachine {
  m_mutex : option Thread;
  object : State M D T P;
  updater : UpdatePoint;
  resetter : ResetPoint;
  history : list Event
}.
Arguments mkMachine {M D T P}.
Arguments m_mutex {M D T P}.
Arguments object {M D T P}.
Arguments updater {M D T P}.
Arguments resetter {M D T P}.
Arguments history {M D T P}.

(** What a thread does when it is given the processor. *)
Inductive Outcome (A : Type) : Type :=
| Stepped (a : A)
| Waits
| Idle
| Undefined.
Arguments Stepped {A}.
Arguments Waits {A}.
Arguments Idle {A}.
Arguments Undefined {A}.

Section Threads.
Context {M D T P : Type}.
Context `{!DevicesManager M, !PolyDriver D T, !IFrameTransform T, !RpcServer P}.

(** One step of [updateModule]: take the lock, compute the poses and read
    the device list, visit one device, or return and release the lock. *)
Definition updater_step (m : Machine M D T P) : Outcome (Machine M D T P) :=
  match updater m with
  | UpdateCalled =>
      match m_mutex m with
      | None =>
          Stepped (mkMachine (Some Updater) (object m) UpdateLocked
                             (resetter m) (history m))
      | Some _ => Waits
      end
  | UpdateLocked =>
      match (manager_computePoses;;
             gets (fun s => managedDevices (m_manager s))) (object m) with
      | Some (devices, s', evs) =>
          Stepped (mkMachine (m_mutex m) s' (UpdateLoop devices)
                             (resetter m) (history m ++ evs))
      | None => Undefined
      end
  | UpdateLoop (sn :: rest) =>
      match update_device sn (object m) with
      | Some (_, s', evs) =>
          Stepped (mkMachine (m_mutex m) s' (UpdateLoop rest)
                             (resetter m) (history m ++ evs))
      | None => Undefined
      end
  | UpdateLoop [] =>
      Stepped (mkMachine None (object m) (UpdateReturned true)
                         (resetter m) (history m))
  | UpdateReturned _ => Idle
  end.

(** One step of [resetSeatedPosition]: take the lock, run the body, or
    return and release the lock. *)
Definition resetter_step (m : Machine M D T P) : Outcome (Machine M D T P) :=
  match resetter m with
  | ResetCalled =>
      match m_mutex m with
      | None =>
          Stepped (mkMachine (Some Resetter) (object m) (updater m)
                             ResetLocked (history m))
      | Some _ => Waits
      end
  | ResetLocked =>
      match OpenVRTrackersModule.resetSeatedPosition (object m) with
      | Some (r, s', evs) =>
          Stepped (mkMachine (m_mutex m) s' (updater m)
                             (ResetReturning r) (history m ++ evs))
      | None => Undefined
      end
  | ResetReturning r =>
      Stepped (mkMachine None (object m) (updater m) (ResetReturned r) (history m))
  | ResetReturned _ => Idle
  end.

Definition step (t : Thread) (m : Machine M D T P) : Outcome (Machine M D T P) :=
  match t with
  | Updater => updater_step m
  | Resetter => resetter_step m
  end.

(** The machine under a schedule: the threads move in the order given, a
    thread which waits or has returned lets its turn pass. *)
Fixpoint run (schedule : list Thread) (m : Machine M D T P)
  : option (Machine M D T P) :=
  match schedule with
  | [] => Some m
  | t :: schedule' =>
      match step t m with
      | Stepped m' => run schedule' m'
      | Waits | Idle => run schedule' m
      | Undefined => None
      end
  end.

(** Both calls have just been made on the module [s]. *)
Definition called (s : State M D T P) : Machine M D T P :=
  mkMachine None s UpdateCalled ResetCalled [].

Definition inside_update (p : UpdatePoint) : bool :=
  match p with UpdateLocked | UpdateLoop _ => true | _ => false end.

Definition inside_reset (p : ResetPoint) : bool :=
  match p with ResetLocked | ResetReturning _ => true | _ => false end.

(** The thread which holds the lock, by where the threads stand. *)
Definition owner (u : UpdatePoint) (r : ResetPoint) : option Thread :=
  if inside_update u then Some Updater
  else if inside_reset r then Some Resetter
  else None.

(** The update has come to [p] from the module [base], with the module
    now [obj] and the events [h] behind it. *)
Definition update_from (base : State M D T P) (p : UpdatePoint)
    (obj : State M D T P) (h : list Event) : Prop :=
  match p with
  | UpdateCalled | UpdateLocked => obj = base /\ h = []
  | UpdateLoop rest =>
      Running.Configured obj /\
      exists s' e,
        for_each rest update_device obj = Some (tt, s', e) /\
        updateModule base = Some (true, s', h ++ e)
  | UpdateReturned r => r = true /\ updateModule base = Some (true, obj, h)
  end.

(** The same for the reset command. *)
Definition reset_from (base : State M D T P) (p : ResetPoint)
    (obj : State M D T P) (h : list Event) : Prop :=
  match p with
  | ResetCalled | ResetLocked => obj = base /\ h = []
  | ResetReturning r | ResetReturned r =>
      OpenVRTrackersModule.resetSeatedPosition base = Some (r, obj, h)
  end.

(** What holds of the machine at all times: the lock is with the thread
    inside its function, and the module and the events are those of the
    two functions run one after the other, in one order or the other, as
    far as they have come. *)
Definition serial (s : State M D T P) (m : Machine M D T P) : Prop :=
  m_mutex m = owner (updater m) (resetter m) /\
  ((resetter m = ResetCalled /\
    update_from s (updater m) (object m) (history m)) \/
   (updater m = UpdateCalled /\
    reset_from s (resetter m) (object m) (history m)) \/
   (exists s1 e1 h2,
       updateModule s = Some (true, s1, e1) /\ Running.Configured s1 /\
       updater m = UpdateReturned true /\ history m = e1 ++ h2 /\
       reset_from s1 (resetter m) (object m) h2) \/
   (exists r s1 e1 h2,
       OpenVRTrackersModule.resetSeatedPosition s = Some (r, s1, e1) /\
       Running.Configured s1 /\
       resetter m = ResetReturned r /\ history m = e1 ++ h2 /\
       update_from s1 (updater m) (object m) h2)).

End Threads.

(** The calls of the manager's reset in a trace. *)
Definition resets (evs : list Event) : list bool :=
  omap (fun e => match e with EvResetSeatedPosition ok => Some ok | _ => None end) evs.

(** A reset called when the cycle has just taken the lock: the RPC thread
    is given the processor twice in the middle of the cycle and has to
    wait. *)
Definition reset_during_cycle : list Thread :=
  [Updater; Resetter; Updater; Updater; Resetter; Updater].

End Scheduling.

(** ** OpenVRCamera.cpp *)

Module vr.

(** [vr::EVRTrackedCameraError]: no error, or one of the error codes. *)
Inductive EVRTrackedCameraError : Type :=
| VRTrackedCameraError_None
| VRTrackedCameraError_Code (code : Z).

(** [vr::CameraVideoStreamFrameHeader_t], with the field [getImage]
    reads. *)
Record CameraVideoStreamFrameHeader_t : Type := mkHeader {
  nFrameSequence : Z
}.

(** [vr::IVRTrackedCamera::GetVideoStreamFrameBuffer (handle, type, buffer,
    size, &header, sizeof header)] on an abstract runtime [C]: it is given
    the frame buffer ([None] for the null pointer of a header-only query)
    and answers an error code, the header and the buffer as it left it.
    The callee writes into the bytes it is given: the buffer it leaves is
    as long as the one it received.  [GetCameraErrorNameFromEnum] is the
    name of an error code. *)
Class IVRTrackedCamera (C : Type) : Type := {
  GetVideoStreamFrameBuffer :
    Z -> option (list byte) -> C ->
    EVRTrackedCameraError * CameraVideoStreamFrameHeader_t * option (list byte) * C;
  GetCameraErrorNameFromEnum : EVRTrackedCameraError -> C -> string;
  GetVideoStreamFrameBuffer_length :
    forall handle buffer c err header buffer' c',
      GetVideoStreamFrameBuffer handle (Some buffer) c
      = (err, header, Some buffer', c') ->
      length buffer' = length buffer
}.

End vr.

Module OpenVRCamera.
Import yarp vr.
Local Open Scope op_scope.

(** [yarp::sig::PixelRgb]. *)
Record PixelRgb : Type := mkPixelRgb {
  r : byte;
  g : byte;
  b : byte
}.

(** [yarp::sig::ImageOf<PixelRgb>]: [pixel (x, y)] is [pixels[y * width + x]]. *)
Record Image : Type := mkImage {
  img_width : nat;
  img_height : nat;
  pixels : list PixelRgb
}.

(** [image.resize (w, h)]: an image of the size asked for is left alone,
    otherwise the pixels are allocated anew (their content is of no
    consequence, [getImage] writes every one of them). *)
Definition image_resize (w h : nat) (img : Image) : Image :=
  if bool_decide (w = img_width img) && bool_decide (h = img_height img) then img
  else mkImage w h (replicate (w * h) (mkPixelRgb "000" "000" "000")).

(** Read access [image.pixel (x, y)]. *)
Definition pixel (img : Image) (x y : nat) : option PixelRgb :=
  if bool_decide (x < img_width img) && bool_decide (y < img_height img)
  then pixels img !! (y * img_width img + x)
  else None.

(** [image.pixel (x, y) = f (image.pixel (x, y))]; the access is unchecked,
    out of the image it is undefined. *)
Definition pixel_update (x y : nat) (f : PixelRgb -> PixelRgb) (img : Image)
  : option Image :=
  match pixel img x y with
  | Some px =>
      Some (mkImage (img_width img) (img_height img)
                    (<[y * img_width img + x := f px]> (pixels img)))
  | None => None
  end.

Definition set_r (v : byte) (px : PixelRgb) : PixelRgb := mkPixelRgb v (g px) (b px).
Definition set_g (v : byte) (px : PixelRgb) : PixelRgb := mkPixelRgb (r px) v (b px).
Definition set_b (v : byte) (px : PixelRgb) : PixelRgb := mkPixelRgb (r px) (g px) v.

(** The fields of [OpenVRCamera::Impl] that [getImage] uses; the tracked
    camera interface is the runtime behind the pointer, [None] when
    null. *)
Record Impl (C : Type) : Type := mkImpl {
  pVRTrackedCamera : option C;
  hTrackedCamera : Z;
  nCameraFrameWidth : nat;
  nCameraFrameHeight : nat;
  nCameraFrameBufferSize : nat;
  pCameraFrameBuffer : list byte;
  nLastFrameSequence : Z
}.
Arguments mkImpl {C}.
Arguments pVRTrackedCamera {C}.
Arguments hTrackedCamera {C}.
Arguments nCameraFrameWidth {C}.
Arguments nCameraFrameHeight {C}.
Arguments nCameraFrameBufferSize {C}.
Arguments pCameraFrameBuffer {C}.
Arguments nLastFrameSequence {C}.

(** While [getImage] runs: the device, the caller's image and, in the
    loop, the offset of [pFrameImage] into the frame buffer. *)
Record Frame (C : Type) : Type := mkFrame {
  pImpl : Impl C;
  image : Image;
  pFrameImage : nat
}.
Arguments mkFrame {C}.
Arguments pImpl {C}.
Arguments image {C}.
Arguments pFrameImage {C}.

Section Members.
Context {C : Type} `{!IVRTrackedCamera C}.

(** [pFrameImage[i]]; reading past the buffer is undefined. *)
Definition read (i : nat) : Op (Frame C) byte := fun s =>
  match pCameraFrameBuffer (pImpl s) !! (pFrameImage s + i) with
  | Some v => Some (v, s, [])
  | None => None
  end.

(** [pFrameImage[3] > 0 ? pFrameImage[i] : 0] *)
Definition masked (i : nat) : Op (Frame C) byte :=
  alpha ← read 3;
  if (0 <? Byte.to_N alpha)%N then read i else op_ret "000"%byte.

(** [image.pixel (x, y).c = v] for the component written by [set]. *)
Definition write (x y : nat) (set : byte -> PixelRgb -> PixelRgb) (v : byte)
  : Op (Frame C) unit := fun s =>
  match pixel_update x y (set v) (image s) with
  | Some img => Some (tt, mkFrame (pImpl s) img (pFrameImage s), [])
  | None => None
  end.

(** The body of the inner loop, lines 221-224. *)
Definition copy_pixel (x y : nat) : Op (Frame C) unit :=
  v ← masked 0; write x y set_r v;;
  v ← masked 1; write x y set_g v;;
  v ← masked 2; write x y set_b v;;
  (* advance by 4 bytes (RGBA) *)
  modify (fun s => mkFrame (pImpl s) (image s) (pFrameImage s + 4)).

(** The two loops, lines 219-226. *)
Definition copy_frame : Op (Frame C) unit :=
  h ← gets (fun s => nCameraFrameHeight (pImpl s));
  w ← gets (fun s => nCameraFrameWidth (pImpl s));
  for_each (seq 0 h) (fun y => for_each (seq 0 w) (fun x => copy_pixel x y)).

(** The call on the runtime behind [pVRTrackedCamera]; with [with_buffer]
    the frame buffer is handed over and comes back filled. *)
Definition fetch (with_buffer : bool)
  : Op (Frame C) (EVRTrackedCameraError * CameraVideoStreamFrameHeader_t) := fun s =>
  match pVRTrackedCamera (pImpl s) with
  | None => None
  | Some c =>
      let i := pImpl s in
      let arg := if with_buffer then Some (pCameraFrameBuffer i) else None in
      let '(err, header, buffer, c') :=
        GetVideoStreamFrameBuffer (hTrackedCamera i) arg c in
      let buffer' :=
        if with_buffer then default (pCameraFrameBuffer i) buffer
        else pCameraFrameBuffer i in
      Some ((err, header),
            mkFrame (mkImpl (Some c') (hTrackedCamera i) (nCameraFrameWidth i)
                            (nCameraFrameHeight i) (nCameraFrameBufferSize i)
                            buffer' (nLastFrameSequence i))
                    (image s) (pFrameImage s),
            [])
  end.

(** [nCameraError != vr::VRTrackedCameraError_None] *)
Definition is_error (e : EVRTrackedCameraError) : bool :=
  match e with VRTrackedCameraError_None => false | _ => true end.

Definition set_nLastFrameSequence (n : Z) (s : Frame C) : Frame C :=
  let i := pImpl s in
  mkFrame (mkImpl (pVRTrackedCamera i) (hTrackedCamera i) (nCameraFrameWidth i)
                  (nCameraFrameHeight i) (nCameraFrameBufferSize i)
                  (pCameraFrameBuffer i) n)
          (image s) (pFrameImage s).

(** [pImpl->pVRTrackedCamera->GetCameraErrorNameFromEnum (nCameraError)],
    undefined on a null [pVRTrackedCamera]. *)
Definition error_name (e : EVRTrackedCameraError) : Op (Frame C) string := fun s =>
  match pVRTrackedCamera (pImpl s) with
  | None => None
  | Some c => Some (GetCameraErrorNameFromEnum e c, s, [])
  end.

Definition getImage : Op (Frame C) bool :=
  opened ← gets (fun s => bool_decide (is_Some (pVRTrackedCamera (pImpl s)))
                          && negb (Z.eqb (hTrackedCamera (pImpl s)) 0));
  if negb opened then
    log Error [LStr "getImage() called before camera has been opened."];;
    op_ret false
  else
  (* get the frame header only *)
  '(nCameraError, frameHeader) ← fetch false;
  if is_error nCameraError then
    name ← error_name nCameraError;
    log Error [LStr "GetVideoStreamFrameBuffer() Failed to get frame header. Error:";
               LStr name];;
    op_ret false
  else
  last ← gets (fun s => nLastFrameSequence (pImpl s));
  if Z.eqb (nFrameSequence frameHeader) last then
    log Warning [LStr "No new frame available."];;
    op_ret false
  else
  (* Frame has changed, do the more expensive frame buffer copy *)
  '(nCameraError, frameHeader) ← fetch true;
  if is_error nCameraError then
    name ← error_name nCameraError;
    log Error [LStr "GetVideoStreamFrameBuffer() Failed to get frame buffer. Error:";
               LStr name];;
    op_ret false
  else
  modify (set_nLastFrameSequence (nFrameSequence frameHeader));;
  w ← gets (fun s => nCameraFrameWidth (pImpl s));
  h ← gets (fun s => nCameraFrameHeight (pImpl s));
  modify (fun s => mkFrame (pImpl s) (image_resize w h (image s)) (pFrameImage s));;
  modify (fun s => mkFrame (pImpl s) (image s) 0);;
  copy_frame;;
  op_ret true.

End Members.

(** The pixel the claim describes for the four bytes of a pixel of the
    frame: black when the alpha byte is 0, the colour bytes otherwise. *)
Definition alpha_masked (r g b a : byte) : PixelRgb :=
  if Byte.eqb a "000" then mkPixelRgb "000" "000" "000"
  else mkPixelRgb r g b.

(** The four bytes of the pixel of index [i] in an RGBA buffer. *)
Definition rgba (buf : list byte) (i : nat) : option (byte * byte * byte * byte) :=
  match buf !! (4 * i), buf !! (4 * i + 1), buf !! (4 * i + 2), buf !! (4 * i + 3) with
  | Some r, Some g, Some b, Some a => Some (r, g, b, a)
  | _, _, _, _ => None
  end.

(** Where the loops stand once the first [n] pixels of a [w] x [h] frame
    have been copied from the buffer [buf] by the device [impl]. *)
Definition copied {C} (impl : Impl C) (buf : list byte) (w h n : nat)
    (s : Frame C) : Prop :=
  pImpl s = impl /\ pCameraFrameBuffer impl = buf /\
  img_width (image s) = w /\ img_height (image s) = h /\
  length (pixels (image s)) = w * h /\
  pFrameImage s = 4 * n /\
  forall i, i < n ->
    exists r g b a, rgba buf i = Some (r, g, b, a) /\
                    pixels (image s) !! i = Some (alpha_masked r g b a).

End OpenVRCamera.

(** ** A camera to take images from *)

Module CameraBench.
Import vr OpenVRCamera.

(** A runtime holding one frame and its sequence number. *)
Record Runtime : Type := mkRuntime {
  frame : list byte;
  sequence : Z
}.

(** The bytes of [frame] written into the buffer [old], as far as it
    goes. *)
Definition filled (old frame : list byte) : list byte :=
  take (length old) frame ++ drop (length frame) old.

Definition filled_length (old frame : list byte) :
  length (filled old frame) = length old.
Proof.
  unfold filled. rewrite length_app, length_take, length_drop. lia.
Qed.

Definition error_names (e : EVRTrackedCameraError) : string :=
  match e with
  | VRTrackedCameraError_None => "VRTrackedCameraError_None"
  | VRTrackedCameraError_Code _ => "VRTrackedCameraError_OperationFailed"
  end.

Definition bench_frame_buffer (handle : Z) (buffer : option (list byte))
    (c : Runtime)
  : EVRTrackedCameraError * CameraVideoStreamFrameHeader_t * option (list byte)
    * Runtime :=
  (VRTrackedCameraError_None, mkHeader (sequence c),
   (fun old => filled old (frame c)) <$> buffer, c).

Definition bench_frame_buffer_length handle buffer c err header buffer' c' :
  bench_frame_buffer handle (Some buffer) c = (err, header, Some buffer', c') ->
  length buffer' = length buffer.
Proof.
  unfold bench_frame_buffer. cbn. intros Heq. inversion Heq.
  apply filled_length.
Qed.

#[export] Instance bench_camera : IVRTrackedCamera Runtime := {|
  GetVideoStreamFrameBuffer := bench_frame_buffer;
  GetCameraErrorNameFromEnum e c := error_names e;
  GetVideoStreamFrameBuffer_length := bench_frame_buffer_length
|}.

(** A 2 x 2 frame: an opaque red pixel, a transparent green one, a
    transparent white one and a barely opaque blue one. *)
Definition rgba_frame : list byte :=
  [ "255"; "000"; "000"; "255";   "000"; "255"; "000"; "000";
    "255"; "255"; "255"; "000";   "000"; "000"; "255"; "001" ]%byte.

Definition camera : Frame Runtime :=
  mkFrame (mkImpl (Some (mkRuntime rgba_frame 7)) 1 2 2 16 (replicate 16 "000"%byte) 0)
          (mkImage 0 0 []) 0.

End CameraBench.

(** ** What [configure] asks of its collaborators *)

Module Configuration.
Import yarp openvr openvr_trackers_module.

Definition is_log (e : Event) : bool :=
  match e with EvLog _ _ => true | _ => false end.

(** The calls of a trace, in order: every event which is not a logged
    line. *)
Definition calls_of (evs : list Event) : list Event :=
  filter (fun e => is_log e = false) evs.

(** The logged lines of a trace. *)
Definition logs_of (evs : list Event) : list Event :=
  filter (fun e => is_log e = true) evs.

(** The ports of the transform client as the options give them; the
    default local port is made from the name of the module. *)
Definition configured_tfLocal (rf : ResourceFinder) : string :=
  match rf !! "tfLocal" with
  | Some (VString v) => v
  | _ => "/" +:+ Running.configured_name rf +:+ DefaultTfLocal
  end.

Definition configured_tfRemote (rf : ResourceFinder) : string :=
  match rf !! "tfRemote" with
  | Some (VString v) => v
  | _ => DefaultTfRemote
  end.

(** The configuration the transform client is to be opened with. *)
Definition client_config (rf : ResourceFinder) : Property :=
  {[ "device" := VString "transformClient";
     "local" := VString (configured_tfLocal rf);
     "remote" := VString (configured_tfRemote rf) ]}.

(** The five calls of a whole [configure], with their answers. *)
Definition configure_calls (rf : ResourceFinder) (o1 o2 o3 o4 o5 : bool)
  : list Event :=
  [ EvDriverOpen (client_config rf) o1;
    EvDriverView o2;
    EvInitialize (Running.configured_origin rf) o3;
    EvResetSeatedPosition o4;
    EvRpcOpen "/OpenVRTrackersModule/rpc" o5 ].

Definition identity4 : Matrix :=
  mkMatrix 4 4 [1; 0; 0; 0;  0; 1; 0; 0;  0; 0; 1; 0;  0; 0; 0; 1]%float.

(** The line [resetSeatedPosition] logs when the manager's reset fails. *)
Definition reset_failure : Event :=
  EvLog Error [LStr "OpenVRTrackersModule:"; LStr "Failed to reset seated position."].

(** A list of calls cut after the first one which failed. *)
Fixpoint up_to_failure (calls : list Event) : list Event :=
  match calls with
  | [] => []
  | e :: rest =>
      match call_result e with
      | Some false => [e]
      | _ => e :: up_to_failure rest
      end
  end.

Section Answers.
Context {M D T P : Type}.
Context `{!DevicesManager M, !PolyDriver D T, !IFrameTransform T, !RpcServer P}.
Implicit Types s : OpenVRTrackersModule.State M D T P.

(** The five sub-steps of [configure] on the collaborators of the module
    [s], each made on what the sub-steps before it have left: the opening
    of the transform client, the view of its interface, the initialisation
    of the manager, the reset of the seated position and the opening of the
    RPC port once attached. *)
Definition opened (rf : ResourceFinder) s : bool * D :=
  drv_open (client_config rf) (OpenVRTrackersModule.m_driver s).

Definition viewed (rf : ResourceFinder) s : option T :=
  drv_view (snd (opened rf s)).

Definition initialized (rf : ResourceFinder) s : bool * M :=
  initialize (Running.configured_origin rf) (OpenVRTrackersModule.m_manager s).

Definition reset_once (rf : ResourceFinder) s : bool * M :=
  openvr.resetSeatedPosition (snd (initialized rf s)).

Definition served s : bool * P :=
  port_open "/OpenVRTrackersModule/rpc"
            (attachAsServer (OpenVRTrackersModule.m_rpcPort s)).

(** Whether each of them succeeds. *)
Definition open_ok (rf : ResourceFinder) s : bool := fst (opened rf s).
Definition view_ok (rf : ResourceFinder) s : bool :=
  bool_decide (is_Some (viewed rf s)).
Definition init_ok (rf : ResourceFinder) s : bool := fst (initialized rf s).
Definition reset_ok (rf : ResourceFinder) s : bool := fst (reset_once rf s).
Definition port_ok s : bool := fst (served s).

(** The calls [configure] makes on [s]: the five of them in order, up to
    the first one which fails. *)
Definition calls_made (rf : ResourceFinder) s : list Event :=
  up_to_failure
    (configure_calls rf (open_ok rf s) (view_ok rf s) (init_ok rf s)
                     (reset_ok rf s) (port_ok s)).

End Answers.

End Configuration.

(** ** OpenVRCamera.cpp: opening and closing the device *)

Module vrsystem.
Import vr.

(** [vr::EVRInitError] and [vr::ETrackedPropertyError]: success, or one of
    the error codes. *)
Inductive EVRInitError : Type :=
| VRInitError_None
| VRInitError_Code (code : Z).

Inductive ETrackedPropertyError : Type :=
| TrackedProp_Success
| TrackedProp_Code (code : Z).

(** The three string properties of the headset that [open] asks for. *)
Inductive ETrackedDeviceProperty : Type :=
| Prop_TrackingSystemName_String
| Prop_SerialNumber_String
| Prop_CameraFirmwareDescription_String.

(** [INVALID_TRACKED_CAMERA_HANDLE] of openvr.h, the null handle; it is
    the value [getImage] tests with [!pImpl->hTrackedCamera]. *)
Definition INVALID_TRACKED_CAMERA_HANDLE : Z := 0.

(** The SteamVR runtime of the process, as [open] and [close] use it, on an
    abstract runtime [R] with the tracked camera interface [C] behind it.
    [VR_Init] answers its error code and whether the pointer it returns
    is non-null; [VR_GetVRInitErrorAsSymbol] and [GetPropErrorNameFromEnum]
    are the names of the error codes. *)
Class IVRSystem (R C : Type) : Type := {
  VR_Init : R -> EVRInitError * bool * R;
  VR_Shutdown : R -> R;
  VR_GetVRInitErrorAsSymbol : EVRInitError -> string;
  GetStringTrackedDeviceProperty :
    ETrackedDeviceProperty -> R -> string * ETrackedPropertyError;
  GetPropErrorNameFromEnum : ETrackedPropertyError -> R -> string;
  VRTrackedCamera : R -> option C
}.

(** The other member functions of [vr::IVRTrackedCamera] that [open] and
    [close] call.  An output parameter is a result: [HasCamera] answers
    what it leaves in [bHasCamera] (false before the call),
    [GetCameraFrameSize] the width and height it leaves in the fields it is
    given (with their values before) and the buffer size,
    [AcquireVideoStreamingService] the handle it leaves (with the one
    before). *)
Class IVRTrackedCameraService (C : Type) : Type := {
  HasCamera : C -> EVRTrackedCameraError * bool;
  GetCameraFrameSize : nat -> nat -> C -> EVRTrackedCameraError * nat * nat * nat;
  AcquireVideoStreamingService : Z -> C -> Z * C;
  ReleaseVideoStreamingService : Z -> C -> C
}.

End vrsystem.

Module OpenVRCameraDevice.
Import yarp vr vrsystem OpenVRCamera.
Local Open Scope op_scope.

(** The device: the runtime of the process, whether [pImpl->pVRSystem]
    points to it or is null, the serial number kept by [open], and the
    fields of [Impl] that [getImage] shares. *)
Record Camera (R C : Type) : Type := mkCamera {
  steamvr : R;
  pVRSystem : bool;
  HMDSerialNumberString : string;
  impl : Impl C
}.
Arguments mkCamera {R C}.
Arguments steamvr {R C}.
Arguments pVRSystem {R C}.
Arguments HMDSerialNumberString {R C}.
Arguments impl {R C}.

(** [uint32_t] returned as [int]. *)
Definition int_of_uint32 (n : nat) : Z :=
  let z := (Z.of_nat n mod 2 ^ 32)%Z in
  if (z <? 2 ^ 31)%Z then z else (z - 2 ^ 32)%Z.

Section Members.
Context {R C : Type}.
Context `{!IVRSystem R C, !IVRTrackedCameraService C, !IVRTrackedCamera C}.

(** [OpenVRCamera ()]: [std::make_unique<Impl> ()] value-initialises the
    structure, every pointer is null and every number 0. *)
Definition constructed (runtime : R) : Camera R C :=
  mkCamera runtime false "" (mkImpl None 0 0 0 0 [] 0).

Definition set_pVRSystem (v : bool) (c : Camera R C) : Camera R C :=
  mkCamera (steamvr c) v (HMDSerialNumberString c) (impl c).
Definition set_serial (v : string) (c : Camera R C) : Camera R C :=
  mkCamera (steamvr c) (pVRSystem c) v (impl c).
Definition set_impl (i : Impl C) (c : Camera R C) : Camera R C :=
  mkCamera (steamvr c) (pVRSystem c) (HMDSerialNumberString c) i.

Definition with_camera (v : option C) (i : Impl C) : Impl C :=
  mkImpl v (hTrackedCamera i) (nCameraFrameWidth i) (nCameraFrameHeight i)
         (nCameraFrameBufferSize i) (pCameraFrameBuffer i) (nLastFrameSequence i).
Definition with_handle (v : Z) (i : Impl C) : Impl C :=
  mkImpl (pVRTrackedCamera i) v (nCameraFrameWidth i) (nCameraFrameHeight i)
         (nCameraFrameBufferSize i) (pCameraFrameBuffer i) (nLastFrameSequence i).
Definition with_size (w h : nat) (i : Impl C) : Impl C :=
  mkImpl (pVRTrackedCamera i) (hTrackedCamera i) w h
         (nCameraFrameBufferSize i) (pCameraFrameBuffer i) (nLastFrameSequence i).
Definition with_buffer (size : nat) (buffer : list byte) (i : Impl C) : Impl C :=
  mkImpl (pVRTrackedCamera i) (hTrackedCamera i) (nCameraFrameWidth i)
         (nCameraFrameHeight i) size buffer (nLastFrameSequence i).
Definition with_sequence (v : Z) (i : Impl C) : Impl C :=
  mkImpl (pVRTrackedCamera i) (hTrackedCamera i) (nCameraFrameWidth i)
         (nCameraFrameHeight i) (nCameraFrameBufferSize i) (pCameraFrameBuffer i) v.

(** *** Calls on the runtime *)

(** [pImpl->pVRSystem = vr::VR_Init (&eError, vr::VRApplication_Scene)] *)
Definition vr_init : Op (Camera R C) EVRInitError := fun c =>
  let '(eError, pointer, runtime) := VR_Init (steamvr c) in
  Some (eError,
        mkCamera runtime pointer (HMDSerialNumberString c) (impl c), []).

(** [pImpl->pVRSystem->GetStringTrackedDeviceProperty (...)], undefined on a
    null [pVRSystem]. *)
Definition get_string (p : ETrackedDeviceProperty)
  : Op (Camera R C) (string * ETrackedPropertyError) := fun c =>
  if pVRSystem c then Some (GetStringTrackedDeviceProperty p (steamvr c), c, [])
  else None.

(** A call through [pImpl->pVRTrackedCamera], undefined when it is null. *)
Definition through_camera {A} (f : C -> Impl C -> A * Impl C)
  : Op (Camera R C) A := fun c =>
  match pVRTrackedCamera (impl c) with
  | None => None
  | Some cam => let '(a, i) := f cam (impl c) in Some (a, set_impl i c, [])
  end.

Definition has_camera : Op (Camera R C) (EVRTrackedCameraError * bool) :=
  through_camera (fun cam i => (HasCamera cam, i)).

(** [GetCameraFrameSize (..., &pImpl->nCameraFrameWidth,
    &pImpl->nCameraFrameHeight, &nCameraFrameBufferSize)] *)
Definition get_frame_size : Op (Camera R C) (EVRTrackedCameraError * nat) :=
  through_camera (fun cam i =>
    let '(error, w, h, size) :=
      GetCameraFrameSize (nCameraFrameWidth i) (nCameraFrameHeight i) cam in
    ((error, size), with_size w h i)).

(** [AcquireVideoStreamingService (..., &pImpl->hTrackedCamera)] *)
Definition acquire : Op (Camera R C) unit :=
  through_camera (fun cam i =>
    let '(h, cam') := AcquireVideoStreamingService (hTrackedCamera i) cam in
    (tt, with_camera (Some cam') (with_handle h i))).

(** [ReleaseVideoStreamingService (pImpl->hTrackedCamera)] *)
Definition release : Op (Camera R C) unit :=
  through_camera (fun cam i =>
    (tt, with_camera (Some (ReleaseVideoStreamingService (hTrackedCamera i) cam)) i)).

Definition init_failed (e : EVRInitError) : bool :=
  match e with VRInitError_None => false | _ => true end.

Definition prop_failed (e : ETrackedPropertyError) : bool :=
  match e with TrackedProp_Success => false | _ => true end.

(** *** open *)

(** [pImpl->pVRSystem->GetPropErrorNameFromEnum (propertyError)], undefined
    on a null [pVRSystem]. *)
Definition prop_error_name (e : ETrackedPropertyError) : Op (Camera R C) string :=
  fun c =>
  if pVRSystem c then Some (GetPropErrorNameFromEnum e (steamvr c), c, [])
  else None.

(** [pImpl->pVRTrackedCamera->GetCameraErrorNameFromEnum (nCameraError)] *)
Definition camera_error_name (e : EVRTrackedCameraError) : Op (Camera R C) string :=
  through_camera (fun cam i => (GetCameraErrorNameFromEnum e cam, i)).

(** [open]; its argument is not used. *)
Definition open : Op (Camera R C) bool :=
  (* Loading the SteamVR Runtime *)
  log Info [LStr "Starting OpenVR..."];;
  eError ← vr_init;
  if init_failed eError then
    modify (set_pVRSystem false);;
    log Error [LStr "Unable to init VR runtime:";
               LStr (VR_GetVRInitErrorAsSymbol eError)];;
    op_ret false
  else
  systemName ← get_string Prop_TrackingSystemName_String;
  serialNumber ← get_string Prop_SerialNumber_String;
  modify (set_serial (fst serialNumber));;
  log Info [LStr "VR HMD:"; LStr (fst systemName); LStr (fst serialNumber)];;
  cam ← gets (fun c => VRTrackedCamera (steamvr c));
  modify (fun c => set_impl (with_camera cam (impl c)) c);;
  if negb (bool_decide (is_Some cam)) then
    log Error [LStr "Unable to get Tracked Camera interface."];;
    op_ret false
  else
  '(nCameraError, bHasCamera) ← has_camera;
  if is_error nCameraError || negb bHasCamera then
    name ← camera_error_name nCameraError;
    log Error [LStr "No Tracked Camera Available:"; LStr name];;
    op_ret false
  else
  (* Accessing the FW description is just a further check to ensure camera
     communication is valid as expected. *)
  '(buffer, propertyError) ← get_string Prop_CameraFirmwareDescription_String;
  if prop_failed propertyError then
    name ← prop_error_name propertyError;
    log Error [LStr "Unable to get Tracked Camera Firmware Description:";
               LStr name];;
    op_ret false
  else
  log Info [LStr "Camera FW Description:"; LStr buffer];;
  log Info [LStr "Starting video acquisition..."];;
  (* Allocate for camera frame buffer requirements *)
  '(error, nCameraFrameBufferSize) ← get_frame_size;
  if is_error error then
    log Error [LStr "GetCameraFrameBounds() Failed!"];;
    op_ret false
  else
  old ← gets (fun c => OpenVRCamera.nCameraFrameBufferSize (impl c));
  (if negb (Nat.eqb nCameraFrameBufferSize 0)
      && negb (Nat.eqb nCameraFrameBufferSize old) then
     modify (fun c =>
       set_impl (with_buffer nCameraFrameBufferSize
                   (replicate nCameraFrameBufferSize "000"%byte) (impl c)) c)
   else op_ret tt);;
  modify (fun c => set_impl (with_sequence 0 (impl c)) c);;
  acquire;;
  h ← gets (fun c => hTrackedCamera (impl c));
  if Z.eqb h INVALID_TRACKED_CAMERA_HANDLE then
    log Error [LStr "AcquireVideoStreamingService() Failed!"];;
    op_ret false
  else
  log Info [LStr "OpenVRCamera device ready."];;
  op_ret true.

(** *** close *)

Definition close : Op (Camera R C) bool :=
  h ← gets (fun c => hTrackedCamera (impl c));
  (if negb (Z.eqb h INVALID_TRACKED_CAMERA_HANDLE) then
     release;;
     modify (fun c => set_impl (with_handle INVALID_TRACKED_CAMERA_HANDLE (impl c)) c)
   else op_ret tt);;
  sys ← gets pVRSystem;
  (if sys then
     modify (fun c => mkCamera (VR_Shutdown (steamvr c)) false
                               (HMDSerialNumberString c) (impl c))
   else op_ret tt);;
  op_ret true.

(** *** height, width *)

Definition height (c : Camera R C) : Z :=
  int_of_uint32 (nCameraFrameHeight (impl c)).

Definition width (c : Camera R C) : Z :=
  int_of_uint32 (nCameraFrameWidth (impl c)).

(** *** getImage on the device *)

(** The device while [getImage] fills the caller's image [img]. *)
Definition grabbing (c : Camera R C) (img : Image) : Frame C :=
  mkFrame (impl c) img 0.

End Members.

Definition is_error_line (e : Event) : bool :=
  match e with EvLog Error _ => true | _ => false end.

End OpenVRCameraDevice.

(** ** A runtime to open the camera on *)

Module DeviceBench.
Import vr vrsystem OpenVRCamera OpenVRCameraDevice CameraBench.

(** A runtime which starts or not, with or without a tracked camera. *)
Record System : Type := mkSystem {
  starts : bool;
  camera_interface : option Runtime;
  running : bool
}.

#[export] Instance bench_system : IVRSystem System Runtime := {|
  VR_Init r :=
    if starts r then (VRInitError_None, true, mkSystem true (camera_interface r) true)
    else (VRInitError_Code 108, false, r);
  VR_Shutdown r := mkSystem (starts r) (camera_interface r) false;
  VR_GetVRInitErrorAsSymbol e :=
    match e with
    | VRInitError_None => "VRInitError_None"
    | VRInitError_Code 108 => "VRInitError_Init_HmdNotFound"
    | VRInitError_Code _ => "VRInitError_Unknown"
    end;
  GetPropErrorNameFromEnum e r :=
    match e with
    | TrackedProp_Success => "TrackedProp_Success"
    | TrackedProp_Code _ => "TrackedProp_UnknownProperty"
    end;
  GetStringTrackedDeviceProperty p r :=
    (match p with
     | Prop_TrackingSystemName_String => "lighthouse"
     | Prop_SerialNumber_String => "LHR-0001"
     | Prop_CameraFirmwareDescription_String => "camera 1.0"
     end, TrackedProp_Success);
  VRTrackedCamera r := camera_interface r
|}.

(** The camera of the bench has 2 x 2 frames of 16 bytes and hands out the
    handle 1. *)
#[export] Instance bench_service : IVRTrackedCameraService Runtime := {|
  HasCamera c := (VRTrackedCameraError_None, true);
  GetCameraFrameSize w h c := (VRTrackedCameraError_None, 2, 2, 16);
  AcquireVideoStreamingService h c := (1%Z, c);
  ReleaseVideoStreamingService h c := c
|}.

Definition new_camera : Camera System Runtime :=
  constructed (mkSystem true (Some (mkRuntime rgba_frame 7)) false).

(** A camera on a runtime which has no tracked camera interface. *)
Definition new_camera_no_interface : Camera System Runtime :=
  constructed (mkSystem true None false).

(** The camera once opened. *)
Definition opened_camera : Camera System Runtime :=
  match open new_camera with Some (_, c, _) => c | None => new_camera end.

(** The camera opened on a runtime whose frame has the sequence number
    0. *)
Definition opened_on_frame_0 : Camera System Runtime :=
  match open (constructed (mkSystem true (Some (mkRuntime rgba_frame 0)) false)) with
  | Some (_, c, _) => c
  | None => new_camera
  end.

End DeviceBench.

(** ** More modules to run *)

Module MoreBench.
Import yarp openvr OpenVRTrackersModule Bench.

(** A configured module whose manager has lost its initialisation: its
    reset fails. *)
Definition unready : State Manager Driver Client Port :=
  set_manager (mkManager true None table) configured.

(** A module never configured whose only device is out of view. *)
Definition blind : State Manager Driver Client Port :=
  set_manager (mkManager true None [("LHR-0002", (Controller, None))]) fresh.

(** The configured module with its interface pointer null. *)
Definition lost_interface : State Manager Driver Client Port :=
  set_tf None configured.

(** A [name] option with a NUL in it: the characters a, b, NUL, c, d. *)
Definition name_with_nul : string :=
  String "a" (String "b" (String "000" (String "c" (String "d" EmptyString)))).

Definition nul_options : ResourceFinder :=
  {[ "name" := VString name_with_nul ]}.

Definition reset_update_reset : list Running.Call :=
  [Running.CallResetSeatedPosition; Running.CallUpdateModule;
   Running.CallResetSeatedPosition].

End MoreBench.

(** ** More cameras to run *)

Module LifeBench.
Import vr vrsystem OpenVRCamera OpenVRCameraDevice CameraBench DeviceBench.

Definition empty_image : Image := mkImage 0 0 [].

(** The camera of the bench once it has seen the frame 7 of its runtime. *)
Definition seen : Frame Runtime :=
  mkFrame (mkImpl (Some (mkRuntime rgba_frame 7)) 1 2 2 16 (replicate 16 "000"%byte) 7)
          empty_image 0.

(** A 2 x 2 camera whose frame buffer was allocated with 8 bytes, room for
    two pixels only. *)
Definition short_camera : Frame Runtime :=
  mkFrame (mkImpl (Some (mkRuntime rgba_frame 7)) 1 2 2 8 (replicate 8 "000"%byte) 0)
          empty_image 0.

(** The camera of the bench after its first [getImage]. *)
Definition copied_camera : Frame Runtime :=
  match getImage camera with Some (_, s, _) => s | None => camera end.

(** A camera on a runtime which does not start. *)
Definition no_runtime : Camera System Runtime :=
  constructed (mkSystem false None false).

(** What [open] logs on the new camera, and what it leaves and logs on the
    camera without interface. *)
Definition open_log : list Event :=
  match open new_camera with Some (_, _, e) => e | None => [] end.

Definition failed_open : Camera System Runtime :=
  match open new_camera_no_interface with
  | Some (_, c, _) => c
  | None => new_camera_no_interface
  end.

Definition failed_open_log : list Event :=
  match open new_camera_no_interface with Some (_, _, e) => e | None => [] end.

(** The opened camera once closed. *)
Definition closed_camera : Camera System Runtime :=
  match close opened_camera with Some (_, c, _) => c | None => opened_camera end.

(** The opened camera, never closed, on a runtime which has lost its
    tracked camera interface. *)
Definition stale : Camera System Runtime :=
  mkCamera (mkSystem true None true) true "LHR-0001" (impl opened_camera).

End LifeBench.

(** * Properties *)

Section TrackersFacts.
Import yarp openvr OpenVRTrackersModule Running.
Context {M D T P : Type}.
Context `{!DevicesManager M, !PolyDriver D T, !IFrameTransform T, !RpcServer P}.
Implicit Types s : State M D T P.

Lemma homogeneous_TransformOf (p : Pose) : TransformOf p (homogeneous p).
Proof.
  destruct p as [t R]. inv_vec t; intros t0 t1 t2.
  inv_vec R; intros r0 r1 r2 r3 r4 r5 r6 r7 r8.
  unfold TransformOf, homogeneous; cbn.
  repeat split; try reflexivity.
  - intros i j Hi Hj.
    destruct i as [|[|[|i]]]; [ | | | lia];
      (destruct j as [|[|[|j]]]; [ | | | lia]); eexists; split; reflexivity.
  - intros i Hi.
    destruct i as [|[|[|i]]]; [ | | | lia]; eexists; split; reflexivity.
Qed.

Lemma Configured_buffer s :
  Configured s ->
  exists l, m_sendBuffer s = mkMatrix 4 4 l /\ length l = 16.
Proof.
  intros (Hr & Hc & Hl & _). destruct (m_sendBuffer s) as [r c l]; simpl in *.
  subst. eauto.
Qed.

Lemma eye_4x4 (l : list float) :
  eye (mkMatrix 4 4 l) =
  mkMatrix 4 4 [1;0;0;0; 0;1;0;0; 0;0;1;0; 0;0;0;1]%float.
Proof. reflexivity. Qed.

Lemma fill_sendBuffer_Configured (p : Pose) s :
  Configured s ->
  fill_sendBuffer p s = Some (tt, set_sendBuffer (homogeneous p) s, []).
Proof.
  intros Hs. destruct (Configured_buffer s Hs) as (l & Hb & Hl).
  destruct s as [nm per bf sb mg dr tf rp]; simpl in Hb; subst sb.
  unfold fill_sendBuffer, op_bind, modify, sendBuffer_set, set_sendBuffer.
  cbn [m_sendBuffer m_name m_period m_baseFrame m_manager m_driver m_tf m_rpcPort].
  rewrite (eye_4x4 l). vm_compute. reflexivity.
Qed.

Lemma update_device_Configured (sn : string) s :
  Configured s ->
  exists s' evs,
    update_device sn s = Some (tt, s', evs) /\ Configured s' /\
    same_settings s s' /\ m_manager s' = m_manager s /\
    match pose (m_manager s) sn with
    | Some _ => exists e, evs = [e] /\ publication (m_manager s) (m_baseFrame s) sn e
    | None => evs = [] /\ s' = s
    end.
Proof.
  intros Hs. unfold update_device, op_bind at 1, gets at 1.
  destruct (pose (m_manager s) sn) as [p|] eqn:Hp.
  - unfold op_bind at 1, gets at 1. unfold op_bind at 1.
    rewrite (fill_sendBuffer_Configured p s Hs).
    destruct Hs as (Hr & Hc & Hl & [tf Htf]).
    unfold op_bind, tf_setTransform, op_ret.
    cbn [set_sendBuffer m_tf m_baseFrame m_sendBuffer]. rewrite Htf.
    destruct (setTransform _ _ _ tf) as [ok tf'] eqn:Hset.
    eexists _, _. split; [reflexivity|].
    split; [|split; [|split]].
    + repeat split; simpl; eauto.
    + repeat split.
    + reflexivity.
    + eexists. split; [reflexivity|]. exists p, ok. split; [exact Hp|reflexivity].
  - eexists _, _. split; [reflexivity|].
    split; [exact Hs|]. split; [repeat split|]. split; [reflexivity|]. split; reflexivity.
Qed.

Lemma for_each_update_device (devs : list string) s :
  Configured s ->
  exists s' evs,
    for_each devs update_device s = Some (tt, s', evs) /\ Configured s' /\
    same_settings s s' /\ m_manager s' = m_manager s /\
    Forall2 (publication (m_manager s) (m_baseFrame s))
            (tracked (m_manager s) devs) evs.
Proof.
  revert s. induction devs as [|sn devs IH]; intros s Hs.
  - exists s, []. split; [reflexivity|]. split; [exact Hs|].
    split; [repeat split|]. split; [reflexivity|]. constructor.
  - destruct (update_device_Configured sn s Hs)
      as (s1 & e1 & Hrun & Hs1 & Hset1 & Hm1 & Hev).
    destruct (IH s1 Hs1) as (s2 & e2 & Hrun2 & Hs2 & Hset2 & Hm2 & Hall).
    exists s2, (e1 ++ e2). cbn [for_each]. unfold op_bind.
    rewrite Hrun, Hrun2. split; [reflexivity|]. split; [exact Hs2|].
    destruct Hset1 as (? & ? & Hb1 & ? & ?), Hset2 as (? & ? & ? & ? & ?).
    split; [repeat split; congruence|]. split; [congruence|].
    rewrite Hm1, Hb1 in Hall. unfold tracked in *. rewrite filter_cons.
    destruct (pose (m_manager s) sn) as [p|] eqn:Hp.
    + destruct Hev as (e & -> & He).
      rewrite decide_True by eauto. constructor; assumption.
    + destruct Hev as (-> & _).
      rewrite decide_False by (intros [? ?]; discriminate). exact Hall.
Qed.

Lemma updateModule_Configured s :
  Configured s ->
  exists s' evs,
    updateModule s = Some (true, s', EvComputePoses :: evs) /\ Configured s' /\
    same_settings s s' /\ m_manager s' = computePoses (m_manager s) /\
    Forall2 (publication (computePoses (m_manager s)) (m_baseFrame s))
            (tracked (computePoses (m_manager s))
                     (managedDevices (computePoses (m_manager s)))) evs.
Proof.
  intros Hs.
  set (s0 := set_manager (computePoses (m_manager s)) s).
  assert (Hs0 : Configured s0) by exact Hs.
  destruct (for_each_update_device (managedDevices (m_manager s0)) s0 Hs0)
    as (s' & evs & Hrun & Hs' & Hset & Hm & Hall).
  exists s', evs. unfold updateModule, op_bind, manager_computePoses, gets, op_ret.
  fold s0. rewrite Hrun. rewrite app_nil_r. split; [reflexivity|].
  split; [exact Hs'|]. split; [exact Hset|]. split; [exact Hm|]. exact Hall.
Qed.


Lemma op_bind_Some {S A B} (c : Op S A) (k : A -> Op S B) (s s1 : S) a e1 :
  c s = Some (a, s1, e1) -> op_bind c k s = with_events e1 (k a s1).
Proof. intros Hc. unfold op_bind, with_events. rewrite Hc. reflexivity. Qed.

Lemma with_events_app {S A} e1 e2 (r : option (A * S * list Event)) :
  with_events e1 (with_events e2 r) = with_events (e1 ++ e2) r.
Proof. destruct r as [[[a s] e]|]; simpl; [rewrite app_assoc|]; reflexivity. Qed.

Ltac option_cases rf key :=
  let v := fresh "v" in
  let E := fresh "E" in
  destruct (rf !! key) as [v|] eqn:E; [destruct v|].

Lemma find_name_spec rf s :
  exists l, find_name rf s = Some (name_option rf, s, l) /\ quiet l.
Proof.
  unfold find_name, name_option, check, find.
  option_cases rf "name"; eexists; (split; [reflexivity|repeat split]).
Qed.

Lemma find_period_spec rf s :
  exists l, find_period rf s = Some (tt, set_period (configured_period rf) s, l) /\ quiet l.
Proof.
  unfold find_period, configured_period, check, find.
  option_cases rf "period"; eexists; (split; [reflexivity|repeat split]).
Qed.

Lemma find_tfBaseFrameName_spec rf s :
  exists l, find_tfBaseFrameName rf s
            = Some (tt, set_baseFrame (configured_baseFrame rf) s, l) /\ quiet l.
Proof.
  unfold find_tfBaseFrameName, configured_baseFrame, check, find.
  option_cases rf "tfBaseFrameName"; eexists; (split; [reflexivity|repeat split]).
Qed.

Lemma find_tfLocal_spec rf s :
  exists v l, find_tfLocal rf s = Some (v, s, l) /\ quiet l.
Proof.
  unfold find_tfLocal, check, find.
  option_cases rf "tfLocal"; eexists _, _; (split; [reflexivity|repeat split]).
Qed.

Lemma find_tfRemote_spec rf s :
  exists v l, find_tfRemote rf s = Some (v, s, l) /\ quiet l.
Proof.
  unfold find_tfRemote, check, find.
  option_cases rf "tfRemote"; eexists _, _; (split; [reflexivity|repeat split]).
Qed.

Lemma tolower_lowercase_letter (c : ascii) : tolower c = lowercase_letter c.
Proof.
  destruct c as [[] [] [] [] [] [] [] []]; vm_compute; reflexivity.
Qed.

(** The code's lowering of a string is lower case as the option's
    description means it. *)
Lemma transform_tolower_in_lower_case (v : string) :
  transform_tolower v = in_lower_case v.
Proof.
  induction v as [|c v IH]; [reflexivity|].
  cbn [transform_tolower in_lower_case].
  rewrite tolower_lowercase_letter, IH. reflexivity.
Qed.

Lemma find_vrOrigin_spec rf s :
  exists l, find_vrOrigin rf s = Some (configured_origin rf, s, l) /\
            call_results l = [] /\ origins l = [] /\
            existsb is_warning l = unrecognized_origin rf.
Proof.
  unfold find_vrOrigin, configured_origin, unrecognized_origin, check, find.
  option_cases rf "vrOrigin";
    try (eexists; (split; [reflexivity|repeat split])).
  cbn [default from_option id isString asString is_Some_dec bool_decide
       decide_rel andb negb].
  unfold origin_named. rewrite <- transform_tolower_in_lower_case.
  destruct (String.eqb_spec (transform_tolower s0) "seated") as [->|H1].
  { eexists; split; [reflexivity|repeat split]. }
  rewrite (decide_False (P := _ = "seated")) by assumption.
  destruct (String.eqb_spec (transform_tolower s0) "standing") as [->|H2].
  { eexists; split; [reflexivity|repeat split]. }
  rewrite (decide_False (P := _ = "standing")) by assumption.
  destruct (String.eqb_spec (transform_tolower s0) "raw") as [->|H3].
  { eexists; split; [reflexivity|repeat split]. }
  rewrite !decide_False by assumption.
  eexists; split; [reflexivity|repeat split].
Qed.


Lemma call_results_app l1 l2 :
  call_results (l1 ++ l2) = call_results l1 ++ call_results l2.
Proof. apply omap_app. Qed.

Lemma origins_app l1 l2 : origins (l1 ++ l2) = origins l1 ++ origins l2.
Proof. apply omap_app. Qed.

Lemma resize_eye_4x4 (m : Matrix) :
  exists l, eye (resize 4 4 m) = mkMatrix 4 4 l /\ length l = 16.
Proof.
  unfold resize.
  destruct (bool_decide (4 = nrows m)) eqn:Hr;
    [destruct (bool_decide (4 = ncols m)) eqn:Hc|]; cbn [andb].
  - apply bool_decide_eq_true in Hr, Hc. destruct m as [r c l]; simpl in *; subst.
    eexists; split; [apply eye_4x4|reflexivity].
  - eexists; split; [apply eye_4x4|reflexivity].
  - eexists; split; [apply eye_4x4|reflexivity].
Qed.

Lemma configure_outcome rf s :
  exists r s' evs,
    configure rf s = Some (r, s', evs) /\
    m_name s' = configured_name rf /\
    m_period s' = configured_period rf /\
    m_baseFrame s' = configured_baseFrame rf /\
    existsb is_warning evs = unrecognized_origin rf /\
    configure_ends (configured_origin rf) r (call_results evs) (origins evs) /\
    (r = true -> Configured s').
Proof.
  unfold configure.
  destruct (find_name_spec rf s) as (l1 & H1 & Q1).
  rewrite (op_bind_Some _ _ _ _ _ _ H1).
  rewrite (op_bind_Some (modify _) _ _ _ _ _ eq_refl).
  destruct (find_period_spec rf (set_name (configured_name rf) s)) as (l2 & H2 & Q2).
  rewrite (op_bind_Some _ _ _ _ _ _ H2).
  destruct (find_tfBaseFrameName_spec rf
              (set_period (configured_period rf) (set_name (configured_name rf) s)))
    as (l3 & H3 & Q3).
  rewrite (op_bind_Some _ _ _ _ _ _ H3).
  set (s0 := set_baseFrame _ _).
  destruct (find_tfLocal_spec rf s0) as (tfLocal & l4 & H4 & Q4).
  rewrite (op_bind_Some _ _ _ _ _ _ H4).
  destruct (find_tfRemote_spec rf s0) as (tfRemote & l5 & H5 & Q5).
  rewrite (op_bind_Some _ _ _ _ _ _ H5).
  destruct (find_vrOrigin_spec rf s0) as (l6 & H6 & Q6c & Q6o & Q6w).
  rewrite (op_bind_Some _ _ _ _ _ _ H6).
  rewrite !with_events_app.
  match goal with |- context [with_events ?l _] => set (logs := l) end.
  assert (Qc : call_results logs = []).
  { subst logs. rewrite !call_results_app.
    destruct Q1 as (-> & _), Q2 as (-> & _), Q3 as (-> & _), Q4 as (-> & _),
             Q5 as (-> & _). rewrite Q6c. reflexivity. }
  assert (Qo : origins logs = []).
  { subst logs. rewrite !origins_app.
    destruct Q1 as (_ & -> & _), Q2 as (_ & -> & _), Q3 as (_ & -> & _),
             Q4 as (_ & -> & _), Q5 as (_ & -> & _).
    rewrite Q6o. reflexivity. }
  assert (Qw : existsb is_warning logs = unrecognized_origin rf).
  { subst logs. rewrite !existsb_app.
    destruct Q1 as (_ & _ & ->), Q2 as (_ & _ & ->), Q3 as (_ & _ & ->),
             Q4 as (_ & _ & ->), Q5 as (_ & _ & ->). rewrite Q6w. reflexivity. }
  clearbody logs. clear H1 H2 H3 H4 H5 H6 Q1 Q2 Q3 Q4 Q5 Q6c Q6o Q6w.
  set (cfg := put "remote" _ _).
  assert (Hfin : forall r s' tail,
             m_name s' = configured_name rf ->
             m_period s' = configured_period rf ->
             m_baseFrame s' = configured_baseFrame rf ->
             existsb is_warning tail = false ->
             configure_ends (configured_origin rf) r (call_results tail) (origins tail) ->
             (r = true -> Configured s') ->
             exists r0 s0' evs,
               with_events logs (Some (r, s', tail)) = Some (r0, s0', evs) /\
               m_name s0' = configured_name rf /\
               m_period s0' = configured_period rf /\
               m_baseFrame s0' = configured_baseFrame rf /\
               existsb is_warning evs = unrecognized_origin rf /\
               configure_ends (configured_origin rf) r0 (call_results evs) (origins evs) /\
               (r0 = true -> Configured s0')).
  { intros r s' tail Hn Hp Hb Hw He Hc. exists r, s', (logs ++ tail).
    split; [reflexivity|]. repeat (split; [assumption|]).
    rewrite existsb_app, call_results_app, origins_app, Qc, Qo, Qw, Hw, orb_false_r.
    split; [reflexivity|]. split; assumption. }
  unfold op_bind at 1, driver_open.
  destruct (drv_open cfg (m_driver s0)) as [[|] d] eqn:Hopen; cbn [negb];
    [|apply Hfin; try reflexivity; [left; repeat split|discriminate]].
  unfold op_bind at 1, driver_view.
  set (s1 := set_driver d s0).
  destruct (drv_view (m_driver s1)) as [tf|] eqn:Hview;
    cbn [bool_decide decide_rel is_Some_dec negb];
    [|apply Hfin; try reflexivity; [right; left; repeat split|discriminate]].
  unfold op_bind at 1, modify at 1. unfold op_bind at 1, modify at 1.
  set (s2 := set_sendBuffer (eye _) _).
  unfold op_bind at 1, manager_initialize.
  destruct (initialize (configured_origin rf) (m_manager s2)) as [[|] m1] eqn:Hinit;
    cbn [negb];
    [|apply Hfin; try reflexivity; [right; right; left; repeat split|discriminate]].
  unfold op_bind at 1, manager_resetSeatedPosition.
  set (s3 := set_manager m1 s2).
  destruct (openvr.resetSeatedPosition (m_manager s3)) as [[|] m2] eqn:Hreset;
    cbn [negb];
    [|apply Hfin; try reflexivity;
      [right; right; right; left; repeat split|discriminate]].
  unfold op_bind at 1, rpcPort_attach, modify.
  unfold op_bind at 1, rpcPort_open.
  set (s4 := set_rpcPort _ _).
  destruct (port_open _ (m_rpcPort s4)) as [[|] p1] eqn:Hport; cbn [negb];
    [|apply Hfin; try reflexivity;
      [right; right; right; right; left; repeat split|discriminate]].
  apply Hfin; try reflexivity.
  - right; right; right; right; right; repeat split.
  - intros _. unfold Configured. cbn.
    destruct (resize_eye_4x4 (m_sendBuffer s)) as (l & -> & Hl). cbn.
    repeat split; eauto.
Qed.


Lemma resetSeatedPosition_spec s :
  exists evs,
    OpenVRTrackersModule.resetSeatedPosition s
    = Some (fst (openvr.resetSeatedPosition (m_manager s)),
            set_manager (snd (openvr.resetSeatedPosition (m_manager s))) s, evs) /\
    call_results evs = [fst (openvr.resetSeatedPosition (m_manager s))].
Proof.
  unfold OpenVRTrackersModule.resetSeatedPosition, op_bind, manager_resetSeatedPosition.
  destruct (openvr.resetSeatedPosition (m_manager s)) as [[|] m]; cbn;
    eexists; split; reflexivity.
Qed.

Lemma call_Configured (c : Call) s :
  Configured s ->
  exists r s' evs,
    call c s = Some (r, s', evs) /\ Configured s' /\ same_settings s s' /\
    (c = CallGetPeriod -> r = RDouble (m_period s)).
Proof.
  intros Hs. destruct c; unfold call.
  - exists (RDouble (m_period s)), s, []. split; [reflexivity|].
    split; [exact Hs|]. split; [repeat split|]. reflexivity.
  - destruct (updateModule_Configured s Hs) as (s' & evs & Hrun & Hs' & Hset & _).
    rewrite (op_bind_Some _ _ _ _ _ _ Hrun). cbn.
    eexists _, _, _. split; [reflexivity|]. split; [exact Hs'|].
    split; [exact Hset|]. discriminate.
  - destruct (resetSeatedPosition_spec s) as (evs & Hrun & _).
    rewrite (op_bind_Some _ _ _ _ _ _ Hrun). cbn.
    eexists _, _, _. split; [reflexivity|]. split; [exact Hs|].
    split; [repeat split|]. discriminate.
Qed.

Lemma calls_Configured (cs : list Call) s :
  Configured s ->
  exists rs s' evs,
    calls cs s = Some (rs, s', evs) /\ Configured s' /\ same_settings s s' /\
    forall i, cs !! i = Some CallGetPeriod -> rs !! i = Some (RDouble (m_period s)).
Proof.
  revert s. induction cs as [|c cs IH]; intros s Hs.
  - exists [], s, []. split; [reflexivity|]. split; [exact Hs|].
    split; [repeat split|]. intros i Hi. rewrite lookup_nil in Hi. discriminate.
  - destruct (call_Configured c s Hs) as (r & s1 & e1 & Hc & Hs1 & Hset1 & Hr).
    destruct (IH s1 Hs1) as (rs & s2 & e2 & Hcs & Hs2 & Hset2 & Hrs).
    cbn [calls]. rewrite (op_bind_Some _ _ _ _ _ _ Hc).
    rewrite (op_bind_Some _ _ _ _ _ _ Hcs). cbn.
    eexists _, _, _. split; [reflexivity|]. split; [exact Hs2|].
    destruct Hset1 as (? & Hp1 & ? & ? & ?), Hset2 as (? & ? & ? & ? & ?).
    split; [repeat split; congruence|].
    intros [|i] Hi; cbn in *.
    + inversion Hi; subst. rewrite Hr by reflexivity. reflexivity.
    + rewrite <- Hp1. exact (Hrs i Hi).
Qed.

Lemma configure_success rf s s' evs :
  configure rf s = Some (true, s', evs) ->
  Configured s' /\ m_period s' = configured_period rf /\
  m_baseFrame s' = configured_baseFrame rf.
Proof.
  intros Hc.
  destruct (configure_outcome rf s) as (r & s1 & e1 & Hrun & _ & Hp & Hb & _ & _ & Hconf).
  rewrite Hc in Hrun. inversion Hrun; subst. auto.
Qed.

Lemma publication_elem mgr base devs evs e :
  Forall2 (publication mgr base) (tracked mgr devs) evs ->
  e ∈ evs ->
  exists sn, sn ∈ devs /\ publication mgr base sn e.
Proof.
  intros Hall He. apply list_elem_of_lookup in He as [i Hi].
  destruct (Forall2_lookup_r _ _ _ _ _ Hall Hi) as (sn & Hsn & Hpub).
  exists sn. split; [|exact Hpub].
  apply list_elem_of_lookup_2 in Hsn. unfold tracked in Hsn.
  apply list_elem_of_filter in Hsn. tauto.
Qed.

Lemma publication_devices mgr base devs evs :
  Forall2 (publication mgr base) (tracked mgr devs) evs ->
  omap published_device evs = tracked mgr devs.
Proof.
  induction 1 as [|sn e l k (p & ok & _ & ->) _ IH]; [reflexivity|].
  cbn. rewrite IH. reflexivity.
Qed.

End TrackersFacts.

(** ** The claims about the trackers module *)

Section TrackersClaims.
Import yarp openvr OpenVRTrackersModule Running.
Context {M D T P : Type}.
Context `{!DevicesManager M, !PolyDriver D T, !IFrameTransform T, !RpcServer P}.
Implicit Types s : State M D T P.

(** C1. In every update cycle of a configured module (whatever was invoked
    since [configure] succeeded), the cycle is defined and returns; each
    managed device whose pose is present gets a publish call, and the
    matrix of every publish call is the transform of the pose of its
    device: 4x4, the row-major rotation in the top-left 3x3 block, the
    translation in the top-right column, the bottom row [0 0 0 1]. *)
Theorem published_matrix_is_pose_transform
    (rf : ResourceFinder) (s0 s1 s : State M D T P) (e1 e2 : list Event)
    (cs : list Call) (rs : list Result) :
  configure rf s0 = Some (true, s1, e1) ->
  calls cs s1 = Some (rs, s, e2) ->
  exists s' evs,
    updateModule s = Some (true, s', evs) /\
    (forall sn p,
        sn ∈ managedDevices (computePoses (m_manager s)) ->
        pose (computePoses (m_manager s)) sn = Some p ->
        exists child parent m ok,
          EvSetTransform sn child parent m ok ∈ evs /\ TransformOf p m) /\
    (forall sn child parent m ok,
        EvSetTransform sn child parent m ok ∈ evs ->
        exists p, pose (computePoses (m_manager s)) sn = Some p /\ TransformOf p m).
Proof.
  intros Hconf Hcalls.
  destruct (configure_success _ _ _ _ Hconf) as (Hs1 & _).
  destruct (calls_Configured cs s1 Hs1) as (rs' & s2 & e2' & Hrun & Hs & _).
  rewrite Hcalls in Hrun. inversion Hrun; subst rs' s2 e2'. clear Hrun.
  destruct (updateModule_Configured s Hs) as (s' & evs & Hupd & _ & _ & _ & Hall).
  exists s', (EvComputePoses :: evs). split; [exact Hupd|]. split.
  - intros sn p Hin Hp.
    assert (Htr : sn ∈ tracked (computePoses (m_manager s))
                               (managedDevices (computePoses (m_manager s)))).
    { unfold tracked. apply list_elem_of_filter. split; [eauto|exact Hin]. }
    apply list_elem_of_lookup in Htr as [i Hi].
    destruct (Forall2_lookup_l _ _ _ _ _ Hall Hi) as (e & He & (p' & ok & Hp' & ->)).
    rewrite Hp in Hp'. inversion Hp'; subst p'.
    eexists _, _, _, ok. split.
    + apply list_elem_of_further. eapply list_elem_of_lookup_2. exact He.
    + apply homogeneous_TransformOf.
  - intros sn child parent m ok Hin.
    apply elem_of_cons in Hin as [Hin|Hin]; [discriminate|].
    destruct (publication_elem _ _ _ _ _ Hall Hin) as (sn' & _ & (p & ok' & Hp & Heq)).
    inversion Heq; subst. exists p. split; [exact Hp|apply homogeneous_TransformOf].
Qed.

(** C2, at the input where the code departs from it.  A publish call of a
    cycle names its child frame by the type of the device: "/hmd/",
    "/controllers/" or "/trackers/" in front of the identifier for the
    three types the switch names; for any other type the child frame is
    the identifier alone, which is not "/" followed by the identifier. *)
Theorem unrecognized_type_publishes_bare_id s :
  Configured s ->
  exists s' evs,
    updateModule s = Some (true, s', evs) /\
    forall sn child parent m ok,
      EvSetTransform sn child parent m ok ∈ evs ->
      match type (computePoses (m_manager s)) sn with
      | HMD => child = "/hmd/" +:+ sn
      | Controller => child = "/controllers/" +:+ sn
      | GenericTracker => child = "/trackers/" +:+ sn
      | Other => child = sn /\ child <> "/" +:+ sn
      end.
Proof.
  intros Hs.
  destruct (updateModule_Configured s Hs) as (s' & evs & Hupd & _ & _ & _ & Hall).
  exists s', (EvComputePoses :: evs). split; [exact Hupd|].
  intros sn child parent m ok Hin.
  apply elem_of_cons in Hin as [Hin|Hin]; [discriminate|].
  destruct (publication_elem _ _ _ _ _ Hall Hin) as (sn' & _ & (p & ok' & Hp & Heq)).
  inversion Heq; subst.
  destruct (type (computePoses (m_manager s)) sn'); try reflexivity.
  split; [reflexivity|].
  intros Habs. apply (f_equal String.length) in Habs.
  lazy beta iota delta [String.append tfNamePrefix] in Habs.
  cbn [String.length] in Habs. lia.
Qed.

(** C3. In a cycle of a configured module, a managed device whose pose is
    absent gets no publish call; the cycle is defined, returns [true] and
    logs nothing, and it reaches every other device: the devices published,
    in order, are exactly the managed devices which have a pose. *)
Theorem absent_pose_is_skipped s :
  Configured s ->
  exists s' evs,
    updateModule s = Some (true, s', evs) /\
    (forall sn,
        sn ∈ managedDevices (computePoses (m_manager s)) ->
        pose (computePoses (m_manager s)) sn = None ->
        sn ∉ omap published_device evs) /\
    omap published_device evs
    = tracked (computePoses (m_manager s))
              (managedDevices (computePoses (m_manager s))) /\
    (forall lvl line, EvLog lvl line ∉ evs).
Proof.
  intros Hs.
  destruct (updateModule_Configured s Hs) as (s' & evs & Hupd & _ & _ & _ & Hall).
  exists s', (EvComputePoses :: evs). split; [exact Hupd|].
  pose proof (publication_devices _ _ _ _ Hall) as Hdev.
  split; [|split].
  - intros sn _ Hnone. cbn. rewrite Hdev. unfold tracked.
    rewrite list_elem_of_filter, Hnone. intros [[? ?] _]. discriminate.
  - cbn. exact Hdev.
  - intros lvl line Hin.
    apply elem_of_cons in Hin as [Hin|Hin]; [discriminate|].
    destruct (publication_elem _ _ _ _ _ Hall Hin) as (sn & _ & (p & ok & _ & Heq)).
    discriminate.
Qed.


(** C5. Whatever the transform client holds and answers, a cycle of a
    configured module is defined and returns [true], and it makes the
    publish call of every managed device which has a pose, in order: no
    answer to one call keeps a later call from being made. *)
Theorem publish_failure_is_not_fatal s (tf : T) :
  Configured s ->
  exists s' evs,
    updateModule (set_tf (Some tf) s) = Some (true, s', evs) /\
    omap published_device evs
    = tracked (computePoses (m_manager s))
              (managedDevices (computePoses (m_manager s))) /\
    forall before sn child parent m after,
      evs = before ++ EvSetTransform sn child parent m false :: after ->
      omap published_device after
      = drop (S (length (omap published_device before)))
             (tracked (computePoses (m_manager s))
                      (managedDevices (computePoses (m_manager s)))).
Proof.
  intros Hs.
  assert (Hs' : Configured (set_tf (Some tf) s)).
  { destruct Hs as (? & ? & ? & _). repeat split; eauto. }
  destruct (updateModule_Configured _ Hs') as (s' & evs & Hupd & _ & _ & _ & Hall).
  cbn [set_tf m_manager m_baseFrame] in Hall.
  exists s', (EvComputePoses :: evs). split; [exact Hupd|].
  pose proof (publication_devices _ _ _ _ Hall) as Hdev.
  split; [exact Hdev|].
  intros before sn child parent m after Heq.
  assert (Hd : omap published_device (EvComputePoses :: evs)
               = omap published_device before ++ sn :: omap published_device after).
  { rewrite Heq, omap_app. reflexivity. }
  cbn in Hd. rewrite <- Hdev, Hd.
  rewrite drop_app_ge by lia.
  replace (S _ - _) with 1 by lia. reflexivity.
Qed.

(** C6. Let [P > 0] be the configured period: the value of the [period]
    option when it is there and a float, 0.010 otherwise.  After a
    [configure] which succeeded, every [getPeriod] among the invocations
    which follow returns exactly [P], and so does one more [getPeriod]
    after them, also once the module is closed. *)
Theorem getPeriod_returns_configured_period
    (rf : ResourceFinder) (s0 s1 s2 : State M D T P) (e1 e2 : list Event)
    (cs : list Call) (rs : list Result) (period : float) :
  period = configured_period rf ->
  (0 <? period)%float = true ->
  configure rf s0 = Some (true, s1, e1) ->
  calls cs s1 = Some (rs, s2, e2) ->
  (forall i, cs !! i = Some CallGetPeriod -> rs !! i = Some (RDouble period)) /\
  getPeriod s2 = Some (period, s2, []) /\
  (forall b s3 e3, close s2 = Some (b, s3, e3) ->
                   getPeriod s3 = Some (period, s3, [])).
Proof.
  intros -> _ Hconf Hcalls.
  destruct (configure_success _ _ _ _ Hconf) as (Hs1 & Hp & _).
  destruct (calls_Configured cs s1 Hs1)
    as (rs' & s2' & e2' & Hrun & _ & (_ & Hp2 & _) & Hget).
  rewrite Hcalls in Hrun. inversion Hrun; subst rs' s2' e2'. clear Hrun.
  rewrite <- Hp. split; [exact Hget|].
  unfold getPeriod, gets. rewrite <- Hp2. split; [reflexivity|].
  intros b s3 e3 Hclose. unfold close, op_bind, modify, op_ret in Hclose.
  inversion Hclose; subst. reflexivity.
Qed.

(** C7. A [vrOrigin] option holding the string [v] is read without regard
    to case: when [v], each capital letter replaced by its small letter, is
    "seated", "standing" or "raw" the origin selected is Seated, Standing or
    Raw and no warning is logged, and for every other string it is Seated
    and a warning is logged.  The manager is initialised with the origin
    selected, and with no other, as soon as the transform client has been
    opened and viewed; [configure] returns failure only when a call on a
    collaborator has failed, and success when all five succeeded. *)
Theorem vrOrigin_is_case_insensitive (rf : ResourceFinder) (v : string) s :
  rf !! "vrOrigin" = Some (VString v) ->
  exists o r s' evs,
    configure rf s = Some (r, s', evs) /\
    (in_lower_case v = "seated" -> o = Seated) /\
    (in_lower_case v = "standing" -> o = Standing) /\
    (in_lower_case v = "raw" -> o = Raw) /\
    (in_lower_case v = "seated" \/ in_lower_case v = "standing" \/
     in_lower_case v = "raw" -> existsb is_warning evs = false) /\
    (in_lower_case v <> "seated" -> in_lower_case v <> "standing" ->
     in_lower_case v <> "raw" ->
     o = Seated /\ existsb is_warning evs = true) /\
    (forall o' ok, EvInitialize o' ok ∈ evs -> o' = o) /\
    (forall before, call_results evs = true :: true :: before ->
                    exists ok, EvInitialize o ok ∈ evs) /\
    (r = false -> false ∈ call_results evs) /\
    (call_results evs = [true; true; true; true; true] -> r = true).
Proof.
  intros Hv.
  destruct (configure_outcome rf s)
    as (r & s' & evs & Hrun & _ & _ & _ & Hw & Hends & _).
  exists (configured_origin rf), r, s', evs. split; [exact Hrun|].
  unfold configured_origin, unrecognized_origin in *. rewrite Hv in *.
  unfold origin_named in *.
  split; [intros ->; reflexivity|].
  split; [intros ->; reflexivity|].
  split; [intros ->; reflexivity|].
  split.
  { intros [Hv'|[Hv'|Hv']]; rewrite Hv' in Hw; exact Hw. }
  split.
  { intros H1 H2 H3. rewrite !decide_False in * by assumption.
    split; [reflexivity|exact Hw]. }
  set (o := default Seated _) in *. clearbody o.
  assert (Hor : forall o' ok, EvInitialize o' ok ∈ evs -> o' ∈ origins evs).
  { intros o' ok Hin. unfold origins. apply list_elem_of_omap.
    eexists. split; [exact Hin|reflexivity]. }
  assert (Hro : o ∈ origins evs -> exists ok, EvInitialize o ok ∈ evs).
  { intros Hin. unfold origins in Hin. apply list_elem_of_omap in Hin.
    destruct Hin as ([] & Hin & Heq); try discriminate.
    inversion Heq; subst. eauto. }
  split; [|split; [|split]].
  - intros o' ok Hin. apply Hor in Hin.
    destruct Hends as [(_ & _ & Ho)|[(_ & _ & Ho)|[(_ & _ & Ho)|
                      [(_ & _ & Ho)|[(_ & _ & Ho)|(_ & _ & Ho)]]]]];
      rewrite Ho in Hin; try (inversion Hin; fail);
      apply list_elem_of_singleton in Hin; exact Hin.
  - intros before Hc. apply Hro.
    destruct Hends as [(_ & Hc' & Ho)|[(_ & Hc' & Ho)|[(_ & Hc' & Ho)|
                      [(_ & Hc' & Ho)|[(_ & Hc' & Ho)|(_ & Hc' & Ho)]]]]];
      rewrite Hc' in Hc; try discriminate; rewrite Ho; apply list_elem_of_here.
  - intros ->.
    destruct Hends as [(_ & -> & _)|[(_ & -> & _)|[(_ & -> & _)|
                      [(_ & -> & _)|[(_ & -> & _)|(Hr & _)]]]]];
      try discriminate; rewrite !elem_of_cons; tauto.
  - intros Hc.
    destruct Hends as [(_ & Hc' & _)|[(_ & Hc' & _)|[(_ & Hc' & _)|
                      [(_ & Hc' & _)|[(_ & Hc' & _)|(Hr & _)]]]]];
      try (rewrite Hc' in Hc; discriminate). exact Hr.
Qed.

(** C8. The module's [resetSeatedPosition] always returns, and returns
    what the manager's reset returned: failure when it failed, success when
    it succeeded.  It writes to no field of the module but the manager
    itself: name, period, base frame, send-buffer, driver, interface
    handle and RPC port are as before; a configured module is still
    configured afterwards. *)
Theorem resetSeatedPosition_reports_manager_result s :
  exists s' evs,
    OpenVRTrackersModule.resetSeatedPosition s
    = Some (fst (openvr.resetSeatedPosition (m_manager s)), s', evs) /\
    m_name s' = m_name s /\ m_period s' = m_period s /\
    m_baseFrame s' = m_baseFrame s /\ m_sendBuffer s' = m_sendBuffer s /\
    m_driver s' = m_driver s /\ m_tf s' = m_tf s /\ m_rpcPort s' = m_rpcPort s /\
    m_manager s' = snd (openvr.resetSeatedPosition (m_manager s)) /\
    (Configured s -> Configured s').
Proof.
  destruct (resetSeatedPosition_spec s) as (evs & Hrun & _).
  eexists _, evs. split; [exact Hrun|].
  do 8 (split; [reflexivity|]). intros Hs. exact Hs.
Qed.

End TrackersClaims.

(** ** The trackers module on the bench *)

Section TrackersBench.
Import yarp openvr OpenVRTrackersModule Running Bench.

Lemma published_matrix_is_pose_transform_witness :
  configure options fresh
  = Some (true, configured, events_of (configure options fresh)) /\
  calls some_calls configured
  = Some ([RBool true; RDouble 0.5; RBool true; RDouble 0.5], running,
          events_of (calls some_calls configured)) /\
  exists s' evs,
    updateModule running = Some (true, s', evs) /\
    (forall sn p,
        sn ∈ managedDevices (computePoses (m_manager running)) ->
        pose (computePoses (m_manager running)) sn = Some p ->
        exists child parent m ok,
          EvSetTransform sn child parent m ok ∈ evs /\ TransformOf p m) /\
    (forall sn child parent m ok,
        EvSetTransform sn child parent m ok ∈ evs ->
        exists p, pose (computePoses (m_manager running)) sn = Some p /\
                  TransformOf p m).
Proof.
  split; [vm_compute; reflexivity|]. split; [vm_compute; reflexivity|].
  apply (published_matrix_is_pose_transform options fresh configured running
           (events_of (configure options fresh))
           (events_of (calls some_calls configured)) some_calls
           [RBool true; RDouble 0.5; RBool true; RDouble 0.5]);
    vm_compute; reflexivity.
Defined.

Lemma unrecognized_type_publishes_bare_id_witness :
  Configured configured /\
  exists s' evs,
    updateModule configured = Some (true, s', evs) /\
    forall sn child parent m ok,
      EvSetTransform sn child parent m ok ∈ evs ->
      match type (computePoses (m_manager configured)) sn with
      | HMD => child = "/hmd/" +:+ sn
      | Controller => child = "/controllers/" +:+ sn
      | GenericTracker => child = "/trackers/" +:+ sn
      | Other => child = sn /\ child <> "/" +:+ sn
      end.
Proof.
  split; [repeat split; eexists; reflexivity|].
  apply (unrecognized_type_publishes_bare_id configured).
  repeat split. eexists. reflexivity.
Defined.

(** The base station of the bench, a device of a type the switch does not
    name, is published under its bare serial number. *)
Example base_station_frame :
  exists s' evs ok,
    updateModule configured = Some (true, s', evs) /\
    type (computePoses (m_manager configured)) "LHB-0004" = Other /\
    EvSetTransform "LHB-0004" "LHB-0004" "openVR_origin" (homogeneous hmd_pose) ok
      ∈ evs.
Proof.
  eexists _, _, true. split; [vm_compute; reflexivity|].
  split; [reflexivity|]. do 3 apply list_elem_of_further. apply list_elem_of_here.
Qed.

(** The scenario of one headset with the identity rotation and the
    translation (1, 2, 3). *)
Example headset_frame :
  exists s' evs,
    updateModule configured = Some (true, s', evs) /\
    evs !! 1 = Some (EvSetTransform "LHR-0001" "/hmd/LHR-0001" "openVR_origin"
                       (mkMatrix 4 4 [1;0;0;1; 0;1;0;2; 0;0;1;3; 0;0;0;1]%float)
                       true).
Proof. eexists _, _. split; [vm_compute; reflexivity|reflexivity]. Qed.

Lemma absent_pose_is_skipped_witness :
  Configured configured /\
  exists s' evs,
    updateModule configured = Some (true, s', evs) /\
    (forall sn,
        sn ∈ managedDevices (computePoses (m_manager configured)) ->
        pose (computePoses (m_manager configured)) sn = None ->
        sn ∉ omap published_device evs) /\
    omap published_device evs
    = tracked (computePoses (m_manager configured))
              (managedDevices (computePoses (m_manager configured))) /\
    (forall lvl line, EvLog lvl line ∉ evs).
Proof.
  split; [repeat split; eexists; reflexivity|].
  apply (absent_pose_is_skipped configured).
  repeat split. eexists. reflexivity.
Defined.

(** The controller out of view is the device skipped on the bench. *)
Example controller_out_of_view :
  pose (computePoses (m_manager configured)) "LHR-0002" = None /\
  omap published_device (events_of (updateModule configured))
  = ["LHR-0001"; "LHR-0003"; "LHB-0004"].
Proof. split; vm_compute; reflexivity. Qed.

(** C4 as stated fails: with the transform server down, [configure]
    returns failure after having overwritten the period. *)
Lemma configure_is_not_atomic :
  ~ (forall (rf : ResourceFinder) (s s' : State Manager Driver Client Port)
            (r : bool) (evs : list Event),
        configure rf s = Some (r, s', evs) ->
        false ∈ call_results evs ->
        r = false /\ s' = s).
Proof.
  intros Hatomic.
  destruct (Hatomic options fresh_no_server
              (state_after (configure options fresh_no_server) fresh)
              false (events_of (configure options fresh_no_server)))
    as [_ Hsame].
  - vm_compute. reflexivity.
  - vm_compute. apply list_elem_of_here.
  - apply (f_equal (fun s => (0 <? m_period s)%float)) in Hsame.
    vm_compute in Hsame. discriminate.
Qed.

Lemma publish_failure_is_not_fatal_witness :
  Configured configured /\
  exists s' evs,
    updateModule (set_tf (Some (mkClient [false; false] 0)) configured)
    = Some (true, s', evs) /\
    omap published_device evs
    = tracked (computePoses (m_manager configured))
              (managedDevices (computePoses (m_manager configured))) /\
    forall before sn child parent m after,
      evs = before ++ EvSetTransform sn child parent m false :: after ->
      omap published_device after
      = drop (S (length (omap published_device before)))
             (tracked (computePoses (m_manager configured))
                      (managedDevices (computePoses (m_manager configured)))).
Proof.
  split; [repeat split; eexists; reflexivity|].
  apply (publish_failure_is_not_fatal configured (mkClient [false; false] 0)).
  repeat split. eexists. reflexivity.
Defined.

(** Two publish calls fail on the bench; the third is made all the same and
    the cycle returns [true]. *)
Example two_failed_publications :
  exists s' m1 m2 m3,
    updateModule (scripted [false; false] configured)
    = Some (true, s',
            [ EvComputePoses;
              EvSetTransform "LHR-0001" "/hmd/LHR-0001" "openVR_origin" m1 false;
              EvSetTransform "LHR-0003" "/trackers/LHR-0003" "openVR_origin" m2 false;
              EvSetTransform "LHB-0004" "LHB-0004" "openVR_origin" m3 true ]).
Proof. eexists _, _, _, _. vm_compute. reflexivity. Qed.

Lemma getPeriod_returns_configured_period_witness :
  0.5%float = configured_period options /\
  (0 <? 0.5)%float = true /\
  configure options fresh
  = Some (true, configured, events_of (configure options fresh)) /\
  calls some_calls configured
  = Some ([RBool true; RDouble 0.5; RBool true; RDouble 0.5], running,
          events_of (calls some_calls configured)) /\
  (forall i, some_calls !! i = Some CallGetPeriod ->
             [RBool true; RDouble 0.5; RBool true; RDouble 0.5] !! i
             = Some (RDouble 0.5)) /\
  getPeriod running = Some (0.5%float, running, []) /\
  (forall b s3 e3, close running = Some (b, s3, e3) ->
                   getPeriod s3 = Some (0.5%float, s3, [])).
Proof.
  split; [vm_compute; reflexivity|]. split; [vm_compute; reflexivity|].
  split; [vm_compute; reflexivity|]. split; [vm_compute; reflexivity|].
  apply (getPeriod_returns_configured_period options fresh configured running
           (events_of (configure options fresh))
           (events_of (calls some_calls configured)) some_calls
           [RBool true; RDouble 0.5; RBool true; RDouble 0.5] 0.5%float);
    vm_compute; reflexivity.
Defined.

(** Without a [period] option the period is the default one. *)
Example default_period :
  exists s' evs,
    configure odd_options fresh = Some (true, s', evs) /\
    getPeriod s' = Some (openvr_trackers_module.DefaultPeriod, s', []).
Proof.
  eexists _, _. split; [vm_compute; reflexivity|]. vm_compute. reflexivity.
Qed.


Lemma vrOrigin_is_case_insensitive_witness :
  mixed_case_options !! "vrOrigin" = Some (VString "StAnDiNg") /\
  exists o r s' evs,
    configure mixed_case_options fresh = Some (r, s', evs) /\
    (in_lower_case "StAnDiNg" = "seated" -> o = Seated) /\
    (in_lower_case "StAnDiNg" = "standing" -> o = Standing) /\
    (in_lower_case "StAnDiNg" = "raw" -> o = Raw) /\
    (in_lower_case "StAnDiNg" = "seated" \/ in_lower_case "StAnDiNg" = "standing" \/
     in_lower_case "StAnDiNg" = "raw" -> existsb is_warning evs = false) /\
    (in_lower_case "StAnDiNg" <> "seated" ->
     in_lower_case "StAnDiNg" <> "standing" ->
     in_lower_case "StAnDiNg" <> "raw" ->
     o = Seated /\ existsb is_warning evs = true) /\
    (forall o' ok, EvInitialize o' ok ∈ evs -> o' = o) /\
    (forall before, call_results evs = true :: true :: before ->
                    exists ok, EvInitialize o ok ∈ evs) /\
    (r = false -> false ∈ call_results evs) /\
    (call_results evs = [true; true; true; true; true] -> r = true).
Proof.
  split; [vm_compute; reflexivity|].
  apply (vrOrigin_is_case_insensitive mixed_case_options "StAnDiNg" fresh).
  vm_compute. reflexivity.
Defined.

(** The option "StAnDiNg" selects Standing, with no warning, and the option
    "RAW" selects Raw. *)
Example mixed_case_origin :
  origins (events_of (configure mixed_case_options fresh)) = [Standing] /\
  existsb is_warning (events_of (configure mixed_case_options fresh)) = false /\
  origins (events_of (configure {[ "vrOrigin" := VString "RAW" ]} fresh)) = [Raw].
Proof. repeat split; vm_compute; reflexivity. Qed.

(** The scenario of the option "sideways": Seated is selected, a warning is
    logged and [configure] succeeds. *)
Example sideways_origin :
  exists s' evs,
    configure odd_options fresh = Some (true, s', evs) /\
    origins evs = [Seated] /\ existsb is_warning evs = true /\
    call_results evs = [true; true; true; true; true].
Proof.
  eexists _, _. split; [vm_compute; reflexivity|].
  split; [vm_compute; reflexivity|]. split; vm_compute; reflexivity.
Qed.

(** Upper and mixed case name the same origins. *)
Example origin_names :
  origin_named "Seated" = Some Seated /\
  origin_named "STANDING" = Some Standing /\
  origin_named "rAw" = Some Raw /\
  origin_named "sideways" = None /\
  origin_named "raw " = None.
Proof. repeat split; vm_compute; reflexivity. Qed.

Example standing_origin :
  origins (events_of (configure options fresh)) = [Standing] /\
  existsb is_warning (events_of (configure options fresh)) = false.
Proof. split; vm_compute; reflexivity. Qed.

(** With the tracking runtime unreachable the manager's reset fails, and so
    does the command; the module is as it was. *)
Example reset_before_initialize :
  exists evs,
    OpenVRTrackersModule.resetSeatedPosition fresh_no_runtime
    = Some (false, fresh_no_runtime, evs) /\
    call_results evs = [false].
Proof.
  eexists. split; [vm_compute; reflexivity|]. vm_compute. reflexivity.
Qed.

End TrackersBench.

(** ** The camera device *)

Section CameraFacts.
Import yarp vr OpenVRCamera.
Context {C : Type} `{!IVRTrackedCamera C}.
Implicit Types s : Frame C.

Lemma alpha_positive (a : byte) :
  (0 <? Byte.to_N a)%N = negb (Byte.eqb a "000").
Proof. destruct a; reflexivity. Qed.

Lemma byte_eqb_eq (a a' : byte) : Byte.eqb a a' = true <-> a = a'.
Proof.
  split; [|intros ->; apply Byte.byte_dec_lb; reflexivity].
  apply Byte.byte_dec_bl.
Qed.

Lemma rgba_inv buf i r0 g0 b0 a0 :
  rgba buf i = Some (r0, g0, b0, a0) ->
  buf !! (4 * i) = Some r0 /\ buf !! (4 * i + 1) = Some g0 /\
  buf !! (4 * i + 2) = Some b0 /\ buf !! (4 * i + 3) = Some a0.
Proof.
  unfold rgba.
  destruct (buf !! (4 * i)), (buf !! (4 * i + 1)), (buf !! (4 * i + 2)),
           (buf !! (4 * i + 3)); intros Heq; inversion Heq; auto.
Qed.

Lemma rgba_in_range buf i :
  4 * i + 4 <= length buf -> exists r0 g0 b0 a0, rgba buf i = Some (r0, g0, b0, a0).
Proof.
  intros Hlen. unfold rgba.
  destruct (lookup_lt_is_Some_2 buf (4 * i)) as [r0 ->]; [lia|].
  destruct (lookup_lt_is_Some_2 buf (4 * i + 1)) as [g0 ->]; [lia|].
  destruct (lookup_lt_is_Some_2 buf (4 * i + 2)) as [b0 ->]; [lia|].
  destruct (lookup_lt_is_Some_2 buf (4 * i + 3)) as [a0 ->]; [lia|].
  eauto.
Qed.

Lemma masked_spec s n i r0 g0 b0 a0 c :
  pFrameImage s = 4 * n ->
  rgba (pCameraFrameBuffer (pImpl s)) n = Some (r0, g0, b0, a0) ->
  (i = 0 /\ c = r0) \/ (i = 1 /\ c = g0) \/ (i = 2 /\ c = b0) ->
  masked i s = Some (if Byte.eqb a0 "000" then "000"%byte else c, s, []).
Proof.
  intros Hoff Hrgba Hi. apply rgba_inv in Hrgba as (Hr & Hg & Hb & Ha).
  unfold masked, op_bind, read. rewrite Hoff, Ha, alpha_positive.
  destruct (Byte.eqb a0 "000"); cbn [negb]; [reflexivity|].
  destruct Hi as [(-> & ->)|[(-> & ->)|(-> & ->)]]; rewrite Hoff.
  - rewrite Nat.add_0_r, Hr. reflexivity.
  - rewrite Hg. reflexivity.
  - rewrite Hb. reflexivity.
Qed.

Lemma write_spec s x y set v px :
  x < img_width (image s) -> y < img_height (image s) ->
  pixels (image s) !! (y * img_width (image s) + x) = Some px ->
  write x y set v s
  = Some (tt, mkFrame (pImpl s)
                (mkImage (img_width (image s)) (img_height (image s))
                         (<[y * img_width (image s) + x := set v px]> (pixels (image s))))
                (pFrameImage s), []).
Proof.
  intros Hx Hy Hpx. unfold write, pixel_update, pixel.
  rewrite !bool_decide_eq_true_2 by assumption. cbn [andb]. rewrite Hpx. reflexivity.
Qed.

Lemma copy_pixel_spec s n x y r0 g0 b0 a0 :
  x < img_width (image s) -> y < img_height (image s) ->
  length (pixels (image s)) = img_width (image s) * img_height (image s) ->
  pFrameImage s = 4 * n ->
  rgba (pCameraFrameBuffer (pImpl s)) n = Some (r0, g0, b0, a0) ->
  copy_pixel x y s
  = Some (tt, mkFrame (pImpl s)
                (mkImage (img_width (image s)) (img_height (image s))
                         (<[y * img_width (image s) + x := alpha_masked r0 g0 b0 a0]>
                            (pixels (image s))))
                (4 * n + 4), []).
Proof.
  intros Hx Hy Hlen Hoff Hrgba.
  set (k := y * img_width (image s) + x).
  assert (Hk : k < length (pixels (image s))) by (subst k; nia).
  destruct (lookup_lt_is_Some_2 _ _ Hk) as [p0 Hp0].
  unfold copy_pixel.
  rewrite (op_bind_Some _ _ _ _ _ _
             (masked_spec s n 0 r0 g0 b0 a0 r0 Hoff Hrgba
                (or_introl (conj eq_refl eq_refl)))).
  rewrite (op_bind_Some _ _ _ _ _ _ (write_spec s x y set_r _ p0 Hx Hy Hp0)).
  fold k.
  match goal with |- context [op_bind (masked 1) _ ?s1] =>
    rewrite (op_bind_Some (masked 1) _ s1 _ _ _
               (masked_spec s1 n 1 r0 g0 b0 a0 g0 Hoff Hrgba
                  (or_intror (or_introl (conj eq_refl eq_refl)))));
    rewrite (op_bind_Some _ _ _ _ _ _
               (write_spec s1 x y set_g _ _ Hx Hy
                  (list_lookup_insert_eq _ _ _ Hk)))
  end.
  cbn [image pImpl pFrameImage img_width img_height pixels]. fold k.
  rewrite list_insert_insert_eq.
  match goal with |- context [op_bind (masked 2) _ ?s1] =>
    rewrite (op_bind_Some (masked 2) _ s1 _ _ _
               (masked_spec s1 n 2 r0 g0 b0 a0 b0 Hoff Hrgba
                  (or_intror (or_intror (conj eq_refl eq_refl)))));
    rewrite (op_bind_Some _ _ _ _ _ _
               (write_spec s1 x y set_b _ _ Hx Hy
                  (list_lookup_insert_eq _ _ _ Hk)))
  end.
  cbn [image pImpl pFrameImage img_width img_height pixels with_events app]. fold k.
  rewrite list_insert_insert_eq. unfold modify, alpha_masked, set_r, set_g, set_b.
  cbn [image pImpl pFrameImage r g b]. rewrite Hoff.
  destruct (Byte.eqb a0 "000"); reflexivity.
Qed.

Lemma copy_pixel_copied impl buf w h s x y :
  copied impl buf w h (y * w + x) s ->
  x < w -> y < h -> 4 * w * h <= length buf ->
  exists s', copy_pixel x y s = Some (tt, s', []) /\
             copied impl buf w h (y * w + x + 1) s'.
Proof.
  intros (Himpl & Hbuf & Hw & Hh & Hlen & Hoff & Hpx) Hx Hy Hsize.
  destruct (rgba_in_range buf (y * w + x)) as (r0 & g0 & b0 & a0 & Hrgba); [nia|].
  eexists. split.
  - apply (copy_pixel_spec s (y * w + x) x y r0 g0 b0 a0);
      [lia | lia | rewrite Hw, Hh; exact Hlen | exact Hoff
      | rewrite Himpl, Hbuf; exact Hrgba].
  - unfold copied. cbn [pImpl image pFrameImage img_width img_height pixels].
    rewrite length_insert, Hw.
    repeat (split; [assumption || lia|]).
    intros i Hi. destruct (decide (i = y * w + x)) as [->|Hne].
    + exists r0, g0, b0, a0. split; [exact Hrgba|].
      apply list_lookup_insert_eq. nia.
    + rewrite list_lookup_insert_ne by congruence. apply Hpx. lia.
Qed.

Lemma copy_row_copied impl buf w h y n x0 s :
  copied impl buf w h (y * w + x0) s ->
  x0 + n <= w -> y < h -> 4 * w * h <= length buf ->
  exists s', for_each (seq x0 n) (fun x => copy_pixel x y) s = Some (tt, s', []) /\
             copied impl buf w h (y * w + x0 + n) s'.
Proof.
  revert x0 s. induction n as [|n IH]; intros x0 s Hs Hx Hy Hsize.
  - exists s. split; [reflexivity|]. rewrite Nat.add_0_r. exact Hs.
  - destruct (copy_pixel_copied impl buf w h s x0 y Hs) as (s1 & H1 & Hs1); try lia.
    replace (y * w + x0 + 1) with (y * w + S x0) in Hs1 by lia.
    destruct (IH (S x0) s1 Hs1) as (s2 & H2 & Hs2); try lia.
    exists s2. cbn [seq for_each]. rewrite (op_bind_Some _ _ _ _ _ _ H1), H2.
    split; [reflexivity|].
    replace (y * w + x0 + S n) with (y * w + S x0 + n) by lia. exact Hs2.
Qed.

Lemma copy_rows_copied impl buf w h m y0 s :
  copied impl buf w h (y0 * w) s ->
  y0 + m <= h -> 4 * w * h <= length buf ->
  exists s',
    for_each (seq y0 m) (fun y => for_each (seq 0 w) (fun x => copy_pixel x y)) s
    = Some (tt, s', []) /\
    copied impl buf w h ((y0 + m) * w) s'.
Proof.
  revert y0 s. induction m as [|m IH]; intros y0 s Hs Hy Hsize.
  - exists s. split; [reflexivity|]. rewrite Nat.add_0_r. exact Hs.
  - rewrite <- (Nat.add_0_r (y0 * w)) in Hs.
    destruct (copy_row_copied impl buf w h y0 w 0 s Hs) as (s1 & H1 & Hs1); try lia.
    replace (y0 * w + 0 + w) with (S y0 * w) in Hs1 by lia.
    destruct (IH (S y0) s1 Hs1) as (s2 & H2 & Hs2); try lia.
    exists s2. cbn [seq for_each]. rewrite (op_bind_Some _ _ _ _ _ _ H1), H2.
    split; [reflexivity|].
    replace (y0 + S m) with (S y0 + m) by lia. exact Hs2.
Qed.

Lemma image_resize_size w h img :
  img_width (image_resize w h img) = w /\ img_height (image_resize w h img) = h.
Proof.
  unfold image_resize.
  destruct (bool_decide (w = img_width img)) eqn:Hw;
    [destruct (bool_decide (h = img_height img)) eqn:Hh|]; cbn [andb];
    try (split; reflexivity).
  apply bool_decide_eq_true in Hw, Hh. split; congruence.
Qed.

Lemma image_resize_length w h img :
  length (pixels img) = img_width img * img_height img ->
  length (pixels (image_resize w h img)) = w * h.
Proof.
  intros Hlen. unfold image_resize.
  destruct (bool_decide (w = img_width img)) eqn:Hw;
    [destruct (bool_decide (h = img_height img)) eqn:Hh|]; cbn [andb pixels];
    try apply length_replicate.
  apply bool_decide_eq_true in Hw, Hh. subst. exact Hlen.
Qed.

Lemma fetch_spec (with_buffer : bool) s c err header buffer c' :
  pVRTrackedCamera (pImpl s) = Some c ->
  GetVideoStreamFrameBuffer (hTrackedCamera (pImpl s))
    (if with_buffer then Some (pCameraFrameBuffer (pImpl s)) else None) c
  = (err, header, buffer, c') ->
  fetch with_buffer s
  = Some ((err, header),
          mkFrame (mkImpl (Some c') (hTrackedCamera (pImpl s))
                          (nCameraFrameWidth (pImpl s)) (nCameraFrameHeight (pImpl s))
                          (nCameraFrameBufferSize (pImpl s))
                          (if with_buffer
                           then default (pCameraFrameBuffer (pImpl s)) buffer
                           else pCameraFrameBuffer (pImpl s))
                          (nLastFrameSequence (pImpl s)))
                  (image s) (pFrameImage s), []).
Proof. intros Hc Hcall. unfold fetch. rewrite Hc, Hcall. reflexivity. Qed.

(** C10. When [getImage] fetches a new frame (the camera is open, both
    queries of the runtime succeed and the sequence number has changed)
    into a buffer holding four bytes for each of the width x height
    pixels, it returns [true] with an image of that size in which every
    pixel is black where the alpha byte of the buffer is 0 and has the
    buffer's r, g and b bytes otherwise, the pixel (x, y) being read at
    offset 4 * (y * width + x). *)
Theorem getImage_masks_transparent_pixels
    s (c c1 c2 : C) (header1 header2 : CameraVideoStreamFrameHeader_t)
    (unused : option (list byte)) (buf : list byte) :
  pVRTrackedCamera (pImpl s) = Some c ->
  hTrackedCamera (pImpl s) <> 0%Z ->
  GetVideoStreamFrameBuffer (hTrackedCamera (pImpl s)) None c
  = (VRTrackedCameraError_None, header1, unused, c1) ->
  nFrameSequence header1 <> nLastFrameSequence (pImpl s) ->
  GetVideoStreamFrameBuffer (hTrackedCamera (pImpl s))
    (Some (pCameraFrameBuffer (pImpl s))) c1
  = (VRTrackedCameraError_None, header2, Some buf, c2) ->
  length (pixels (image s)) = img_width (image s) * img_height (image s) ->
  4 * nCameraFrameWidth (pImpl s) * nCameraFrameHeight (pImpl s) <= length buf ->
  exists s',
    getImage s = Some (true, s', []) /\
    pCameraFrameBuffer (pImpl s') = buf /\
    img_width (image s') = nCameraFrameWidth (pImpl s) /\
    img_height (image s') = nCameraFrameHeight (pImpl s) /\
    forall x y,
      x < nCameraFrameWidth (pImpl s) -> y < nCameraFrameHeight (pImpl s) ->
      exists r0 g0 b0 a0 px,
        rgba buf (y * nCameraFrameWidth (pImpl s) + x) = Some (r0, g0, b0, a0) /\
        pixel (image s') x y = Some px /\
        (a0 = "000"%byte ->
         r px = "000"%byte /\ g px = "000"%byte /\ b px = "000"%byte) /\
        (a0 <> "000"%byte -> r px = r0 /\ g px = g0 /\ b px = b0).
Proof.
  intros Hc Hh Hq1 Hseq Hq2 Himg Hsize.
  set (w := nCameraFrameWidth (pImpl s)) in *.
  set (h := nCameraFrameHeight (pImpl s)) in *.
  unfold getImage, op_bind at 1, gets at 1. rewrite Hc.
  rewrite (proj2 (Z.eqb_neq _ _) Hh).
  cbn [bool_decide decide_rel is_Some_dec andb negb].
  rewrite (op_bind_Some _ _ _ _ _ _ (fetch_spec false s c _ _ _ _ Hc Hq1)).
  cbn [is_error]. unfold op_bind at 1, gets at 1.
  cbn [pImpl nLastFrameSequence].
  rewrite (proj2 (Z.eqb_neq _ _) Hseq).
  match goal with |- context [op_bind (fetch true) _ ?s1] =>
    rewrite (op_bind_Some _ _ _ _ _ _ (fetch_spec true s1 c1 _ _ _ _ eq_refl Hq2))
  end.
  cbn [is_error default from_option id pImpl image pFrameImage hTrackedCamera
       nCameraFrameWidth nCameraFrameHeight nCameraFrameBufferSize
       pCameraFrameBuffer nLastFrameSequence].
  unfold op_bind at 1, modify at 1, set_nLastFrameSequence.
  cbn [pImpl image pFrameImage hTrackedCamera nCameraFrameWidth nCameraFrameHeight
       nCameraFrameBufferSize pCameraFrameBuffer nLastFrameSequence pVRTrackedCamera].
  unfold op_bind at 1, gets at 1. unfold op_bind at 1, gets at 1.
  unfold op_bind at 1, modify at 1. unfold op_bind at 1, modify at 1.
  cbn [pImpl image pFrameImage nCameraFrameWidth nCameraFrameHeight].
  fold w h.
  match goal with |- context [op_bind copy_frame _ ?s1] => set (s0 := s1) end.
  set (impl := pImpl s0).
  assert (Hs0 : copied impl buf w h (0 * w) s0).
  { destruct (image_resize_size w h (image s)) as (Hiw & Hih).
    unfold copied. subst s0 impl. cbn [pImpl image pFrameImage pCameraFrameBuffer].
    repeat (split; [reflexivity || assumption|]).
    split; [apply image_resize_length; exact Himg|].
    split; [reflexivity|]. intros i Hi. lia. }
  destruct (copy_rows_copied impl buf w h h 0 s0 Hs0) as (s' & Hrun & Hs'); try lia.
  assert (Hcopy : copy_frame s0 = Some (tt, s', [])).
  { unfold copy_frame, op_bind, gets.
    change (nCameraFrameHeight (pImpl s0)) with h.
    change (nCameraFrameWidth (pImpl s0)) with w.
    rewrite Hrun. reflexivity. }
  rewrite (op_bind_Some _ _ _ _ _ _ Hcopy). cbn [with_events op_ret app].
  exists s'. split; [reflexivity|].
  destruct Hs' as (Himpl & Hbuf & Hw & Hh' & Hlen & _ & Hpx).
  rewrite Himpl. split; [exact Hbuf|]. split; [exact Hw|]. split; [exact Hh'|].
  intros x y Hx Hy.
  destruct (Hpx (y * w + x)) as (r0 & g0 & b0 & a0 & Hrgba & Hlook); [nia|].
  exists r0, g0, b0, a0, (alpha_masked r0 g0 b0 a0).
  split; [exact Hrgba|]. split.
  - unfold pixel. rewrite Hw, Hh', !bool_decide_eq_true_2 by assumption. exact Hlook.
  - unfold alpha_masked. destruct (Byte.eqb a0 "000") eqn:Ha.
    + apply byte_eqb_eq in Ha. subst a0. split; [repeat split|congruence].
    + split; [|repeat split]. intros ->. cbn in Ha. discriminate.
Qed.

End CameraFacts.

Section CameraBenchFacts.
Import vr OpenVRCamera CameraBench.

Lemma getImage_masks_transparent_pixels_witness :
  pVRTrackedCamera (pImpl camera) = Some (mkRuntime rgba_frame 7) /\
  hTrackedCamera (pImpl camera) <> 0%Z /\
  GetVideoStreamFrameBuffer (hTrackedCamera (pImpl camera)) None
    (mkRuntime rgba_frame 7)
  = (VRTrackedCameraError_None, mkHeader 7, None, mkRuntime rgba_frame 7) /\
  nFrameSequence (mkHeader 7) <> nLastFrameSequence (pImpl camera) /\
  GetVideoStreamFrameBuffer (hTrackedCamera (pImpl camera))
    (Some (pCameraFrameBuffer (pImpl camera))) (mkRuntime rgba_frame 7)
  = (VRTrackedCameraError_None, mkHeader 7, Some rgba_frame,
     mkRuntime rgba_frame 7) /\
  length (pixels (image camera))
  = img_width (image camera) * img_height (image camera) /\
  4 * nCameraFrameWidth (pImpl camera) * nCameraFrameHeight (pImpl camera)
  <= length rgba_frame /\
  exists s',
    getImage camera = Some (true, s', []) /\
    pCameraFrameBuffer (pImpl s') = rgba_frame /\
    img_width (image s') = nCameraFrameWidth (pImpl camera) /\
    img_height (image s') = nCameraFrameHeight (pImpl camera) /\
    forall x y,
      x < nCameraFrameWidth (pImpl camera) -> y < nCameraFrameHeight (pImpl camera) ->
      exists r0 g0 b0 a0 px,
        rgba rgba_frame (y * nCameraFrameWidth (pImpl camera) + x)
        = Some (r0, g0, b0, a0) /\
        pixel (image s') x y = Some px /\
        (a0 = "000"%byte ->
         r px = "000"%byte /\ g px = "000"%byte /\ b px = "000"%byte) /\
        (a0 <> "000"%byte -> r px = r0 /\ g px = g0 /\ b px = b0).
Proof.
  split; [reflexivity|]. split; [discriminate|]. split; [reflexivity|].
  split; [discriminate|]. split; [reflexivity|]. split; [reflexivity|].
  split; [vm_compute; lia|].
  apply (getImage_masks_transparent_pixels camera (mkRuntime rgba_frame 7)
           (mkRuntime rgba_frame 7) (mkRuntime rgba_frame 7)
           (mkHeader 7) (mkHeader 7) None rgba_frame);
    try reflexivity; try discriminate.
Defined.

(** The image of the bench: the two transparent pixels come out black. *)
Example masked_frame :
  exists s',
    getImage camera = Some (true, s', []) /\
    pixels (image s')
    = [ mkPixelRgb "255" "000" "000"; mkPixelRgb "000" "000" "000";
        mkPixelRgb "000" "000" "000"; mkPixelRgb "000" "000" "255" ].
Proof.
  eexists. split; [vm_compute; reflexivity|]. vm_compute. reflexivity.
Qed.

(** A buffer too short for the frame is read past its end. *)
Example short_buffer :
  getImage (mkFrame (mkImpl (Some (mkRuntime (take 12 rgba_frame) 7)) 1 2 2 12
                            (replicate 12 "000"%byte) 0)
                    (mkImage 0 0 []) 0)
  = None.
Proof. vm_compute. reflexivity. Qed.

End CameraBenchFacts.

(** ** The two threads and the lock *)

Section SchedulingFacts.
Import yarp openvr OpenVRTrackersModule Running Scheduling.
Context {M D T P : Type}.
Context `{!DevicesManager M, !PolyDriver D T, !IFrameTransform T, !RpcServer P}.
Implicit Types s base obj : State M D T P.
Implicit Types m : Machine M D T P.

Lemma with_events_Some {S A} e1 (r : option (A * S * list Event)) a (s' : S) e :
  with_events e1 r = Some (a, s', e) ->
  exists e2, r = Some (a, s', e2) /\ e = e1 ++ e2.
Proof.
  destruct r as [[[a0 s0] e0]|]; cbn; intros Heq; inversion Heq; subst; eauto.
Qed.

Lemma updater_locked_step base :
  Configured base ->
  exists devices s0 evs,
    op_bind manager_computePoses
            (fun _ => gets (fun s => managedDevices (m_manager s))) base
    = Some (devices, s0, evs) /\
    update_from base (UpdateLoop devices) s0 evs.
Proof.
  intros Hb.
  set (s0 := set_manager (computePoses (m_manager base)) base).
  assert (Hs0 : Configured s0) by exact Hb.
  destruct (for_each_update_device (managedDevices (m_manager s0)) s0 Hs0)
    as (s' & e & Hrun & _).
  exists (managedDevices (m_manager s0)), s0, [EvComputePoses].
  split; [reflexivity|]. split; [exact Hs0|].
  exists s', e. split; [exact Hrun|].
  unfold updateModule, op_bind, manager_computePoses, gets, op_ret.
  fold s0. rewrite Hrun, app_nil_r. reflexivity.
Qed.

Lemma updater_loop_step base sn rest obj h :
  update_from base (UpdateLoop (sn :: rest)) obj h ->
  exists s1 evs,
    update_device sn obj = Some (tt, s1, evs) /\
    update_from base (UpdateLoop rest) s1 (h ++ evs).
Proof.
  intros (Hobj & s' & e & Hrest & Hfull).
  destruct (update_device_Configured sn obj Hobj) as (s1 & e1 & Hdev & Hs1 & _).
  exists s1, e1. split; [exact Hdev|]. split; [exact Hs1|].
  cbn [for_each] in Hrest. rewrite (op_bind_Some _ _ _ _ _ _ Hdev) in Hrest.
  apply with_events_Some in Hrest as (e2 & Hrest & ->).
  exists s', e2. split; [exact Hrest|]. rewrite <- app_assoc. exact Hfull.
Qed.

Lemma updater_return_step base obj h :
  update_from base (UpdateLoop []) obj h ->
  update_from base (UpdateReturned true) obj h.
Proof.
  intros (_ & s' & e & Hrest & Hfull). cbn in Hrest. inversion Hrest; subst.
  rewrite app_nil_r in Hfull. split; [reflexivity|exact Hfull].
Qed.

(** A move of the updater, seen from the module [base] it started on,
    [pre] being what happened before. *)
Lemma updater_moves base m pre h2 :
  Configured base ->
  history m = pre ++ h2 ->
  update_from base (updater m) (object m) h2 ->
  m_mutex m = owner (updater m) (resetter m) ->
  inside_reset (resetter m) = false ->
  match updater_step m with
  | Stepped m' =>
      resetter m' = resetter m /\
      m_mutex m' = owner (updater m') (resetter m') /\
      exists h2', history m' = pre ++ h2' /\
                  update_from base (updater m') (object m') h2'
  | Idle => exists r, updater m = UpdateReturned r
  | Waits | Undefined => False
  end.
Proof.
  intros Hb Hh Hfrom Hmutex Hreset.
  destruct m as [mu obj u r h]; cbn [history updater object m_mutex resetter] in *.
  unfold updater_step; cbn [history updater object m_mutex resetter].
  unfold owner in *. destruct u as [| |[|sn rest]|ru].
  - cbn [inside_update] in Hmutex. rewrite Hreset in Hmutex. subst mu.
    cbn. split; [reflexivity|]. split; [reflexivity|].
    exists h2. split; [exact Hh|exact Hfrom].
  - destruct Hfrom as (-> & ->).
    destruct (updater_locked_step base Hb) as (devices & s0 & evs & Hrun & Hfrom).
    rewrite Hrun. cbn. split; [reflexivity|]. split; [exact Hmutex|].
    exists evs. rewrite Hh, app_nil_r. split; [reflexivity|exact Hfrom].
  - apply updater_return_step in Hfrom. cbn. rewrite Hreset.
    split; [reflexivity|]. split; [reflexivity|]. exists h2. split; assumption.
  - destruct (updater_loop_step _ _ _ _ _ Hfrom) as (s1 & evs & Hrun & Hfrom').
    rewrite Hrun. cbn. split; [reflexivity|]. split; [exact Hmutex|].
    exists (h2 ++ evs). rewrite Hh, app_assoc. split; [reflexivity|exact Hfrom'].
  - eauto.
Qed.

Lemma resetter_moves base m pre h2 :
  history m = pre ++ h2 ->
  reset_from base (resetter m) (object m) h2 ->
  m_mutex m = owner (updater m) (resetter m) ->
  inside_update (updater m) = false ->
  match resetter_step m with
  | Stepped m' =>
      updater m' = updater m /\
      m_mutex m' = owner (updater m') (resetter m') /\
      exists h2', history m' = pre ++ h2' /\
                  reset_from base (resetter m') (object m') h2'
  | Idle => exists r, resetter m = ResetReturned r
  | Waits | Undefined => False
  end.
Proof.
  intros Hh Hfrom Hmutex Hupd.
  destruct m as [mu obj u r h]; cbn [history updater object m_mutex resetter] in *.
  unfold resetter_step; cbn [history updater object m_mutex resetter].
  unfold owner in *. rewrite Hupd in Hmutex. destruct r as [| |rr|rr].
  - cbn in Hmutex. subst mu. cbn. rewrite Hupd.
    split; [reflexivity|]. split; [reflexivity|]. exists h2. split; assumption.
  - destruct Hfrom as (-> & ->).
    destruct (resetSeatedPosition_spec base) as (evs & Hrun & _).
    rewrite Hrun. cbn. rewrite Hupd. split; [reflexivity|]. split; [exact Hmutex|].
    exists evs. rewrite Hh, app_nil_r. split; [reflexivity|exact Hrun].
  - cbn. rewrite Hupd. split; [reflexivity|]. split; [reflexivity|].
    exists h2. split; assumption.
  - eauto.
Qed.

Lemma reset_Configured s r s' e :
  OpenVRTrackersModule.resetSeatedPosition s = Some (r, s', e) ->
  Configured s -> Configured s'.
Proof.
  intros Hrun Hs. destruct (resetSeatedPosition_spec s) as (e' & Hrun' & _).
  rewrite Hrun in Hrun'. inversion Hrun'; subst. exact Hs.
Qed.

Lemma update_Configured s r s' e :
  updateModule s = Some (r, s', e) -> Configured s -> Configured s'.
Proof.
  intros Hrun Hs. destruct (updateModule_Configured s Hs) as (s1 & e1 & Hrun' & Hs1 & _).
  rewrite Hrun in Hrun'. inversion Hrun'; subst. exact Hs1.
Qed.

Lemma updater_step_serial s m :
  Configured s -> serial s m ->
  match updater_step m with
  | Stepped m' => serial s m'
  | Waits => updater m = UpdateCalled /\ m_mutex m = Some Resetter
  | Idle => exists r, updater m = UpdateReturned r
  | Undefined => False
  end.
Proof.
  intros Hs (Hmutex & [(Hr & Hfrom)|[(Hu & Hfrom)|
             [(s1 & e1 & h2 & Hupd & Hs1 & Hu & Hh & Hfrom)|
              (r & s1 & e1 & h2 & Hres & Hs1 & Hr & Hh & Hfrom)]]]).
  - pose proof (updater_moves s m [] (history m) Hs eq_refl Hfrom Hmutex) as Hmove.
    rewrite Hr in Hmove. specialize (Hmove eq_refl).
    destruct (updater_step m) as [m'| | |]; try exact Hmove; try contradiction.
    destruct Hmove as (Hr' & Hmutex' & h2' & Hh' & Hfrom').
    split; [exact Hmutex'|]. left. split; [exact Hr'|]. rewrite Hh'. exact Hfrom'.
  - destruct (resetter m) as [| |rr|rr] eqn:Hr.
    + rewrite <- Hr in Hmutex.
      assert (Hfrom' : update_from s (updater m) (object m) (history m))
        by (rewrite Hu; exact Hfrom).
      pose proof (updater_moves s m [] (history m) Hs eq_refl Hfrom' Hmutex) as Hmove.
      rewrite Hr in Hmove. specialize (Hmove eq_refl).
      destruct (updater_step m) as [m'| | |]; try exact Hmove; try contradiction.
      destruct Hmove as (Hr' & Hmutex' & h2' & Hh' & Hfrom'').
      split; [exact Hmutex'|]. left. split; [exact Hr'|]. rewrite Hh'. exact Hfrom''.
    + unfold updater_step. rewrite Hu, Hmutex, Hu. cbn. split; reflexivity.
    + unfold updater_step. rewrite Hu, Hmutex, Hu. cbn. split; reflexivity.
    + rewrite <- Hr in Hmutex. cbn [reset_from] in Hfrom.
      pose proof (reset_Configured _ _ _ _ Hfrom Hs) as Hobj.
      assert (Hfrom' : update_from (object m) (updater m) (object m) [])
        by (rewrite Hu; split; reflexivity).
      pose proof (updater_moves (object m) m (history m) [] Hobj
                    (eq_sym (app_nil_r _)) Hfrom' Hmutex) as Hmove.
      rewrite Hr in Hmove. specialize (Hmove eq_refl).
      destruct (updater_step m) as [m'| | |]; try exact Hmove; try contradiction.
      destruct Hmove as (Hr' & Hmutex' & h2' & Hh' & Hfrom'').
      split; [exact Hmutex'|]. right; right; right.
      exists rr, (object m), (history m), h2'. repeat (split; [assumption|]).
      exact Hfrom''.
  - unfold updater_step. rewrite Hu. eauto.
  - pose proof (updater_moves s1 m e1 h2 Hs1 Hh Hfrom Hmutex) as Hmove.
    rewrite Hr in Hmove. specialize (Hmove eq_refl).
    destruct (updater_step m) as [m'| | |]; try exact Hmove; try contradiction.
    destruct Hmove as (Hr' & Hmutex' & h2' & Hh' & Hfrom').
    split; [exact Hmutex'|]. right; right; right.
    exists r, s1, e1, h2'. repeat (split; [assumption|]).
    exact Hfrom'.
Qed.

Lemma resetter_step_serial s m :
  Configured s -> serial s m ->
  match resetter_step m with
  | Stepped m' => serial s m'
  | Waits => resetter m = ResetCalled /\ m_mutex m = Some Updater
  | Idle => exists r, resetter m = ResetReturned r
  | Undefined => False
  end.
Proof.
  intros Hs (Hmutex & [(Hr & Hfrom)|[(Hu & Hfrom)|
             [(s1 & e1 & h2 & Hupd & Hs1 & Hu & Hh & Hfrom)|
              (r & s1 & e1 & h2 & Hres & Hs1 & Hr & Hh & Hfrom)]]]).
  - destruct (updater m) as [| |rest|ru] eqn:Hu.
    + rewrite <- Hu in Hmutex.
      assert (Hfrom' : reset_from s (resetter m) (object m) (history m))
        by (rewrite Hr; exact Hfrom).
      pose proof (resetter_moves s m [] (history m) eq_refl Hfrom' Hmutex) as Hmove.
      rewrite Hu in Hmove. specialize (Hmove eq_refl).
      destruct (resetter_step m) as [m'| | |]; try exact Hmove; try contradiction.
      destruct Hmove as (Hu' & Hmutex' & h2' & Hh' & Hfrom'').
      split; [exact Hmutex'|]. right; left. split; [congruence|].
      rewrite Hh'. exact Hfrom''.
    + unfold resetter_step. rewrite Hr, Hmutex, Hr. cbn. split; reflexivity.
    + unfold resetter_step. rewrite Hr, Hmutex, Hr. cbn. split; reflexivity.
    + rewrite <- Hu in Hmutex. destruct Hfrom as (-> & Hfrom).
      pose proof (update_Configured _ _ _ _ Hfrom Hs) as Hobj.
      assert (Hfrom' : reset_from (object m) (resetter m) (object m) [])
        by (rewrite Hr; split; reflexivity).
      pose proof (resetter_moves (object m) m (history m) []
                    (eq_sym (app_nil_r _)) Hfrom' Hmutex) as Hmove.
      rewrite Hu in Hmove. specialize (Hmove eq_refl).
      destruct (resetter_step m) as [m'| | |]; try exact Hmove; try contradiction.
      destruct Hmove as (Hu' & Hmutex' & h2' & Hh' & Hfrom'').
      split; [exact Hmutex'|]. right; right; left.
      exists (object m), (history m), h2'.
      repeat (split; [assumption|]). exact Hfrom''.
  - pose proof (resetter_moves s m [] (history m) eq_refl Hfrom Hmutex) as Hmove.
    rewrite Hu in Hmove. specialize (Hmove eq_refl).
    destruct (resetter_step m) as [m'| | |]; try exact Hmove; try contradiction.
    destruct Hmove as (Hu' & Hmutex' & h2' & Hh' & Hfrom').
    split; [exact Hmutex'|]. right; left. split; [congruence|].
    rewrite Hh'. exact Hfrom'.
  - pose proof (resetter_moves s1 m e1 h2 Hh Hfrom Hmutex) as Hmove.
    rewrite Hu in Hmove. specialize (Hmove eq_refl).
    destruct (resetter_step m) as [m'| | |]; try exact Hmove; try contradiction.
    destruct Hmove as (Hu' & Hmutex' & h2' & Hh' & Hfrom').
    split; [exact Hmutex'|]. right; right; left.
    exists s1, e1, h2'.
    repeat (split; [assumption|]). exact Hfrom'.
  - unfold resetter_step. rewrite Hr. eauto.
Qed.

Lemma run_serial s schedule m :
  Configured s -> serial s m ->
  exists m', run schedule m = Some m' /\ serial s m'.
Proof.
  intros Hs. revert m. induction schedule as [|t schedule IH]; intros m Hm.
  - exists m. split; [reflexivity|exact Hm].
  - cbn [run]. destruct t; cbn [step].
    + pose proof (updater_step_serial s m Hs Hm) as Hstep.
      destruct (updater_step m) as [m1| | |]; [apply IH; exact Hstep
                                              |apply IH; exact Hm
                                              |apply IH; exact Hm
                                              |contradiction].
    + pose proof (resetter_step_serial s m Hs Hm) as Hstep.
      destruct (resetter_step m) as [m1| | |]; [apply IH; exact Hstep
                                               |apply IH; exact Hm
                                               |apply IH; exact Hm
                                               |contradiction].
Qed.

Lemma called_serial s : serial s (called s).
Proof. split; [reflexivity|]. left. repeat split. Qed.

Lemma resets_app e1 e2 : resets (e1 ++ e2) = resets e1 ++ resets e2.
Proof. apply omap_app. Qed.

Lemma update_resets s r s' e :
  Configured s -> updateModule s = Some (r, s', e) -> resets e = [].
Proof.
  intros Hs Hrun.
  destruct (updateModule_Configured s Hs) as (s1 & evs & Hrun' & _ & _ & _ & Hall).
  rewrite Hrun in Hrun'. inversion Hrun'; subst. cbn.
  clear Hrun Hrun'. induction Hall as [|sn e l k (p & ok & _ & ->) _ IH]; [reflexivity|].
  cbn. exact IH.
Qed.

Lemma reset_resets s r s' e :
  OpenVRTrackersModule.resetSeatedPosition s = Some (r, s', e) -> resets e = [r].
Proof.
  unfold OpenVRTrackersModule.resetSeatedPosition, op_bind, manager_resetSeatedPosition.
  destruct (openvr.resetSeatedPosition (m_manager s)) as [[|] m0]; cbn;
    intros Heq; inversion Heq; reflexivity.
Qed.

Lemma update_from_resets base p obj h :
  Configured base -> update_from base p obj h -> resets h = [].
Proof.
  intros Hb. destruct p as [| |rest|r]; cbn.
  - intros (_ & ->). reflexivity.
  - intros (_ & ->). reflexivity.
  - intros (_ & s' & e & _ & Hfull).
    apply (update_resets _ _ _ _ Hb) in Hfull. rewrite resets_app in Hfull.
    apply app_eq_nil in Hfull. tauto.
  - intros (_ & Hfull). exact (update_resets _ _ _ _ Hb Hfull).
Qed.

Lemma reset_from_resets base p obj h :
  reset_from base p obj h ->
  match p with
  | ResetCalled | ResetLocked => resets h = []
  | ResetReturning r | ResetReturned r => resets h = [r]
  end.
Proof.
  destruct p; cbn; try (intros (_ & ->); reflexivity); apply reset_resets.
Qed.

Lemma serial_not_both_inside s m :
  serial s m -> inside_update (updater m) && inside_reset (resetter m) = false.
Proof.
  intros (_ & [(-> & _)|[(-> & _)|[(? & ? & ? & _ & _ & -> & _)|
              (? & ? & ? & ? & _ & _ & -> & _)]]]);
    cbn; try reflexivity; apply andb_false_r.
Qed.

Lemma serial_resets s m :
  Configured s -> serial s m ->
  length (resets (history m)) <= 1 /\
  forall rr, resetter m = ResetReturned rr -> resets (history m) = [rr].
Proof.
  intros Hs (_ & [(Hr & Hfrom)|[(Hu & Hfrom)|
             [(s1 & e1 & h2 & Hupd & Hs1 & Hu & Hh & Hfrom)|
              (r & s1 & e1 & h2 & Hres & Hs1 & Hr & Hh & Hfrom)]]]).
  - rewrite (update_from_resets _ _ _ _ Hs Hfrom). split; [cbn; lia|].
    intros rr Hrr. congruence.
  - apply reset_from_resets in Hfrom.
    destruct (resetter m); rewrite Hfrom; cbn; (split; [lia|]);
      intros rr Hrr; congruence.
  - apply reset_from_resets in Hfrom.
    rewrite Hh, resets_app, (update_resets _ _ _ _ Hs Hupd).
    destruct (resetter m); rewrite Hfrom; cbn; (split; [lia|]);
      intros rr Hrr; congruence.
  - rewrite Hh, resets_app, (reset_resets _ _ _ _ Hres),
      (update_from_resets _ _ _ _ Hs1 Hfrom).
    cbn. split; [lia|]. intros rr Hrr. congruence.
Qed.

Lemma serial_returned s m ru rr :
  serial s m ->
  updater m = UpdateReturned ru -> resetter m = ResetReturned rr ->
  (exists s1 e1 e2,
      updateModule s = Some (ru, s1, e1) /\
      OpenVRTrackersModule.resetSeatedPosition s1 = Some (rr, object m, e2) /\
      history m = e1 ++ e2) \/
  (exists s1 e1 e2,
      OpenVRTrackersModule.resetSeatedPosition s = Some (rr, s1, e1) /\
      updateModule s1 = Some (ru, object m, e2) /\
      history m = e1 ++ e2).
Proof.
  intros (_ & [(Hr & _)|[(Hu & _)|
             [(s1 & e1 & h2 & Hupd & Hs1 & Hu & Hh & Hfrom)|
              (r & s1 & e1 & h2 & Hres & Hs1 & Hr & Hh & Hfrom)]]]) Hru Hrr;
    try congruence.
  - left. rewrite Hrr in Hfrom. cbn in Hfrom.
    assert (ru = true) by congruence. subst ru.
    exists s1, e1, h2. repeat split; assumption.
  - right. rewrite Hru in Hfrom. destruct Hfrom as (-> & Hfrom).
    assert (r = rr) by congruence. subst r.
    exists s1, e1, h2. repeat split; assumption.
Qed.

Lemma run_app schedule1 schedule2 m :
  run (schedule1 ++ schedule2) m
  = match run schedule1 m with Some m' => run schedule2 m' | None => None end.
Proof.
  revert m. induction schedule1 as [|t l IH]; intros m; [reflexivity|].
  cbn [app run]. destruct (step t m); auto.
Qed.

Lemma finish_loop s rest m :
  Configured s -> serial s m ->
  updater m = UpdateLoop rest ->
  exists m', run (replicate (S (length rest)) Updater) m = Some m' /\
             serial s m' /\ (exists r, updater m' = UpdateReturned r) /\
             resetter m' = resetter m.
Proof.
  intros Hs. revert m. induction rest as [|sn rest IH]; intros m Hm Hu.
  - pose proof (updater_step_serial s m Hs Hm) as Hstep.
    cbn [length replicate run step]. unfold updater_step in *. rewrite Hu in *.
    eexists. split; [reflexivity|]. split; [exact Hstep|]. split; [eauto|reflexivity].
  - pose proof (updater_step_serial s m Hs Hm) as Hstep.
    cbn [length replicate run step]. unfold updater_step in *. rewrite Hu in *.
    destruct (update_device sn (object m)) as [[[[] s1] e1]|]; [|contradiction].
    destruct (IH _ Hstep eq_refl) as (m' & Hrun & Hm' & Hret & Hres).
    exists m'. split; [exact Hrun|]. split; [exact Hm'|]. split; [exact Hret|exact Hres].
Qed.

Lemma finish_update s m :
  Configured s -> serial s m -> inside_reset (resetter m) = false ->
  exists n m', run (replicate n Updater) m = Some m' /\
               serial s m' /\ (exists r, updater m' = UpdateReturned r) /\
               resetter m' = resetter m.
Proof.
  intros Hs Hm Hout.
  assert (Hlocked : forall m1, serial s m1 -> updater m1 = UpdateLocked ->
            exists n m', run (replicate n Updater) m1 = Some m' /\
                         serial s m' /\ (exists r, updater m' = UpdateReturned r) /\
                         resetter m' = resetter m1).
  { intros m1 Hm1 Hu1.
    pose proof (updater_step_serial s m1 Hs Hm1) as Hstep.
    unfold updater_step in Hstep. rewrite Hu1 in Hstep.
    destruct (op_bind manager_computePoses _ (object m1))
      as [[[devices s1] e1]|] eqn:Hop; [|contradiction].
    destruct (finish_loop s devices _ Hs Hstep eq_refl) as (m' & Hrun & Hm' & Hret & Hres).
    exists (S (S (length devices))), m'. split; [|auto].
    cbn [replicate run step]. unfold updater_step at 1. rewrite Hu1, Hop. exact Hrun. }
  destruct (updater m) as [| |rest|r] eqn:Hu.
  - pose proof (updater_step_serial s m Hs Hm) as Hstep.
    destruct Hm as (Hmutex & Hm). unfold owner in Hmutex. rewrite Hu, Hout in Hmutex.
    unfold updater_step in Hstep. rewrite Hu, Hmutex in Hstep.
    destruct (Hlocked _ Hstep eq_refl) as (n & m' & Hrun & Hm' & Hret & Hres).
    exists (S n), m'. split; [|auto].
    cbn [replicate run step]. unfold updater_step at 1. rewrite Hu, Hmutex. exact Hrun.
  - apply (Hlocked m Hm Hu).
  - destruct (finish_loop s rest m Hs Hm Hu) as (m' & Hrun & Hrest). eauto.
  - exists 0, m. split; [reflexivity|]. split; [exact Hm|]. split; [eauto|reflexivity].
Qed.

Lemma finish_reset s m :
  Configured s -> serial s m -> inside_update (updater m) = false ->
  exists m', run [Resetter; Resetter; Resetter] m = Some m' /\
             serial s m' /\ (exists r, resetter m' = ResetReturned r) /\
             updater m' = updater m.
Proof.
  intros Hs Hm Hout.
  assert (Hstep : forall m1, serial s m1 -> updater m1 = updater m ->
            exists m2, run [Resetter] m1 = Some m2 /\ serial s m2 /\
                       updater m2 = updater m /\
                       match resetter m1 with
                       | ResetCalled => resetter m2 = ResetLocked
                       | ResetLocked => exists r, resetter m2 = ResetReturning r
                       | ResetReturning r | ResetReturned r =>
                           resetter m2 = ResetReturned r
                       end).
  { intros m1 Hm1 Hu1.
    pose proof (resetter_step_serial s m1 Hs Hm1) as Hser.
    pose proof Hm1 as Hm1'.
    destruct Hm1 as (Hmutex & _). unfold owner in Hmutex. rewrite Hu1, Hout in Hmutex.
    cbn [run step]. unfold resetter_step in *.
    destruct (resetter m1) as [| |r|r] eqn:Hr.
    - cbn in Hmutex. rewrite Hmutex in *. eexists. split; [reflexivity|].
      split; [exact Hser|]. split; [exact Hu1|reflexivity].
    - destruct (OpenVRTrackersModule.resetSeatedPosition (object m1))
        as [[[r s1] e1]|]; [|contradiction].
      eexists. split; [reflexivity|]. split; [exact Hser|]. split; [exact Hu1|].
      eexists. reflexivity.
    - eexists. split; [reflexivity|]. split; [exact Hser|]. split; [exact Hu1|reflexivity].
    - exists m1. split; [reflexivity|]. split; [exact Hm1'|].
      split; [exact Hu1|exact Hr]. }
  destruct (Hstep m Hm eq_refl) as (m1 & Hrun1 & Hm1 & Hu1 & Hr1).
  destruct (Hstep m1 Hm1 Hu1) as (m2 & Hrun2 & Hm2 & Hu2 & Hr2).
  destruct (Hstep m2 Hm2 Hu2) as (m3 & Hrun3 & Hm3 & Hu3 & Hr3).
  exists m3. split.
  - change [Resetter; Resetter; Resetter] with ([Resetter] ++ [Resetter] ++ [Resetter]).
    rewrite run_app, Hrun1, run_app, Hrun2. exact Hrun3.
  - split; [exact Hm3|]. split; [|exact Hu3].
    destruct (resetter m) as [| |r|r];
      [rewrite Hr1 in Hr2; destruct Hr2 as [r Hr2]; rewrite Hr2 in Hr3; eauto
      |destruct Hr1 as [r Hr1]; rewrite Hr1 in Hr2; rewrite Hr2 in Hr3; eauto
      |rewrite Hr1 in Hr2; rewrite Hr2 in Hr3; eauto
      |rewrite Hr1 in Hr2; rewrite Hr2 in Hr3; eauto].
Qed.

Lemma finish_both s m :
  Configured s -> serial s m ->
  exists more m', run more m = Some m' /\ serial s m' /\
                  (exists ru, updater m' = UpdateReturned ru) /\
                  (exists rr, resetter m' = ResetReturned rr).
Proof.
  intros Hs Hm. pose proof (serial_not_both_inside s m Hm) as Hnot.
  destruct (inside_reset (resetter m)) eqn:Hin.
  - rewrite andb_true_r in Hnot.
    destruct (finish_reset s m Hs Hm Hnot) as (m1 & Hrun1 & Hm1 & (rr & Hrr) & _).
    assert (Hout : inside_reset (resetter m1) = false) by (rewrite Hrr; reflexivity).
    destruct (finish_update s m1 Hs Hm1 Hout) as (n & m2 & Hrun2 & Hm2 & Hru & Hres).
    exists ([Resetter; Resetter; Resetter] ++ replicate n Updater), m2.
    rewrite run_app, Hrun1. split; [exact Hrun2|]. split; [exact Hm2|].
    split; [exact Hru|]. exists rr. congruence.
  - destruct (finish_update s m Hs Hm Hin) as (n & m1 & Hrun1 & Hm1 & (ru & Hru) & _).
    assert (Hout : inside_update (updater m1) = false) by (rewrite Hru; reflexivity).
    destruct (finish_reset s m1 Hs Hm1 Hout) as (m2 & Hrun2 & Hm2 & Hrr & Hupd).
    exists (replicate n Updater ++ [Resetter; Resetter; Resetter]), m2.
    rewrite run_app, Hrun1. split; [exact Hrun2|]. split; [exact Hm2|].
    split; [|exact Hrr]. exists ru. congruence.
Qed.

Lemma serial_can_step s m :
  Configured s -> serial s m ->
  (exists ru rr, updater m = UpdateReturned ru /\ resetter m = ResetReturned rr) \/
  (exists t m1, step t m = Stepped m1).
Proof.
  intros Hs Hm.
  pose proof (updater_step_serial s m Hs Hm) as Hu.
  pose proof (resetter_step_serial s m Hs Hm) as Hr.
  destruct (updater_step m) as [m1| | |] eqn:Hupd;
    [right; exists Updater, m1; exact Hupd| | |contradiction].
  - destruct (resetter_step m) as [m1| | |] eqn:Hres;
      [right; exists Resetter, m1; exact Hres| | |contradiction].
    + destruct Hu as (_ & Hu), Hr as (_ & Hr). congruence.
    + destruct Hu as (_ & Hu), Hr as (rr & Hr), Hm as (Hmutex & _).
      rewrite Hr in Hmutex. unfold owner in Hmutex.
      destruct (inside_update (updater m)); cbn in Hmutex; congruence.
  - destruct (resetter_step m) as [m1| | |] eqn:Hres;
      [right; exists Resetter, m1; exact Hres| | |contradiction].
    + destruct Hu as (ru & Hu), Hr as (_ & Hr), Hm as (Hmutex & _).
      rewrite Hu in Hmutex. unfold owner in Hmutex. cbn in Hmutex.
      destruct (inside_reset (resetter m)); congruence.
    + left. destruct Hu as (ru & Hu), Hr as (rr & Hr). eauto.
Qed.

End SchedulingFacts.

Section SchedulingClaims.
Import yarp openvr OpenVRTrackersModule Running Scheduling.
Context {M D T P : Type}.
Context `{!DevicesManager M, !PolyDriver D T, !IFrameTransform T, !RpcServer P}.

(** C9. Let an update cycle and a reset command be called on a configured
    module and their threads be scheduled in any way.  The machine always
    gets on (no thread meets undefined behaviour).  The lock is with the
    thread which is inside its function, so the two are never inside
    together: while the cycle holds the lock, a reset which has been
    called has not begun and its thread waits, and conversely.  At any
    time the manager's reset has been called at most once, and exactly
    once when the command has returned.  When both have returned, the
    module and the events are those of the whole cycle followed by the
    whole reset, or of the whole reset followed by the whole cycle.
    Until both have returned some thread can move (the lock is never held
    by a thread which waits), and whatever has been scheduled so far, the
    schedule can go on so that both return. *)
Theorem reset_and_update_exclude_each_other
    (s : State M D T P) (schedule : list Thread) :
  Configured s ->
  exists m,
    run schedule (called s) = Some m /\
    m_mutex m = owner (updater m) (resetter m) /\
    inside_update (updater m) && inside_reset (resetter m) = false /\
    (m_mutex m = Some Updater ->
     resetter m = ResetCalled -> step Resetter m = Waits) /\
    (m_mutex m = Some Resetter ->
     updater m = UpdateCalled -> step Updater m = Waits) /\
    length (resets (history m)) <= 1 /\
    (forall rr, resetter m = ResetReturned rr -> resets (history m) = [rr]) /\
    (forall ru rr,
        updater m = UpdateReturned ru -> resetter m = ResetReturned rr ->
        (exists s1 e1 e2,
            updateModule s = Some (ru, s1, e1) /\
            OpenVRTrackersModule.resetSeatedPosition s1 = Some (rr, object m, e2) /\
            history m = e1 ++ e2) \/
        (exists s1 e1 e2,
            OpenVRTrackersModule.resetSeatedPosition s = Some (rr, s1, e1) /\
            updateModule s1 = Some (ru, object m, e2) /\
            history m = e1 ++ e2)) /\
    ((exists ru rr, updater m = UpdateReturned ru /\ resetter m = ResetReturned rr) \/
     (exists t m1, step t m = Stepped m1)) /\
    exists more m',
      run (schedule ++ more) (called s) = Some m' /\
      (exists ru, updater m' = UpdateReturned ru) /\
      (exists rr, resetter m' = ResetReturned rr).
Proof.
  intros Hs.
  destruct (run_serial s schedule (called s) Hs (called_serial s)) as (m & Hrun & Hm).
  exists m. split; [exact Hrun|].
  split; [exact (proj1 Hm)|].
  split; [exact (serial_not_both_inside s m Hm)|].
  split.
  { intros Hmu Hr. cbn [step]. unfold resetter_step. rewrite Hr, Hmu. reflexivity. }
  split.
  { intros Hmu Hu. cbn [step]. unfold updater_step. rewrite Hu, Hmu. reflexivity. }
  destruct (serial_resets s m Hs Hm) as (Hle & Hone).
  split; [exact Hle|]. split; [exact Hone|].
  split; [intros ru rr; apply (serial_returned s m ru rr Hm)|].
  split; [exact (serial_can_step s m Hs Hm)|].
  destruct (finish_both s m Hs Hm) as (more & m' & Hmore & _ & Hru & Hrr).
  exists more, m'. rewrite run_app, Hrun. auto.
Qed.

End SchedulingClaims.

Section SchedulingBench.
Import yarp openvr OpenVRTrackersModule Running Scheduling Bench.

Lemma reset_and_update_exclude_each_other_witness :
  Configured configured /\
  exists m,
    run reset_during_cycle (called configured) = Some m /\
    m_mutex m = owner (updater m) (resetter m) /\
    inside_update (updater m) && inside_reset (resetter m) = false /\
    (m_mutex m = Some Updater ->
     resetter m = ResetCalled -> step Resetter m = Waits) /\
    (m_mutex m = Some Resetter ->
     updater m = UpdateCalled -> step Updater m = Waits) /\
    length (resets (history m)) <= 1 /\
    (forall rr, resetter m = ResetReturned rr -> resets (history m) = [rr]) /\
    (forall ru rr,
        updater m = UpdateReturned ru -> resetter m = ResetReturned rr ->
        (exists s1 e1 e2,
            updateModule configured = Some (ru, s1, e1) /\
            OpenVRTrackersModule.resetSeatedPosition s1 = Some (rr, object m, e2) /\
            history m = e1 ++ e2) \/
        (exists s1 e1 e2,
            OpenVRTrackersModule.resetSeatedPosition configured = Some (rr, s1, e1) /\
            updateModule s1 = Some (ru, object m, e2) /\
            history m = e1 ++ e2)) /\
    ((exists ru rr, updater m = UpdateReturned ru /\ resetter m = ResetReturned rr) \/
     (exists t m1, step t m = Stepped m1)) /\
    exists more m',
      run (reset_during_cycle ++ more) (called configured) = Some m' /\
      (exists ru, updater m' = UpdateReturned ru) /\
      (exists rr, resetter m' = ResetReturned rr).
Proof.
  split; [repeat split; eexists; reflexivity|].
  apply (reset_and_update_exclude_each_other configured reset_during_cycle).
  repeat split. eexists. reflexivity.
Defined.

(** Under that schedule the cycle is still in its loop, holding the lock,
    and the reset has not begun. *)
Example reset_is_waiting :
  exists m,
    run reset_during_cycle (called configured) = Some m /\
    m_mutex m = Some Updater /\ updater m = UpdateLoop ["LHR-0003"; "LHB-0004"] /\
    resetter m = ResetCalled /\ resets (history m) = [] /\
    step Resetter m = Waits.
Proof.
  eexists. split; [vm_compute; reflexivity|].
  do 4 (split; [vm_compute; reflexivity|]). vm_compute. reflexivity.
Qed.

(** Let the schedule go on: the cycle ends, then the reset runs, once. *)
Example reset_after_cycle :
  exists m,
    run (reset_during_cycle ++ [Resetter; Updater; Updater; Updater;
                                Resetter; Resetter; Resetter])
        (called configured) = Some m /\
    updater m = UpdateReturned true /\ resetter m = ResetReturned true /\
    omap published_device (history m) = ["LHR-0001"; "LHR-0003"; "LHB-0004"] /\
    last (history m) = Some (EvResetSeatedPosition true) /\
    resets (history m) = [true].
Proof.
  eexists. split; [vm_compute; reflexivity|].
  do 4 (split; [vm_compute; reflexivity|]). vm_compute. reflexivity.
Qed.

End SchedulingBench.

(** * Further properties *)

(** ** More on the trackers module *)

Section TrackersMore.
Import yarp openvr OpenVRTrackersModule Running Configuration.
Context {M D T P : Type}.
Context `{!DevicesManager M, !PolyDriver D T, !IFrameTransform T, !RpcServer P}.
Implicit Types s : State M D T P.

Lemma calls_of_app l1 l2 : calls_of (l1 ++ l2) = calls_of l1 ++ calls_of l2.
Proof. apply filter_app. Qed.

Lemma logs_of_app l1 l2 : logs_of (l1 ++ l2) = logs_of l1 ++ logs_of l2.
Proof. apply filter_app. Qed.

Lemma client_config_puts rf :
  put "remote" (VString (configured_tfRemote rf))
    (put "local" (VString (configured_tfLocal rf))
       (put "device" (VString "transformClient") ∅))
  = client_config rf.
Proof.
  unfold client_config, put.
  generalize (configured_tfRemote rf), (configured_tfLocal rf). intros r l.
  apply map_eq. intros k.
  destruct (decide (k = "remote")) as [->|Hr]; [reflexivity|].
  destruct (decide (k = "local")) as [->|Hl]; [reflexivity|].
  destruct (decide (k = "device")) as [->|Hd]; [reflexivity|].
  rewrite !lookup_insert_ne, lookup_singleton_ne, lookup_empty by congruence.
  reflexivity.
Qed.

Ltac by_option rf key :=
  let v := fresh "v" in
  let E := fresh "E" in
  destruct (rf !! key) as [v|] eqn:E; [destruct v|];
  eexists; (split; reflexivity).

Lemma eye_resize_identity (m : Matrix) : eye (resize 4 4 m) = identity4.
Proof.
  unfold resize.
  destruct (bool_decide (4 = nrows m)) eqn:Hr;
    [destruct (bool_decide (4 = ncols m)) eqn:Hc|]; cbn [andb]; try reflexivity.
  apply bool_decide_eq_true in Hr, Hc. destruct m as [r c l]; simpl in *; subst.
  reflexivity.
Qed.

Lemma find_name_calls rf s :
  exists l, find_name rf s = Some (name_option rf, s, l) /\ calls_of l = [].
Proof.
  unfold find_name, name_option, check, find.
  by_option rf "name".
Qed.

Lemma find_period_calls rf s :
  exists l, find_period rf s = Some (tt, set_period (configured_period rf) s, l) /\
            calls_of l = [].
Proof.
  unfold find_period, configured_period, check, find.
  by_option rf "period".
Qed.

Lemma find_tfBaseFrameName_calls rf s :
  exists l, find_tfBaseFrameName rf s
            = Some (tt, set_baseFrame (configured_baseFrame rf) s, l) /\
            calls_of l = [].
Proof.
  unfold find_tfBaseFrameName, configured_baseFrame, check, find.
  by_option rf "tfBaseFrameName".
Qed.

Lemma find_tfLocal_calls rf s :
  m_name s = configured_name rf ->
  exists l, find_tfLocal rf s = Some (configured_tfLocal rf, s, l) /\ calls_of l = [].
Proof.
  intros Hname. unfold find_tfLocal, configured_tfLocal, check, find.
  rewrite <- Hname.
  by_option rf "tfLocal".
Qed.

Lemma find_tfRemote_calls rf s :
  exists l, find_tfRemote rf s = Some (configured_tfRemote rf, s, l) /\ calls_of l = [].
Proof.
  unfold find_tfRemote, configured_tfRemote, check, find.
  by_option rf "tfRemote".
Qed.

Lemma find_vrOrigin_calls rf s :
  exists l, find_vrOrigin rf s = Some (configured_origin rf, s, l) /\ calls_of l = [].
Proof.
  destruct (find_vrOrigin_spec rf s) as (l & Hrun & _).
  exists l. split; [exact Hrun|].
  revert Hrun. unfold find_vrOrigin.
  repeat match goal with
         | |- context [if ?b then _ else _] => destruct b
         end;
    unfold op_bind, log, emit, op_ret; intros Heq; inversion Heq; reflexivity.
Qed.

(** [configure] in full: its calls, and the module it leaves behind when it
    succeeds. *)
Lemma configure_steps rf s :
  exists r s' evs o1 o2 o3 o4 o5,
    configure rf s = Some (r, s', evs) /\
    calls_of evs `prefix_of` configure_calls rf o1 o2 o3 o4 o5 /\
    (r = true ->
     calls_of evs = configure_calls rf true true true true true /\
     m_sendBuffer s' = identity4 /\
     m_driver s' = snd (drv_open (client_config rf) (m_driver s)) /\
     m_tf s' = drv_view (m_driver s') /\
     m_manager s'
     = snd (openvr.resetSeatedPosition
              (snd (initialize (configured_origin rf) (m_manager s)))) /\
     m_rpcPort s'
     = snd (port_open "/OpenVRTrackersModule/rpc" (attachAsServer (m_rpcPort s)))).
Proof.
  unfold configure.
  destruct (find_name_calls rf s) as (l1 & H1 & Q1).
  rewrite (op_bind_Some _ _ _ _ _ _ H1).
  rewrite (op_bind_Some (modify _) _ _ _ _ _ eq_refl).
  destruct (find_period_calls rf (set_name (configured_name rf) s)) as (l2 & H2 & Q2).
  rewrite (op_bind_Some _ _ _ _ _ _ H2).
  destruct (find_tfBaseFrameName_calls rf
              (set_period (configured_period rf) (set_name (configured_name rf) s)))
    as (l3 & H3 & Q3).
  rewrite (op_bind_Some _ _ _ _ _ _ H3).
  set (s0 := set_baseFrame _ _).
  destruct (find_tfLocal_calls rf s0 eq_refl) as (l4 & H4 & Q4).
  rewrite (op_bind_Some _ _ _ _ _ _ H4).
  destruct (find_tfRemote_calls rf s0) as (l5 & H5 & Q5).
  rewrite (op_bind_Some _ _ _ _ _ _ H5).
  destruct (find_vrOrigin_calls rf s0) as (l6 & H6 & Q6).
  rewrite (op_bind_Some _ _ _ _ _ _ H6).
  rewrite !with_events_app.
  match goal with |- context [with_events ?l _] => set (logs := l) end.
  assert (Qc : calls_of logs = []).
  { subst logs. rewrite !calls_of_app, Q1, Q2, Q3, Q4, Q5, Q6. reflexivity. }
  clearbody logs. clear H1 H2 H3 H4 H5 H6 Q1 Q2 Q3 Q4 Q5 Q6.
  rewrite client_config_puts. set (cfg := client_config rf).
  set (o := configured_origin rf).
  unfold op_bind at 1, driver_open.
  destruct (drv_open cfg (m_driver s0)) as [ok1 d] eqn:Hopen.
  destruct ok1; cbn [negb].
  2:{ eexists _, _, _, false, false, false, false, false.
      cbn [with_events]. split; [reflexivity|].
      rewrite calls_of_app, Qc. split; [|discriminate].
      exists [EvDriverView false; EvInitialize o false; EvResetSeatedPosition false;
              EvRpcOpen "/OpenVRTrackersModule/rpc" false]. reflexivity. }
  unfold op_bind at 1, driver_view.
  set (s1 := set_driver d s0).
  destruct (drv_view (m_driver s1)) as [tf|] eqn:Hview;
    cbn [bool_decide decide_rel is_Some_dec negb].
  2:{ eexists _, _, _, true, false, false, false, false.
      cbn [with_events]. split; [reflexivity|].
      rewrite calls_of_app, Qc. split; [|discriminate].
      exists [EvInitialize o false; EvResetSeatedPosition false;
              EvRpcOpen "/OpenVRTrackersModule/rpc" false]. reflexivity. }
  unfold op_bind at 1, modify at 1. unfold op_bind at 1, modify at 1.
  set (s2 := set_sendBuffer (eye _) _).
  unfold op_bind at 1, manager_initialize.
  destruct (initialize o (m_manager s2)) as [ok3 m1] eqn:Hinit.
  destruct ok3; cbn [negb].
  2:{ eexists _, _, _, true, true, false, false, false.
      cbn [with_events]. split; [reflexivity|].
      rewrite calls_of_app, Qc. split; [|discriminate].
      exists [EvResetSeatedPosition false;
              EvRpcOpen "/OpenVRTrackersModule/rpc" false]. reflexivity. }
  unfold op_bind at 1, manager_resetSeatedPosition.
  set (s3 := set_manager m1 s2).
  destruct (openvr.resetSeatedPosition (m_manager s3)) as [ok4 m2] eqn:Hreset.
  destruct ok4; cbn [negb].
  2:{ eexists _, _, _, true, true, true, false, false.
      cbn [with_events]. split; [reflexivity|].
      rewrite calls_of_app, Qc. split; [|discriminate].
      exists [EvRpcOpen "/OpenVRTrackersModule/rpc" false]. reflexivity. }
  unfold op_bind at 1, rpcPort_attach, modify.
  unfold op_bind at 1, rpcPort_open.
  set (s4 := set_rpcPort _ _).
  destruct (port_open _ (m_rpcPort s4)) as [ok5 p1] eqn:Hport.
  destruct ok5; cbn [negb].
  2:{ eexists _, _, _, true, true, true, true, false.
      cbn [with_events]. split; [reflexivity|].
      rewrite calls_of_app, Qc. split; [|discriminate].
      exists []. reflexivity. }
  eexists _, _, _, true, true, true, true, true.
  cbn [with_events op_ret]. split; [reflexivity|].
  rewrite calls_of_app, Qc. split; [exists []; reflexivity|].
  intros _. split; [reflexivity|].
  cbn [m_sendBuffer m_driver m_tf m_manager m_rpcPort set_rpcPort set_manager
       set_sendBuffer set_tf set_driver].
  split; [apply eye_resize_identity|].
  subst s4 s3 s2 s1.
  cbn [m_sendBuffer m_driver m_tf m_manager m_rpcPort set_rpcPort set_manager
       set_sendBuffer set_tf set_driver] in *.
  change (m_driver s0) with (m_driver s) in Hopen.
  change (m_manager s0) with (m_manager s) in *.
  change (m_rpcPort s0) with (m_rpcPort s) in *.
  change ("/" +:+ openvr_trackers_module.ModuleName +:+ "/rpc")
    with "/OpenVRTrackersModule/rpc" in Hport.
  rewrite Hopen, Hinit. cbn [snd]. rewrite Hreset, Hport. cbn [snd].
  repeat split. symmetry. exact Hview.
Qed.

Lemma op_bind_keeps {S A B X} (f : S -> X) (c : Op S A) (k : A -> Op S B) :
  (forall x a x1 e, c x = Some (a, x1, e) -> f x1 = f x) ->
  (forall a x b x1 e, k a x = Some (b, x1, e) -> f x1 = f x) ->
  forall x b x2 e, op_bind c k x = Some (b, x2, e) -> f x2 = f x.
Proof.
  intros Hc Hk x b x2 e. unfold op_bind.
  destruct (c x) as [[[a x1] e1]|] eqn:Hcs; [|discriminate].
  destruct (k a x1) as [[[b' x2'] e2]|] eqn:Hks; [|discriminate].
  intros Heq. inversion Heq; subst.
  rewrite (Hk _ _ _ _ _ Hks). exact (Hc _ _ _ _ Hcs).
Qed.

Lemma sendBuffer_set_keeps_tf r c v s u s1 e :
  sendBuffer_set r c v s = Some (u, s1, e) -> m_tf s1 = m_tf s.
Proof.
  unfold sendBuffer_set. destruct (mat_set r c v (m_sendBuffer s)); [|discriminate].
  intros Heq. inversion Heq. reflexivity.
Qed.

Lemma fill_sendBuffer_keeps_tf p s u s1 e :
  fill_sendBuffer p s = Some (u, s1, e) -> m_tf s1 = m_tf s.
Proof.
  revert s u s1 e. unfold fill_sendBuffer.
  repeat (apply op_bind_keeps;
          [first [ intros s a s1 e; apply sendBuffer_set_keeps_tf
                 | intros s a s1 e Heq; inversion Heq; reflexivity ]
          | intros _ ]).
  intros s u s1 e. apply sendBuffer_set_keeps_tf.
Qed.

Lemma update_device_untracked sn s :
  pose (m_manager s) sn = None -> update_device sn s = Some (tt, s, []).
Proof. intros Hp. unfold update_device, op_bind, gets. rewrite Hp. reflexivity. Qed.

Lemma update_device_null sn s p :
  m_tf s = None -> pose (m_manager s) sn = Some p -> update_device sn s = None.
Proof.
  intros Htf Hp. unfold update_device, op_bind at 1, gets at 1. rewrite Hp.
  unfold op_bind at 1, gets at 1. unfold op_bind at 1.
  destruct (fill_sendBuffer p s) as [[[u s1] e1]|] eqn:Hfill; [|reflexivity].
  apply fill_sendBuffer_keeps_tf in Hfill.
  unfold op_bind, tf_setTransform. rewrite Hfill, Htf. reflexivity.
Qed.

Lemma for_each_null devs s :
  m_tf s = None -> tracked (m_manager s) devs <> [] ->
  for_each devs update_device s = None.
Proof.
  intros Htf. induction devs as [|sn devs IH]; intros Htr; [contradiction|].
  cbn [for_each]. unfold tracked in Htr. rewrite filter_cons in Htr.
  destruct (pose (m_manager s) sn) as [p|] eqn:Hp.
  - unfold op_bind. rewrite (update_device_null sn s p Htf Hp). reflexivity.
  - rewrite decide_False in Htr by (intros [? ?]; discriminate).
    rewrite (op_bind_Some _ _ _ _ _ _ (update_device_untracked sn s Hp)).
    rewrite (IH Htr). reflexivity.
Qed.

Lemma for_each_untracked devs s :
  tracked (m_manager s) devs = [] ->
  for_each devs update_device s = Some (tt, s, []).
Proof.
  induction devs as [|sn devs IH]; intros Htr; [reflexivity|].
  cbn [for_each]. unfold tracked in Htr. rewrite filter_cons in Htr.
  destruct (pose (m_manager s) sn) as [p|] eqn:Hp.
  - rewrite decide_True in Htr by eauto. discriminate.
  - rewrite decide_False in Htr by (intros [? ?]; discriminate).
    rewrite (op_bind_Some _ _ _ _ _ _ (update_device_untracked sn s Hp)).
    rewrite (IH Htr). reflexivity.
Qed.

Lemma update_events s r s' evs :
  Configured s -> updateModule s = Some (r, s', evs) ->
  logs_of evs = [] /\ Scheduling.resets evs = [] /\
  forall sn child parent m ok,
    EvSetTransform sn child parent m ok ∈ evs -> parent = m_baseFrame s.
Proof.
  intros Hs Hrun.
  destruct (updateModule_Configured s Hs) as (s1 & pubs & Hrun' & _ & _ & _ & Hall).
  rewrite Hrun in Hrun'. inversion Hrun'; subst.
  split; [|split; [exact (update_resets _ _ _ _ Hs Hrun)|]].
  - cbn. clear Hrun Hrun'.
    induction Hall as [|sn e l k (p & ok & _ & ->) _ IH]; [reflexivity|exact IH].
  - intros sn child parent m ok Hin.
    apply elem_of_cons in Hin as [Hin|Hin]; [discriminate|].
    destruct (publication_elem _ _ _ _ _ Hall Hin) as (sn' & _ & (p & ok' & _ & Heq)).
    inversion Heq. reflexivity.
Qed.

Lemma reset_events s r s' evs :
  OpenVRTrackersModule.resetSeatedPosition s = Some (r, s', evs) ->
  evs = EvResetSeatedPosition r :: (if r then [] else [reset_failure]).
Proof.
  unfold OpenVRTrackersModule.resetSeatedPosition, op_bind, manager_resetSeatedPosition.
  destruct (openvr.resetSeatedPosition (m_manager s)) as [[|] m0]; cbn;
    intros Heq; inversion Heq; reflexivity.
Qed.

Lemma call_events (c : Call) s r s' evs :
  Configured s -> call c s = Some (r, s', evs) ->
  logs_of evs
  = (fun _ => reset_failure) <$> filter (fun ok => ok = false) (Scheduling.resets evs) /\
  forall sn child parent m ok,
    EvSetTransform sn child parent m ok ∈ evs -> parent = m_baseFrame s.
Proof.
  intros Hs. destruct c; unfold call.
  - cbn. intros Heq. inversion Heq. split; [reflexivity|].
    intros sn child parent m ok Hin. inversion Hin.
  - unfold op_bind. destruct (updateModule s) as [[[b s1] e1]|] eqn:Hupd; [|discriminate].
    cbn. intros Heq. inversion Heq; subst. rewrite app_nil_r.
    destruct (update_events s b s' e1 Hs Hupd) as (Hlogs & Hres & Hpar).
    rewrite Hlogs, Hres. split; [reflexivity|exact Hpar].
  - unfold op_bind.
    destruct (OpenVRTrackersModule.resetSeatedPosition s) as [[[b s1] e1]|] eqn:Hres;
      [|discriminate].
    cbn. intros Heq. inversion Heq; subst. rewrite app_nil_r.
    rewrite (reset_events _ _ _ _ Hres). destruct b.
    + split; [reflexivity|]. intros sn child parent m ok Hin.
      apply list_elem_of_singleton in Hin. discriminate.
    + split; [reflexivity|]. intros sn child parent m ok Hin.
      rewrite !elem_of_cons in Hin. destruct Hin as [?|[?|Hin]]; try discriminate.
      inversion Hin.
Qed.

Lemma calls_events (cs : list Call) s rs s' evs :
  Configured s -> calls cs s = Some (rs, s', evs) ->
  logs_of evs
  = (fun _ => reset_failure) <$> filter (fun ok => ok = false) (Scheduling.resets evs) /\
  forall sn child parent m ok,
    EvSetTransform sn child parent m ok ∈ evs -> parent = m_baseFrame s.
Proof.
  revert s rs s' evs. induction cs as [|c cs IH]; intros s rs s' evs Hs.
  - cbn. intros Heq. inversion Heq. split; [reflexivity|].
    intros sn child parent m ok Hin. inversion Hin.
  - cbn [calls].
    destruct (call_Configured c s Hs) as (r & s1 & e1 & Hc & Hs1 & Hset1 & _).
    rewrite (op_bind_Some _ _ _ _ _ _ Hc).
    destruct (calls_Configured cs s1 Hs1) as (rs2 & s2 & e2 & Hcs & _).
    rewrite (op_bind_Some _ _ _ _ _ _ Hcs). cbn.
    intros Heq. inversion Heq; subst. rewrite app_nil_r.
    destruct (call_events c s r s1 e1 Hs Hc) as (Hl1 & Hp1).
    destruct (IH s1 rs2 s' e2 Hs1 Hcs) as (Hl2 & Hp2).
    split.
    + rewrite logs_of_app, resets_app, filter_app, fmap_app, Hl1, Hl2.
      reflexivity.
    + intros sn child parent m ok Hin. apply elem_of_app in Hin as [Hin|Hin].
      * exact (Hp1 _ _ _ _ _ Hin).
      * rewrite (Hp2 _ _ _ _ _ Hin). destruct Hset1 as (_ & _ & Hb & _). exact Hb.
Qed.

(** [configure] in full, whatever its collaborators answer: the calls it
    makes, its result and the module it leaves behind. *)
Lemma configure_run rf s :
  exists r s' evs,
    configure rf s = Some (r, s', evs) /\
    calls_of evs = calls_made rf s /\
    r = open_ok rf s && view_ok rf s && init_ok rf s && reset_ok rf s && port_ok s /\
    m_driver s' = snd (opened rf s) /\
    m_tf s' = (if open_ok rf s then viewed rf s else m_tf s) /\
    m_sendBuffer s'
    = (if open_ok rf s && view_ok rf s then identity4 else m_sendBuffer s) /\
    m_manager s'
    = (if open_ok rf s && view_ok rf s
       then if init_ok rf s then snd (reset_once rf s) else snd (initialized rf s)
       else m_manager s) /\
    m_rpcPort s'
    = (if open_ok rf s && view_ok rf s && init_ok rf s && reset_ok rf s
       then snd (served s) else m_rpcPort s).
Proof.
  unfold configure.
  destruct (find_name_calls rf s) as (l1 & H1 & Q1).
  rewrite (op_bind_Some _ _ _ _ _ _ H1).
  rewrite (op_bind_Some (modify _) _ _ _ _ _ eq_refl).
  destruct (find_period_calls rf (set_name (configured_name rf) s)) as (l2 & H2 & Q2).
  rewrite (op_bind_Some _ _ _ _ _ _ H2).
  destruct (find_tfBaseFrameName_calls rf
              (set_period (configured_period rf) (set_name (configured_name rf) s)))
    as (l3 & H3 & Q3).
  rewrite (op_bind_Some _ _ _ _ _ _ H3).
  set (s0 := set_baseFrame _ _).
  destruct (find_tfLocal_calls rf s0 eq_refl) as (l4 & H4 & Q4).
  rewrite (op_bind_Some _ _ _ _ _ _ H4).
  destruct (find_tfRemote_calls rf s0) as (l5 & H5 & Q5).
  rewrite (op_bind_Some _ _ _ _ _ _ H5).
  destruct (find_vrOrigin_calls rf s0) as (l6 & H6 & Q6).
  rewrite (op_bind_Some _ _ _ _ _ _ H6).
  rewrite !with_events_app.
  match goal with |- context [with_events ?l _] => set (logs := l) end.
  assert (Qc : calls_of logs = []).
  { subst logs. rewrite !calls_of_app, Q1, Q2, Q3, Q4, Q5, Q6. reflexivity. }
  clearbody logs. clear H1 H2 H3 H4 H5 H6 Q1 Q2 Q3 Q4 Q5 Q6.
  rewrite client_config_puts.
  unfold calls_made, open_ok, view_ok, init_ok, reset_ok, port_ok,
         reset_once, initialized, viewed, served, opened.
  unfold op_bind at 1, driver_open.
  change (m_driver s0) with (m_driver s).
  destruct (drv_open (client_config rf) (m_driver s)) as [ok1 d] eqn:Hopen.
  destruct ok1; cbn [negb fst snd andb].
  2:{ eexists _, _, _. cbn [with_events]. split; [reflexivity|].
      rewrite calls_of_app, Qc. repeat split. }
  unfold op_bind at 1, driver_view.
  change (m_driver (set_driver d s0)) with d.
  destruct (drv_view d) as [tf|] eqn:Hview;
    cbn [bool_decide decide_rel is_Some_dec negb andb].
  2:{ eexists _, _, _. cbn [with_events]. split; [reflexivity|].
      rewrite calls_of_app, Qc. repeat split. }
  unfold op_bind at 1, modify at 1. unfold op_bind at 1, modify at 1.
  unfold op_bind at 1, manager_initialize.
  cbn [m_rpcPort m_manager m_driver set_rpcPort set_manager set_sendBuffer set_tf
       set_driver].
  change (m_manager s0) with (m_manager s).
  destruct (initialize (configured_origin rf) (m_manager s)) as [ok3 m1] eqn:Hinit.
  destruct ok3; cbn [negb fst snd andb].
  2:{ eexists _, _, _. cbn [with_events]. split; [reflexivity|].
      rewrite calls_of_app, Qc. repeat split. cbn. apply eye_resize_identity. }
  unfold op_bind at 1, manager_resetSeatedPosition.
  cbn [m_rpcPort m_manager m_driver set_rpcPort set_manager set_sendBuffer set_tf
       set_driver].
  destruct (openvr.resetSeatedPosition m1) as [ok4 m2] eqn:Hreset.
  destruct ok4; cbn [negb fst snd andb].
  2:{ eexists _, _, _. cbn [with_events]. split; [reflexivity|].
      rewrite calls_of_app, Qc. repeat split. cbn. apply eye_resize_identity. }
  unfold op_bind at 1, rpcPort_attach, modify.
  unfold op_bind at 1, rpcPort_open.
  cbn [m_rpcPort m_manager m_driver set_rpcPort set_manager set_sendBuffer set_tf
       set_driver].
  change (m_rpcPort s0) with (m_rpcPort s).
  change ("/" +:+ openvr_trackers_module.ModuleName +:+ "/rpc")
    with "/OpenVRTrackersModule/rpc".
  destruct (port_open "/OpenVRTrackersModule/rpc" (attachAsServer (m_rpcPort s)))
    as [ok5 p1] eqn:Hport.
  destruct ok5; cbn [negb fst snd andb].
  2:{ eexists _, _, _. cbn [with_events]. split; [reflexivity|].
      rewrite calls_of_app, Qc. repeat split. cbn. apply eye_resize_identity. }
  eexists _, _, _. cbn [with_events op_ret]. split; [reflexivity|].
  rewrite calls_of_app, Qc. repeat split. cbn. apply eye_resize_identity.
Qed.

(** C4, amended.  [configure] always returns.  When a call on a
    collaborator fails (opening the transform client, viewing its
    interface, initialising the manager, resetting the seated position,
    opening the RPC port), [configure] returns failure and that call is the
    last one it makes; when it returns failure, such a call has failed.
    Nothing is undone.  In every case the module keeps the name, the period
    and the base frame taken from the options, and every sub-step made
    keeps its effect: the driver is as the opening left it, [m_tf] what the
    view answered once the opening succeeded, the send-buffer the 4x4
    identity once the view succeeded, the manager as the initialisation
    left it, or the reset when the initialisation succeeded, and the RPC
    port attached and as its opening left it once the reset succeeded.  A
    sub-step not reached leaves its part of the module as it was. *)
Theorem configure_fails_without_rollback (rf : ResourceFinder) s :
  exists r s' evs,
    configure rf s = Some (r, s', evs) /\
    (false ∈ call_results evs ->
       r = false /\
       exists before, call_results evs = before ++ [false] /\
                      Forall (fun ok => ok = true) before) /\
    (r = false -> false ∈ call_results evs) /\
    calls_of evs = calls_made rf s /\
    m_name s' = configured_name rf /\
    m_period s' = configured_period rf /\
    m_baseFrame s' = configured_baseFrame rf /\
    m_driver s' = snd (opened rf s) /\
    m_tf s' = (if open_ok rf s then viewed rf s else m_tf s) /\
    m_sendBuffer s'
    = (if open_ok rf s && view_ok rf s then identity4 else m_sendBuffer s) /\
    m_manager s'
    = (if open_ok rf s && view_ok rf s
       then if init_ok rf s then snd (reset_once rf s) else snd (initialized rf s)
       else m_manager s) /\
    m_rpcPort s'
    = (if open_ok rf s && view_ok rf s && init_ok rf s && reset_ok rf s
       then snd (served s) else m_rpcPort s).
Proof.
  destruct (configure_outcome rf s)
    as (r & s' & evs & Hrun & Hn & Hp & Hb & _ & Hends & _).
  destruct (configure_run rf s)
    as (r' & s'' & evs' & Hrun' & Hcalls & _ & Hd & Htf & Hbuf & Hm & Hport).
  rewrite Hrun in Hrun'. inversion Hrun'; subst r' s'' evs'. clear Hrun'.
  exists r, s', evs. split; [exact Hrun|].
  split; [|split; [|repeat (split; [assumption|]); assumption]].
  - intros Hin.
    destruct Hends as [(-> & Hc & _)|[(-> & Hc & _)|[(-> & Hc & _)|
                      [(-> & Hc & _)|[(-> & Hc & _)|(-> & Hc & _)]]]]];
      rewrite Hc in *.
    + split; [reflexivity|]. exists []. split; [reflexivity|constructor].
    + split; [reflexivity|]. exists [true]. split; [reflexivity|].
      repeat constructor.
    + split; [reflexivity|]. exists [true; true]. split; [reflexivity|].
      repeat constructor.
    + split; [reflexivity|]. exists [true; true; true]. split; [reflexivity|].
      repeat constructor.
    + split; [reflexivity|]. exists [true; true; true; true].
      split; [reflexivity|]. repeat constructor.
    + exfalso. rewrite !elem_of_cons in Hin.
      destruct Hin as [?|[?|[?|[?|[?|Hin]]]]]; try discriminate.
      inversion Hin.
  - intros ->.
    destruct Hends as [(_ & -> & _)|[(_ & -> & _)|[(_ & -> & _)|
                      [(_ & -> & _)|[(_ & -> & _)|(Hr & _)]]]]];
      try discriminate; rewrite !elem_of_cons; tauto.
Qed.

(** X1. [configure] calls its collaborators in one fixed order and stops
    at the first failure: the transform client is opened with the device
    "transformClient" and the local and remote ports of the options (the
    default local port being "/" + name + "/tf"), its interface is viewed,
    the manager is initialised with the origin selected, the seated
    position is reset, and the RPC port is opened under
    "/OpenVRTrackersModule/rpc" whatever the [name] option says.  The calls
    made are exactly these, with the answers of the collaborators, up to the
    first which fails; [configure] returns [true] when all five succeeded
    and [false] when its last call failed. *)
Theorem configure_calls_in_order (rf : ResourceFinder) s :
  exists r s' evs,
    configure rf s = Some (r, s', evs) /\
    calls_of evs = calls_made rf s /\
    r = open_ok rf s && view_ok rf s && init_ok rf s && reset_ok rf s && port_ok s /\
    (r = true -> calls_of evs = configure_calls rf true true true true true) /\
    (r = false ->
     exists before e,
       calls_of evs = before ++ [e] /\ call_result e = Some false /\
       Forall (fun e' => call_result e' = Some true) before).
Proof.
  destruct (configure_run rf s) as (r & s' & evs & Hrun & Hcalls & Hr & _).
  exists r, s', evs. split; [exact Hrun|]. split; [exact Hcalls|].
  split; [exact Hr|].
  rewrite Hcalls, Hr. unfold calls_made.
  destruct (open_ok rf s), (view_ok rf s), (init_ok rf s), (reset_ok rf s),
           (port_ok s); cbn [andb up_to_failure configure_calls call_result];
    (split; [intros Heq; first [reflexivity | discriminate Heq]|]);
    intros Heq; try discriminate Heq.
  all: match goal with
       | |- exists before e, ?l = _ /\ _ =>
           exists (removelast l), (List.last l (EvComputePoses))
       end; cbn [removelast List.last call_result];
       (split; [reflexivity|split; [reflexivity|repeat constructor]]).
Qed.

(** X2. A [configure] which succeeds leaves the send-buffer the 4x4
    identity, whatever it held, the driver as the open left it, [m_tf] the
    interface viewed on that driver, the manager initialised and then
    reset, and the RPC port attached and then opened. *)
Theorem configure_success_state (rf : ResourceFinder) s s' evs :
  configure rf s = Some (true, s', evs) ->
  m_sendBuffer s' = identity4 /\
  m_driver s' = snd (drv_open (client_config rf) (m_driver s)) /\
  m_tf s' = drv_view (m_driver s') /\
  m_manager s'
  = snd (openvr.resetSeatedPosition
           (snd (initialize (configured_origin rf) (m_manager s)))) /\
  m_rpcPort s'
  = snd (port_open "/OpenVRTrackersModule/rpc" (attachAsServer (m_rpcPort s))).
Proof.
  intros Hconf.
  destruct (configure_steps rf s)
    as (r & s1 & e1 & o1 & o2 & o3 & o4 & o5 & Hrun & _ & Hok).
  rewrite Hconf in Hrun. inversion Hrun; subst. exact (proj2 (Hok eq_refl)).
Qed.

(** X3. Once [configure] has succeeded, every transform published by the
    invocations which follow has the configured base frame (the
    [tfBaseFrameName] option, "openVR_origin" by default) as its parent. *)
Theorem published_parent_is_base_frame
    (rf : ResourceFinder) (s0 s1 s2 : State M D T P) (e1 e2 : list Event)
    (cs : list Call) (rs : list Result) :
  configure rf s0 = Some (true, s1, e1) ->
  calls cs s1 = Some (rs, s2, e2) ->
  forall sn child parent m ok,
    EvSetTransform sn child parent m ok ∈ e2 -> parent = configured_baseFrame rf.
Proof.
  intros Hconf Hcalls sn child parent m ok Hin.
  destruct (configure_success _ _ _ _ Hconf) as (Hs1 & _ & Hb).
  rewrite <- Hb.
  exact (proj2 (calls_events cs s1 rs s2 e2 Hs1 Hcalls) _ _ _ _ _ Hin).
Qed.

(** X4. [updateModule] does not test [m_tf]: on a module whose send-buffer
    is 4x4, so that the transform can be filled in, and whose interface
    pointer is null, a cycle in which some managed device has a pose
    dereferences the null pointer and has no defined result; with any
    interface in place of the null pointer the same cycle is defined and
    returns [true]. *)
Theorem update_without_interface_is_undefined s :
  m_tf s = None ->
  nrows (m_sendBuffer s) = 4 -> ncols (m_sendBuffer s) = 4 ->
  length (storage (m_sendBuffer s)) = 16 ->
  tracked (computePoses (m_manager s))
          (managedDevices (computePoses (m_manager s))) <> [] ->
  updateModule s = None /\
  forall tf : T,
    exists s' evs, updateModule (set_tf (Some tf) s) = Some (true, s', evs).
Proof.
  intros Htf Hr Hc Hl Htr. split.
  - unfold updateModule, op_bind at 1, manager_computePoses.
    unfold op_bind at 1, gets at 1.
    set (s0 := set_manager _ s). unfold op_bind.
    rewrite (for_each_null (managedDevices (m_manager s0)) s0 Htf Htr). reflexivity.
  - intros tf.
    assert (Hs : Configured (set_tf (Some tf) s)).
    { unfold Configured. cbn [m_sendBuffer m_tf set_tf].
      repeat split; try assumption. eexists. reflexivity. }
    destruct (updateModule_Configured _ Hs) as (s' & evs & Hrun & _).
    eexists _, _. exact Hrun.
Qed.

(** X5. A cycle in which no managed device has a pose (or there is no
    device) publishes nothing, returns [true] and changes the manager
    only, on any module, configured or not. *)
Theorem update_with_nothing_tracked s :
  tracked (computePoses (m_manager s))
          (managedDevices (computePoses (m_manager s))) = [] ->
  updateModule s
  = Some (true, set_manager (computePoses (m_manager s)) s, [EvComputePoses]).
Proof.
  intros Htr. unfold updateModule, op_bind at 1, manager_computePoses.
  unfold op_bind at 1, gets at 1.
  set (s0 := set_manager _ s). unfold op_bind.
  rewrite (for_each_untracked (managedDevices (m_manager s0)) s0 Htr). reflexivity.
Qed.

(** X6. Once [configure] has succeeded, no update cycle and no reset
    command ever changes the name, the period, the base frame, the driver
    or the RPC port, the send-buffer stays 4x4 and [m_tf] non-null: every
    invocation which follows is defined. *)
Theorem running_module_keeps_its_settings
    (rf : ResourceFinder) (s0 s1 : State M D T P) (e1 : list Event)
    (cs : list Call) :
  configure rf s0 = Some (true, s1, e1) ->
  exists rs s2 e2,
    calls cs s1 = Some (rs, s2, e2) /\
    length rs = length cs /\
    m_name s2 = configured_name rf /\
    m_period s2 = configured_period rf /\
    m_baseFrame s2 = configured_baseFrame rf /\
    m_driver s2 = m_driver s1 /\ m_rpcPort s2 = m_rpcPort s1 /\
    nrows (m_sendBuffer s2) = 4 /\ ncols (m_sendBuffer s2) = 4 /\
    is_Some (m_tf s2).
Proof.
  intros Hconf.
  destruct (configure_outcome rf s0)
    as (r & s1' & e1' & Hrun & Hn & Hp & Hb & _ & _ & Hok).
  rewrite Hconf in Hrun. inversion Hrun; subst r s1' e1'.
  specialize (Hok eq_refl).
  destruct (calls_Configured cs s1 Hok)
    as (rs & s2 & e2 & Hcalls & (Hr & Hc & _ & Htf) & (Hn2 & Hp2 & Hb2 & Hd2 & Hr2) & _).
  exists rs, s2, e2. split; [exact Hcalls|].
  split.
  { clear -Hcalls. revert s1 rs s2 e2 Hcalls.
    induction cs as [|c cs IH]; intros s1 rs s2 e2; cbn [calls].
    - intros Heq. inversion Heq. reflexivity.
    - unfold op_bind at 1. destruct (call c s1) as [[[r sa] ea]|]; [|discriminate].
      unfold op_bind at 1.
      destruct (calls cs sa) as [[[rs' sb] eb]|] eqn:Hcs; [|discriminate].
      cbn. intros Heq. inversion Heq; subst. cbn. f_equal. exact (IH _ _ _ _ Hcs). }
  repeat split; try congruence; assumption.
Qed.

(** X7. All that a configured module logs, over any invocations, is one
    error line "Failed to reset seated position." for each reset command
    which the manager failed; update cycles log nothing. *)
Theorem only_failed_resets_are_logged s (cs : list Call) rs s' evs :
  Configured s ->
  calls cs s = Some (rs, s', evs) ->
  logs_of evs
  = (fun _ => reset_failure) <$> filter (fun ok => ok = false) (Scheduling.resets evs).
Proof.
  intros Hs Hcalls. exact (proj1 (calls_events cs s rs s' evs Hs Hcalls)).
Qed.

End TrackersMore.

Section TrackersMoreBench.
Import yarp openvr OpenVRTrackersModule Running Configuration Bench MoreBench.

Lemma configure_success_state_witness :
  configure options fresh
  = Some (true, configured, events_of (configure options fresh)) /\
  m_sendBuffer configured = identity4 /\
  m_driver configured = snd (drv_open (client_config options) (m_driver fresh)) /\
  m_tf configured = drv_view (m_driver configured) /\
  m_manager configured
  = snd (openvr.resetSeatedPosition
           (snd (initialize (configured_origin options) (m_manager fresh)))) /\
  m_rpcPort configured
  = snd (port_open "/OpenVRTrackersModule/rpc" (attachAsServer (m_rpcPort fresh))).
Proof.
  split; [vm_compute; reflexivity|].
  apply (configure_success_state options fresh configured
           (events_of (configure options fresh))).
  vm_compute. reflexivity.
Defined.

Lemma published_parent_is_base_frame_witness :
  configure options fresh
  = Some (true, configured, events_of (configure options fresh)) /\
  calls some_calls configured
  = Some ([RBool true; RDouble 0.5; RBool true; RDouble 0.5], running,
          events_of (calls some_calls configured)) /\
  forall sn child parent m ok,
    EvSetTransform sn child parent m ok ∈ events_of (calls some_calls configured) ->
    parent = configured_baseFrame options.
Proof.
  split; [vm_compute; reflexivity|]. split; [vm_compute; reflexivity|].
  apply (published_parent_is_base_frame options fresh configured running
           (events_of (configure options fresh))
           (events_of (calls some_calls configured)) some_calls
           [RBool true; RDouble 0.5; RBool true; RDouble 0.5]);
    vm_compute; reflexivity.
Defined.

Lemma update_without_interface_is_undefined_witness :
  m_tf lost_interface = None /\
  nrows (m_sendBuffer lost_interface) = 4 /\
  ncols (m_sendBuffer lost_interface) = 4 /\
  length (storage (m_sendBuffer lost_interface)) = 16 /\
  tracked (computePoses (m_manager lost_interface))
          (managedDevices (computePoses (m_manager lost_interface))) <> [] /\
  updateModule lost_interface = None /\
  forall tf : Client,
    exists s' evs,
      updateModule (set_tf (Some tf) lost_interface) = Some (true, s', evs).
Proof.
  split; [reflexivity|]. split; [reflexivity|]. split; [reflexivity|].
  split; [reflexivity|]. split; [vm_compute; discriminate|].
  apply (update_without_interface_is_undefined lost_interface);
    [reflexivity | reflexivity | reflexivity | reflexivity
    | vm_compute; discriminate].
Defined.

Lemma update_with_nothing_tracked_witness :
  tracked (computePoses (m_manager blind))
          (managedDevices (computePoses (m_manager blind))) = [] /\
  updateModule blind
  = Some (true, set_manager (computePoses (m_manager blind)) blind, [EvComputePoses]).
Proof.
  split; [vm_compute; reflexivity|].
  apply (update_with_nothing_tracked blind). vm_compute. reflexivity.
Defined.

Lemma running_module_keeps_its_settings_witness :
  configure options fresh
  = Some (true, configured, events_of (configure options fresh)) /\
  exists rs s2 e2,
    calls some_calls configured = Some (rs, s2, e2) /\
    length rs = length some_calls /\
    m_name s2 = configured_name options /\
    m_period s2 = configured_period options /\
    m_baseFrame s2 = configured_baseFrame options /\
    m_driver s2 = m_driver configured /\ m_rpcPort s2 = m_rpcPort configured /\
    nrows (m_sendBuffer s2) = 4 /\ ncols (m_sendBuffer s2) = 4 /\
    is_Some (m_tf s2).
Proof.
  split; [vm_compute; reflexivity|].
  apply (running_module_keeps_its_settings options fresh configured
           (events_of (configure options fresh)) some_calls).
  vm_compute. reflexivity.
Defined.

Lemma only_failed_resets_are_logged_witness :
  Configured unready /\
  calls reset_update_reset unready
  = Some ([RBool false; RBool true; RBool false],
          state_after (calls reset_update_reset unready) unready,
          events_of (calls reset_update_reset unready)) /\
  logs_of (events_of (calls reset_update_reset unready))
  = (fun _ => reset_failure)
      <$> filter (fun ok => ok = false)
                 (Scheduling.resets (events_of (calls reset_update_reset unready))).
Proof.
  split; [repeat split; eexists; reflexivity|].
  split; [vm_compute; reflexivity|].
  apply (only_failed_resets_are_logged unready reset_update_reset
           [RBool false; RBool true; RBool false]
           (state_after (calls reset_update_reset unready) unready)
           (events_of (calls reset_update_reset unready))).
  - repeat split. eexists. reflexivity.
  - vm_compute. reflexivity.
Defined.

(** On the bench the two failed resets leave two error lines. *)
Example two_failed_resets :
  logs_of (events_of (calls reset_update_reset unready))
  = [reset_failure; reset_failure].
Proof. vm_compute. reflexivity. Qed.

(** With no option at all the transform client is opened on the default
    ports, the local one made from the default name. *)
Example default_client_config :
  client_config ∅ !! "local" = Some (VString "/OpenVRTrackersModule/tf") /\
  client_config ∅ !! "remote" = Some (VString "/transformServer") /\
  client_config ∅ !! "device" = Some (VString "transformClient").
Proof. repeat split. Qed.

(** A [name] option changes the default local port and not the RPC port. *)
Example named_module :
  client_config {[ "name" := VString "left" ]} !! "local" = Some (VString "/left/tf") /\
  calls_of (events_of (configure {[ "name" := VString "left" ]} fresh))
  = configure_calls {[ "name" := VString "left" ]} true true true true true.
Proof. split; vm_compute; reflexivity. Qed.

(** A [name] option with a NUL in it is cut there: the module is named by
    what comes before, and so is the default local port. *)
Example name_is_cut_at_nul :
  configured_name nul_options = "ab" /\
  m_name (state_after (configure nul_options fresh) fresh) = "ab" /\
  client_config nul_options !! "local" = Some (VString "/ab/tf") /\
  calls_of (events_of (configure nul_options fresh))
  = configure_calls nul_options true true true true true.
Proof. repeat split; vm_compute; reflexivity. Qed.

(** With the transform server down the opening of the client is the only
    call made, and the module keeps the period of the options. *)
Example stops_at_failed_open :
  calls_made options fresh_no_server = [EvDriverOpen (client_config options) false] /\
  calls_of (events_of (configure options fresh_no_server))
  = [EvDriverOpen (client_config options) false] /\
  m_period (state_after (configure options fresh_no_server) fresh_no_server)
  = 0.5%float /\
  m_tf (state_after (configure options fresh_no_server) fresh_no_server) = None.
Proof. repeat split; vm_compute; reflexivity. Qed.

End TrackersMoreBench.

(** ** More on the camera device *)

Section CameraMore.
Import yarp vr OpenVRCamera.
Context {C : Type} `{!IVRTrackedCamera C}.
Implicit Types s : Frame C.

Lemma op_bind_None {S A B} (c : Op S A) (k : A -> Op S B) (x : S) :
  c x = None -> op_bind c k x = None.
Proof. intros Hc. unfold op_bind. rewrite Hc. reflexivity. Qed.

Lemma for_each_app {S A} (l1 l2 : list A) (body : A -> Op S unit) (x : S) :
  for_each (l1 ++ l2) body x
  = op_bind (for_each l1 body) (fun _ => for_each l2 body) x.
Proof.
  revert x. induction l1 as [|a l1 IH]; intros x; cbn [app for_each].
  - unfold op_bind, op_ret. destruct (for_each l2 body x) as [[[u x1] e]|]; reflexivity.
  - unfold op_bind in *. destruct (body a x) as [[[u x1] e1]|]; [|reflexivity].
    rewrite IH.
    destruct (for_each l1 body x1) as [[[u2 x2] e2]|]; [|reflexivity].
    destruct (for_each l2 body x2) as [[[u3 x3] e3]|]; [|reflexivity].
    rewrite app_assoc. reflexivity.
Qed.

Lemma getImage_unopened s :
  pVRTrackedCamera (pImpl s) = None \/ hTrackedCamera (pImpl s) = 0%Z ->
  getImage s
  = Some (false, s,
          [EvLog Error [LStr "getImage() called before camera has been opened."]]).
Proof.
  intros Hclosed. unfold getImage, op_bind at 1, gets at 1.
  assert (Hguard : bool_decide (is_Some (pVRTrackedCamera (pImpl s)))
                   && negb (hTrackedCamera (pImpl s) =? 0)%Z = false).
  { destruct Hclosed as [->| ->]; [reflexivity|]. apply andb_false_r. }
  rewrite Hguard. reflexivity.
Qed.

(** X8. Before the camera has been opened, that is with a null interface
    pointer or the null handle, [getImage] returns [false] with one error
    line and touches neither the runtime, nor the device, nor the image. *)
Theorem getImage_before_open s :
  pVRTrackedCamera (pImpl s) = None \/ hTrackedCamera (pImpl s) = 0%Z ->
  getImage s
  = Some (false, s,
          [EvLog Error [LStr "getImage() called before camera has been opened."]]).
Proof. apply getImage_unopened. Qed.

Lemma getImage_same_sequence
    s (c c1 : C) (header : CameraVideoStreamFrameHeader_t)
    (unused : option (list byte)) :
  pVRTrackedCamera (pImpl s) = Some c ->
  hTrackedCamera (pImpl s) <> 0%Z ->
  GetVideoStreamFrameBuffer (hTrackedCamera (pImpl s)) None c
  = (VRTrackedCameraError_None, header, unused, c1) ->
  nFrameSequence header = nLastFrameSequence (pImpl s) ->
  exists s',
    getImage s = Some (false, s', [EvLog Warning [LStr "No new frame available."]]) /\
    pVRTrackedCamera (pImpl s') = Some c1 /\
    pCameraFrameBuffer (pImpl s') = pCameraFrameBuffer (pImpl s) /\
    nLastFrameSequence (pImpl s') = nLastFrameSequence (pImpl s) /\
    image s' = image s.
Proof.
  intros Hc Hh Hq Hseq.
  unfold getImage, op_bind at 1, gets at 1. rewrite Hc.
  rewrite (proj2 (Z.eqb_neq _ _) Hh).
  cbn [bool_decide decide_rel is_Some_dec andb negb].
  rewrite (op_bind_Some _ _ _ _ _ _ (fetch_spec false s c _ _ _ _ Hc Hq)).
  cbn [is_error]. unfold op_bind at 1, gets at 1.
  cbn [pImpl nLastFrameSequence]. rewrite Hseq, Z.eqb_refl.
  eexists. split; [reflexivity|]. repeat split.
Qed.

(** X9. When the header of the runtime carries the sequence number of the
    last frame delivered, [getImage] returns [false] with the warning "No
    new frame available.": the frame buffer is not fetched, the buffer,
    the image and the last sequence number are as before. *)
Theorem getImage_without_new_frame
    s (c c1 : C) (header : CameraVideoStreamFrameHeader_t)
    (unused : option (list byte)) :
  pVRTrackedCamera (pImpl s) = Some c ->
  hTrackedCamera (pImpl s) <> 0%Z ->
  GetVideoStreamFrameBuffer (hTrackedCamera (pImpl s)) None c
  = (VRTrackedCameraError_None, header, unused, c1) ->
  nFrameSequence header = nLastFrameSequence (pImpl s) ->
  exists s',
    getImage s = Some (false, s', [EvLog Warning [LStr "No new frame available."]]) /\
    pVRTrackedCamera (pImpl s') = Some c1 /\
    pCameraFrameBuffer (pImpl s') = pCameraFrameBuffer (pImpl s) /\
    nLastFrameSequence (pImpl s') = nLastFrameSequence (pImpl s) /\
    image s' = image s.
Proof. apply getImage_same_sequence. Qed.

Lemma op_bind_returns {S A B} (c : Op S A) (k : A -> Op S B) (v : B) :
  (forall a x b x' e, k a x = Some (b, x', e) -> b = v) ->
  forall x b x' e, op_bind c k x = Some (b, x', e) -> b = v.
Proof.
  intros Hk x b x' e. unfold op_bind. destruct (c x) as [[[a x1] e1]|]; [|discriminate].
  destruct (k a x1) as [[[b' x2] e2]|] eqn:Hkx; [|discriminate].
  intros Heq. inversion Heq; subst. exact (Hk _ _ _ _ _ Hkx).
Qed.

(** X10. Whenever [getImage] returns [false] it has logged exactly one
    line and has left the caller's image and the last sequence number as
    they were (so the same frame is tried again by the next call). *)
Theorem getImage_failure_leaves_image s s' evs :
  getImage s = Some (false, s', evs) ->
  image s' = image s /\
  nLastFrameSequence (pImpl s') = nLastFrameSequence (pImpl s) /\
  hTrackedCamera (pImpl s') = hTrackedCamera (pImpl s) /\
  exists lvl line, evs = [EvLog lvl line].
Proof.
  unfold getImage, op_bind at 1, gets at 1.
  destruct (bool_decide (is_Some (pVRTrackedCamera (pImpl s)))
            && negb (hTrackedCamera (pImpl s) =? 0)%Z); cbn [negb].
  2:{ cbn. intros Heq. inversion Heq; subst.
      do 3 (split; [reflexivity|]). eexists _, _. reflexivity. }
  unfold op_bind at 1.
  destruct (fetch false s) as [[[[err1 hdr1] s1] e1]|] eqn:Hf1; [|discriminate].
  assert (Hs1 : image s1 = image s /\
                nLastFrameSequence (pImpl s1) = nLastFrameSequence (pImpl s) /\
                hTrackedCamera (pImpl s1) = hTrackedCamera (pImpl s) /\ e1 = []).
  { revert Hf1. unfold fetch. destruct (pVRTrackedCamera (pImpl s)); [|discriminate].
    destruct (GetVideoStreamFrameBuffer _ _ _) as [[[? ?] ?] ?].
    intros Heq. inversion Heq; subst. repeat split. }
  destruct Hs1 as (Hi1 & Hl1 & Hh1 & ->).
  destruct (is_error err1).
  { unfold op_bind at 1, error_name.
    destruct (pVRTrackedCamera (pImpl s1)); cbn; [|discriminate].
    intros Heq. inversion Heq; subst.
    split; [exact Hi1|]. split; [exact Hl1|]. split; [exact Hh1|].
    eexists _, _. reflexivity. }
  unfold op_bind at 1, gets at 1.
  destruct (nFrameSequence hdr1 =? nLastFrameSequence (pImpl s1))%Z.
  { cbn. intros Heq. inversion Heq; subst.
    split; [exact Hi1|]. split; [exact Hl1|]. split; [exact Hh1|].
    eexists _, _. reflexivity. }
  unfold op_bind at 1.
  destruct (fetch true s1) as [[[[err2 hdr2] s2] e2]|] eqn:Hf2;
    [|cbn; discriminate].
  assert (Hs2 : image s2 = image s1 /\
                nLastFrameSequence (pImpl s2) = nLastFrameSequence (pImpl s1) /\
                hTrackedCamera (pImpl s2) = hTrackedCamera (pImpl s1) /\ e2 = []).
  { revert Hf2. unfold fetch. destruct (pVRTrackedCamera (pImpl s1)); [|discriminate].
    destruct (GetVideoStreamFrameBuffer _ _ _) as [[[? ?] ?] ?].
    intros Heq. inversion Heq; subst. repeat split. }
  destruct Hs2 as (Hi2 & Hl2 & Hh2 & ->).
  destruct (is_error err2).
  { unfold op_bind at 1, error_name.
    destruct (pVRTrackedCamera (pImpl s2)); cbn; [|discriminate].
    intros Heq. inversion Heq; subst.
    do 3 (split; [congruence|]). eexists _, _. reflexivity. }
  intros Hrest.
  destruct (op_bind _ _ s2) as [[[b0 s3] e3]|] eqn:Hrun; [|cbn in Hrest; discriminate].
  assert (Hb : b0 = true).
  { revert Hrun. generalize s2, b0, s3, e3.
    repeat (apply op_bind_returns; intros ?).
    intros x b x' e Heq. inversion Heq. reflexivity. }
  subst b0. cbn in Hrest. discriminate.
Qed.

Lemma with_events_nil {S A} (r : option (A * S * list Event)) :
  with_events [] r = r.
Proof. destruct r as [[[a x] e]|]; reflexivity. Qed.

(** [getImage] up to its loops, when a new frame has been fetched. *)
Lemma getImage_fetched
    s (c c1 c2 : C) (header1 header2 : CameraVideoStreamFrameHeader_t)
    (unused filled : option (list byte)) :
  pVRTrackedCamera (pImpl s) = Some c ->
  hTrackedCamera (pImpl s) <> 0%Z ->
  GetVideoStreamFrameBuffer (hTrackedCamera (pImpl s)) None c
  = (VRTrackedCameraError_None, header1, unused, c1) ->
  nFrameSequence header1 <> nLastFrameSequence (pImpl s) ->
  GetVideoStreamFrameBuffer (hTrackedCamera (pImpl s))
    (Some (pCameraFrameBuffer (pImpl s))) c1
  = (VRTrackedCameraError_None, header2, filled, c2) ->
  getImage s
  = op_bind copy_frame (fun _ => op_ret true)
      (mkFrame (mkImpl (Some c2) (hTrackedCamera (pImpl s))
                       (nCameraFrameWidth (pImpl s)) (nCameraFrameHeight (pImpl s))
                       (nCameraFrameBufferSize (pImpl s))
                       (default (pCameraFrameBuffer (pImpl s)) filled)
                       (nFrameSequence header2))
               (image_resize (nCameraFrameWidth (pImpl s))
                             (nCameraFrameHeight (pImpl s)) (image s))
               0).
Proof.
  intros Hc Hh Hq1 Hseq Hq2.
  destruct filled as [buf|].
  all: unfold getImage, op_bind at 1, gets at 1; rewrite Hc.
  all: rewrite (proj2 (Z.eqb_neq _ _) Hh).
  all: cbn [bool_decide decide_rel is_Some_dec andb negb].
  all: rewrite (op_bind_Some _ _ _ _ _ _ (fetch_spec false s c _ _ _ _ Hc Hq1)).
  all: cbn [is_error]; unfold op_bind at 1, gets at 1.
  all: cbn [pImpl nLastFrameSequence].
  all: rewrite (proj2 (Z.eqb_neq _ _) Hseq).
  all: match goal with |- context [op_bind (fetch true) _ ?s1] =>
         rewrite (op_bind_Some _ _ _ _ _ _ (fetch_spec true s1 c1 _ _ _ _ eq_refl Hq2))
       end.
  all: cbn [is_error default from_option id pImpl image pFrameImage hTrackedCamera
            nCameraFrameWidth nCameraFrameHeight nCameraFrameBufferSize
            pCameraFrameBuffer nLastFrameSequence].
  all: unfold op_bind at 1, modify at 1, set_nLastFrameSequence.
  all: cbn [pImpl image pFrameImage hTrackedCamera nCameraFrameWidth
            nCameraFrameHeight nCameraFrameBufferSize pCameraFrameBuffer
            nLastFrameSequence pVRTrackedCamera].
  all: unfold op_bind at 1, gets at 1; unfold op_bind at 1, gets at 1.
  all: unfold op_bind at 1, modify at 1; unfold op_bind at 1, modify at 1.
  all: cbn [pImpl image pFrameImage nCameraFrameWidth nCameraFrameHeight].
  all: rewrite !with_events_nil.
  all: match goal with |- context [op_bind copy_frame _ ?s1] =>
         destruct (op_bind copy_frame (fun _ => op_ret true) s1) as [[[b x] e]|]
       end; reflexivity.
Qed.

Lemma copy_pixel_within impl buf w h s x y :
  copied impl buf w h (y * w + x) s ->
  x < w -> y < h -> 4 * (y * w + x) + 4 <= length buf ->
  exists s', copy_pixel x y s = Some (tt, s', []) /\
             copied impl buf w h (y * w + x + 1) s'.
Proof.
  intros (Himpl & Hbuf & Hw & Hh & Hlen & Hoff & Hpx) Hx Hy Hsize.
  destruct (rgba_in_range buf (y * w + x)) as (r0 & g0 & b0 & a0 & Hrgba); [lia|].
  eexists. split.
  - apply (copy_pixel_spec s (y * w + x) x y r0 g0 b0 a0);
      [lia | lia | rewrite Hw, Hh; exact Hlen | exact Hoff
      | rewrite Himpl, Hbuf; exact Hrgba].
  - unfold copied. cbn [pImpl image pFrameImage img_width img_height pixels].
    rewrite length_insert, Hw.
    repeat (split; [assumption || lia|]).
    intros i Hi. destruct (decide (i = y * w + x)) as [->|Hne].
    + exists r0, g0, b0, a0. split; [exact Hrgba|].
      apply list_lookup_insert_eq. nia.
    + rewrite list_lookup_insert_ne by congruence. apply Hpx. lia.
Qed.

Lemma copy_row_within impl buf w h y n x0 s :
  copied impl buf w h (y * w + x0) s ->
  x0 + n <= w -> y < h -> 4 * (y * w + x0 + n) <= length buf ->
  exists s', for_each (seq x0 n) (fun x => copy_pixel x y) s = Some (tt, s', []) /\
             copied impl buf w h (y * w + x0 + n) s'.
Proof.
  revert x0 s. induction n as [|n IH]; intros x0 s Hs Hx Hy Hsize.
  - exists s. split; [reflexivity|]. rewrite Nat.add_0_r. exact Hs.
  - destruct (copy_pixel_within impl buf w h s x0 y Hs) as (s1 & H1 & Hs1); try lia.
    replace (y * w + x0 + 1) with (y * w + S x0) in Hs1 by lia.
    destruct (IH (S x0) s1 Hs1) as (s2 & H2 & Hs2); try lia.
    exists s2. cbn [seq for_each]. rewrite (op_bind_Some _ _ _ _ _ _ H1), H2.
    split; [reflexivity|].
    replace (y * w + x0 + S n) with (y * w + S x0 + n) by lia. exact Hs2.
Qed.

Lemma copy_rows_within impl buf w h m y0 s :
  copied impl buf w h (y0 * w) s ->
  y0 + m <= h -> 4 * ((y0 + m) * w) <= length buf ->
  exists s',
    for_each (seq y0 m) (fun y => for_each (seq 0 w) (fun x => copy_pixel x y)) s
    = Some (tt, s', []) /\
    copied impl buf w h ((y0 + m) * w) s'.
Proof.
  revert y0 s. induction m as [|m IH]; intros y0 s Hs Hy Hsize.
  - exists s. split; [reflexivity|]. rewrite Nat.add_0_r. exact Hs.
  - rewrite <- (Nat.add_0_r (y0 * w)) in Hs.
    destruct (copy_row_within impl buf w h y0 w 0 s Hs) as (s1 & H1 & Hs1); try lia.
    replace (y0 * w + 0 + w) with (S y0 * w) in Hs1 by lia.
    destruct (IH (S y0) s1 Hs1) as (s2 & H2 & Hs2);
      [lia | replace (S y0 + m) with (y0 + S m) by lia; exact Hsize |].
    exists s2. cbn [seq for_each]. rewrite (op_bind_Some _ _ _ _ _ _ H1), H2.
    split; [reflexivity|].
    replace (y0 + S m) with (S y0 + m) by lia. exact Hs2.
Qed.

Lemma copy_pixel_past_the_end impl buf w h n s x y :
  copied impl buf w h n s -> length buf < 4 * n + 4 ->
  copy_pixel x y s = None.
Proof.
  intros (Himpl & Hbuf & _ & _ & _ & Hoff & _) Hshort.
  unfold copy_pixel. apply op_bind_None. unfold masked. apply op_bind_None.
  unfold read. rewrite Himpl, Hbuf, Hoff.
  rewrite (proj2 (lookup_ge_None buf (4 * n + 3))) by lia. reflexivity.
Qed.

Lemma copy_frame_short impl buf w h s :
  copied impl buf w h 0 s ->
  nCameraFrameWidth impl = w -> nCameraFrameHeight impl = h ->
  length buf < 4 * w * h ->
  copy_frame s = None.
Proof.
  intros Hs Hw Hh Hshort.
  set (n := length buf / 4).
  assert (Hn : 4 * n <= length buf < 4 * n + 4).
  { pose proof (Nat.div_mod_eq (length buf) 4) as Hdm.
    pose proof (Nat.mod_upper_bound (length buf) 4). fold n in Hdm. lia. }
  assert (Hnwh : n < w * h) by lia.
  assert (Hwpos : w <> 0) by (intros ->; lia).
  set (y0 := n / w). set (x0 := n mod w).
  assert (Hxy : n = y0 * w + x0).
  { pose proof (Nat.div_mod_eq n w). subst y0 x0. lia. }
  assert (Hx0 : x0 < w) by (apply Nat.mod_upper_bound; exact Hwpos).
  assert (Hy0 : y0 < h).
  { apply Nat.Div0.div_lt_upper_bound. lia. }
  assert (Himpl : pImpl s = impl) by (destruct Hs as (? & _); assumption).
  unfold copy_frame, op_bind at 1, gets at 1. unfold op_bind at 1, gets at 1.
  rewrite Himpl, Hw, Hh.
  assert (Hloops :
            for_each (seq 0 h)
              (fun y => for_each (seq 0 w) (fun x => copy_pixel x y)) s = None).
  { replace h with (y0 + S (h - S y0)) at 1 by lia.
    rewrite seq_app, for_each_app.
    destruct (copy_rows_within impl buf w h y0 0 s Hs) as (s1 & Hrows & Hs1);
      [lia|nia|].
    rewrite (op_bind_Some _ _ _ _ _ _ Hrows). cbn [Nat.add seq for_each].
    rewrite op_bind_None; [reflexivity|].
    replace w with (x0 + S (w - S x0)) at 1 by lia.
    rewrite seq_app, for_each_app.
    cbn [Nat.add] in Hs1. rewrite <- (Nat.add_0_r (y0 * w)) in Hs1.
    destruct (copy_row_within impl buf w h y0 x0 0 s1 Hs1) as (s2 & Hrow & Hs2);
      [lia|lia|lia|].
    rewrite (op_bind_Some _ _ _ _ _ _ Hrow). cbn [Nat.add seq for_each].
    rewrite op_bind_None; [reflexivity|].
    apply (copy_pixel_past_the_end impl buf w h (y0 * w + 0 + x0) s2 _ _ Hs2). lia. }
  rewrite Hloops. reflexivity.
Qed.

(** The device once a frame with header [header] has landed in [buf]. *)
Lemma fetched_is_ready
    s (c2 : C) (header2 : CameraVideoStreamFrameHeader_t) (buf : list byte) :
  length (pixels (image s)) = img_width (image s) * img_height (image s) ->
  let impl := mkImpl (Some c2) (hTrackedCamera (pImpl s))
                     (nCameraFrameWidth (pImpl s)) (nCameraFrameHeight (pImpl s))
                     (nCameraFrameBufferSize (pImpl s)) buf (nFrameSequence header2) in
  copied impl buf (nCameraFrameWidth (pImpl s)) (nCameraFrameHeight (pImpl s)) 0
    (mkFrame impl
       (image_resize (nCameraFrameWidth (pImpl s)) (nCameraFrameHeight (pImpl s))
          (image s)) 0).
Proof.
  intros Himg impl.
  destruct (image_resize_size (nCameraFrameWidth (pImpl s))
              (nCameraFrameHeight (pImpl s)) (image s)) as (Hiw & Hih).
  unfold copied. cbn [pImpl image pFrameImage pCameraFrameBuffer].
  repeat (split; [reflexivity || assumption|]).
  split; [apply image_resize_length; exact Himg|].
  split; [reflexivity|]. intros i Hi. lia.
Qed.

Lemma getImage_copies
    s (c c1 c2 : C) (header1 header2 : CameraVideoStreamFrameHeader_t)
    (unused : option (list byte)) (buf : list byte) :
  pVRTrackedCamera (pImpl s) = Some c ->
  hTrackedCamera (pImpl s) <> 0%Z ->
  GetVideoStreamFrameBuffer (hTrackedCamera (pImpl s)) None c
  = (VRTrackedCameraError_None, header1, unused, c1) ->
  nFrameSequence header1 <> nLastFrameSequence (pImpl s) ->
  GetVideoStreamFrameBuffer (hTrackedCamera (pImpl s))
    (Some (pCameraFrameBuffer (pImpl s))) c1
  = (VRTrackedCameraError_None, header2, Some buf, c2) ->
  length (pixels (image s)) = img_width (image s) * img_height (image s) ->
  4 * nCameraFrameWidth (pImpl s) * nCameraFrameHeight (pImpl s) <= length buf ->
  exists s',
    getImage s = Some (true, s', []) /\
    copied (mkImpl (Some c2) (hTrackedCamera (pImpl s))
                   (nCameraFrameWidth (pImpl s)) (nCameraFrameHeight (pImpl s))
                   (nCameraFrameBufferSize (pImpl s)) buf (nFrameSequence header2))
           buf (nCameraFrameWidth (pImpl s)) (nCameraFrameHeight (pImpl s))
           (nCameraFrameHeight (pImpl s) * nCameraFrameWidth (pImpl s)) s'.
Proof.
  intros Hc Hh Hq1 Hseq Hq2 Himg Hsize.
  rewrite (getImage_fetched s c c1 c2 header1 header2 unused (Some buf)
             Hc Hh Hq1 Hseq Hq2).
  cbn [default from_option id].
  pose proof (fetched_is_ready s c2 header2 buf Himg) as Hs0. cbv zeta in Hs0.
  set (w := nCameraFrameWidth (pImpl s)) in *.
  set (h := nCameraFrameHeight (pImpl s)) in *.
  match type of Hs0 with copied ?i _ _ _ _ ?s1 => set (impl := i) in *; set (s0 := s1) in * end.
  destruct (copy_rows_within impl buf w h h 0 s0 Hs0) as (s' & Hrun & Hs');
    [lia | cbn [Nat.add]; lia |].
  assert (Hcopy : copy_frame s0 = Some (tt, s', [])).
  { unfold copy_frame, op_bind, gets.
    change (nCameraFrameHeight (pImpl s0)) with h.
    change (nCameraFrameWidth (pImpl s0)) with w.
    rewrite Hrun. reflexivity. }
  rewrite (op_bind_Some _ _ _ _ _ _ Hcopy). cbn [with_events op_ret app].
  exists s'. split; [reflexivity|exact Hs'].
Qed.

(** X11. Once [getImage] has copied a frame it remembers the frame's sequence
    number, and a following call for which the runtime still reports that
    sequence number is refused with the warning, without a second copy and with
    the image left as the first call wrote it. *)
Theorem getImage_refuses_same_frame
    s (c c1 c2 c3 : C) (header1 header2 header3 : CameraVideoStreamFrameHeader_t)
    (unused unused3 : option (list byte)) (buf : list byte) :
  pVRTrackedCamera (pImpl s) = Some c ->
  hTrackedCamera (pImpl s) <> 0%Z ->
  GetVideoStreamFrameBuffer (hTrackedCamera (pImpl s)) None c
  = (VRTrackedCameraError_None, header1, unused, c1) ->
  nFrameSequence header1 <> nLastFrameSequence (pImpl s) ->
  GetVideoStreamFrameBuffer (hTrackedCamera (pImpl s))
    (Some (pCameraFrameBuffer (pImpl s))) c1
  = (VRTrackedCameraError_None, header2, Some buf, c2) ->
  length (pixels (image s)) = img_width (image s) * img_height (image s) ->
  4 * nCameraFrameWidth (pImpl s) * nCameraFrameHeight (pImpl s) <= length buf ->
  GetVideoStreamFrameBuffer (hTrackedCamera (pImpl s)) None c2
  = (VRTrackedCameraError_None, header3, unused3, c3) ->
  nFrameSequence header3 = nFrameSequence header2 ->
  exists s' s'',
    getImage s = Some (true, s', []) /\
    nLastFrameSequence (pImpl s') = nFrameSequence header2 /\
    getImage s' = Some (false, s'', [EvLog Warning [LStr "No new frame available."]]) /\
    image s'' = image s' /\
    pCameraFrameBuffer (pImpl s'') = buf.
Proof.
  intros Hc Hh Hq1 Hseq Hq2 Himg Hsize Hq3 Hsame.
  destruct (getImage_copies s c c1 c2 header1 header2 unused buf)
    as (s' & Hrun & Himpl & Hbuf & _); try assumption.
  destruct (getImage_same_sequence s' c2 c3 header3 unused3)
    as (s'' & Hrun' & _ & Hbuf' & _ & Himage).
  - rewrite Himpl. reflexivity.
  - rewrite Himpl. exact Hh.
  - rewrite Himpl. exact Hq3.
  - rewrite Himpl. exact Hsame.
  - exists s', s''. split; [exact Hrun|]. split; [rewrite Himpl; reflexivity|].
    split; [exact Hrun'|]. split; [exact Himage|].
    rewrite Hbuf', Himpl. reflexivity.
Qed.

(** X12. When the runtime has a new frame but the frame buffer of the
    device holds fewer than four bytes for each of the width x height
    pixels, the copy loop of [getImage] reads past the end of the buffer,
    whatever the runtime has written into it: the call has no defined
    result. *)
Theorem getImage_short_buffer_is_undefined
    s (c c1 c2 : C) (header1 header2 : CameraVideoStreamFrameHeader_t)
    (unused filled : option (list byte)) :
  pVRTrackedCamera (pImpl s) = Some c ->
  hTrackedCamera (pImpl s) <> 0%Z ->
  GetVideoStreamFrameBuffer (hTrackedCamera (pImpl s)) None c
  = (VRTrackedCameraError_None, header1, unused, c1) ->
  nFrameSequence header1 <> nLastFrameSequence (pImpl s) ->
  GetVideoStreamFrameBuffer (hTrackedCamera (pImpl s))
    (Some (pCameraFrameBuffer (pImpl s))) c1
  = (VRTrackedCameraError_None, header2, filled, c2) ->
  length (pixels (image s)) = img_width (image s) * img_height (image s) ->
  length (pCameraFrameBuffer (pImpl s))
  < 4 * nCameraFrameWidth (pImpl s) * nCameraFrameHeight (pImpl s) ->
  getImage s = None.
Proof.
  intros Hc Hh Hq1 Hseq Hq2 Himg Hshort.
  rewrite (getImage_fetched s c c1 c2 header1 header2 unused filled Hc Hh Hq1 Hseq Hq2).
  apply op_bind_None.
  assert (Hlen : length (default (pCameraFrameBuffer (pImpl s)) filled)
                 = length (pCameraFrameBuffer (pImpl s))).
  { destruct filled as [buf|]; [|reflexivity].
    exact (GetVideoStreamFrameBuffer_length _ _ _ _ _ _ _ Hq2). }
  eapply copy_frame_short;
    [apply (fetched_is_ready s c2 header2 _ Himg) | reflexivity | reflexivity
    | rewrite Hlen; exact Hshort].
Qed.

End CameraMore.
(** ** The life of the camera device *)

Section DeviceMore.
Import yarp vr vrsystem OpenVRCamera OpenVRCameraDevice.
Context {R C : Type}.
Context `{!IVRSystem R C, !IVRTrackedCameraService C, !IVRTrackedCamera C}.
Implicit Types c : Camera R C.

Ltac innermost x :=
  lazymatch x with
  | context [match ?y with _ => _ end] => innermost y
  | _ => constr:(x)
  end.

(** Case analysis on every test and call result met along a run. *)
Ltac split_paths H :=
  repeat (cbn in H;
          match type of H with
          | context [match ?x with _ => _ end] =>
              let y := innermost x in destruct y eqn:?
          end).

Ltac open_paths H :=
  cbv [OpenVRCameraDevice.open op_bind log emit modify gets op_ret vr_init get_string
       through_camera has_camera get_frame_size acquire with_events] in H;
  split_paths H; cbn in H; try discriminate H;
  inversion H; clear H; subst.

(** X13. When [open] returns [true] the runtime pointer and the camera
    interface are non-null, the streaming handle is a valid one, the last
    frame sequence is 0, the serial number kept is the one the runtime
    gives, and no error line has been logged: the log ends with the line
    that the device is ready. *)
Theorem open_success_state c c' evs :
  OpenVRCameraDevice.open c = Some (true, c', evs) ->
  pVRSystem c' = true /\
  is_Some (pVRTrackedCamera (impl c')) /\
  hTrackedCamera (impl c') <> INVALID_TRACKED_CAMERA_HANDLE /\
  nLastFrameSequence (impl c') = 0%Z /\
  HMDSerialNumberString c'
  = fst (GetStringTrackedDeviceProperty Prop_SerialNumber_String (steamvr c')) /\
  List.filter is_error_line evs = [] /\
  last evs = Some (EvLog Info [LStr "OpenVRCamera device ready."]).
Proof.
  intros Hopen. open_paths Hopen; cbn.
  all: repeat split; try (eexists; reflexivity).
  all: intros Hz; rewrite Hz in *; discriminate.
Qed.

(** X14. When [open] returns [false] it has logged exactly one error line,
    and that line is the last thing it did. *)
Theorem open_failure_is_logged c c' evs :
  OpenVRCameraDevice.open c = Some (false, c', evs) ->
  exists line,
    List.filter is_error_line evs = [EvLog Error line] /\
    last evs = Some (EvLog Error line).
Proof.
  intros Hopen. open_paths Hopen; cbn.
  all: eexists; split; reflexivity.
Qed.

(** X15. [open] keeps the frame buffer as long as the size it records for
    it: from a device whose buffer has its recorded size, whatever [open]
    returns, the buffer has its recorded size afterwards, and if that size
    has changed the buffer is all zeros. *)
Theorem open_keeps_buffer_size c b c' evs :
  length (pCameraFrameBuffer (impl c)) = nCameraFrameBufferSize (impl c) ->
  OpenVRCameraDevice.open c = Some (b, c', evs) ->
  length (pCameraFrameBuffer (impl c')) = nCameraFrameBufferSize (impl c') /\
  (nCameraFrameBufferSize (impl c') <> nCameraFrameBufferSize (impl c) ->
   pCameraFrameBuffer (impl c')
   = replicate (nCameraFrameBufferSize (impl c')) "000"%byte).
Proof.
  intros Hlen Hopen. open_paths Hopen; cbn.
  all: split; [first [exact Hlen | apply length_replicate]|].
  all: first [reflexivity | intros Hne; contradiction Hne; reflexivity].
Qed.

(** X16. A failure of [open] after the runtime has started does not shut the
    runtime down: the runtime pointer stays non-null and the runtime is the
    one [VR_Init] left, until [close] is called. *)
Theorem open_failure_keeps_runtime c c' evs p r :
  OpenVRCameraDevice.open c = Some (false, c', evs) ->
  VR_Init (steamvr c) = (VRInitError_None, p, r) ->
  pVRSystem c' = true /\ steamvr c' = r.
Proof.
  intros Hopen Hinit. open_paths Hopen; inversion Hinit; subst; cbn in *.
  all: try discriminate.
  all: split; reflexivity.
Qed.

(** X17. When the runtime does not start, [open] returns [false] after its
    first log line and one error line, which ends with the symbol of the
    error code; the runtime pointer is null and the rest of the device is
    as before: no property is asked for, no camera interface is looked
    up. *)
Theorem open_without_runtime c e p r :
  VR_Init (steamvr c) = (e, p, r) ->
  e <> VRInitError_None ->
  OpenVRCameraDevice.open c
  = Some (false, mkCamera r false (HMDSerialNumberString c) (impl c),
          [EvLog Info [LStr "Starting OpenVR..."];
           EvLog Error [LStr "Unable to init VR runtime:";
                        LStr (VR_GetVRInitErrorAsSymbol e)]]).
Proof.
  intros Hinit He.
  cbv [OpenVRCameraDevice.open op_bind log emit modify gets op_ret vr_init with_events].
  rewrite Hinit. destruct e; [contradiction He; reflexivity|]. reflexivity.
Qed.

(** A handle obtained by [open] comes with the interface that gave it. *)
Lemma open_handle_has_interface c b c' evs :
  hTrackedCamera (impl c) = INVALID_TRACKED_CAMERA_HANDLE ->
  OpenVRCameraDevice.open c = Some (b, c', evs) ->
  hTrackedCamera (impl c') <> INVALID_TRACKED_CAMERA_HANDLE ->
  is_Some (pVRTrackedCamera (impl c')).
Proof.
  intros Hh Hopen. open_paths Hopen; cbn.
  all: intros Hne; try (contradiction Hne; exact Hh).
  all: eexists; reflexivity.
Qed.

Ltac close_paths H :=
  cbv [OpenVRCameraDevice.close op_bind modify gets op_ret release through_camera
       with_events] in H;
  split_paths H; cbn in H; try discriminate H;
  inversion H; clear H; subst.

Lemma close_again c b c' evs :
  OpenVRCameraDevice.close c = Some (b, c', evs) ->
  hTrackedCamera (impl c') = INVALID_TRACKED_CAMERA_HANDLE /\ pVRSystem c' = false.
Proof.
  intros Hclose. close_paths Hclose; cbn; split; try reflexivity.
  all: try assumption.
  all: match goal with H : negb (_ =? _)%Z = false |- _ =>
         apply negb_false_iff, Z.eqb_eq in H; exact H end.
Qed.

Lemma close_closed c :
  hTrackedCamera (impl c) = INVALID_TRACKED_CAMERA_HANDLE -> pVRSystem c = false ->
  OpenVRCameraDevice.close c = Some (true, c, []).
Proof.
  intros Hh Hsys.
  cbv [OpenVRCameraDevice.close op_bind modify gets op_ret with_events].
  rewrite Hh. cbn. rewrite Hsys. destruct c; cbn in *; subst; reflexivity.
Qed.

(** X18. [close], whenever it is defined, returns [true] without a log line
    and leaves the null handle and a null runtime pointer; the frame size and
    the frame buffer are kept.  Closing again changes nothing. *)
Theorem close_is_idempotent c b c' evs :
  OpenVRCameraDevice.close c = Some (b, c', evs) ->
  b = true /\ evs = [] /\
  hTrackedCamera (impl c') = INVALID_TRACKED_CAMERA_HANDLE /\
  pVRSystem c' = false /\
  width c' = width c /\ height c' = height c /\
  pCameraFrameBuffer (impl c') = pCameraFrameBuffer (impl c) /\
  OpenVRCameraDevice.close c' = Some (true, c', []).
Proof.
  intros Hclose.
  destruct (close_again c b c' evs Hclose) as (Hh & Hsys).
  split; [|split; [|split; [exact Hh|split; [exact Hsys|]]]].
  - close_paths Hclose; reflexivity.
  - close_paths Hclose; reflexivity.
  - repeat split; [close_paths Hclose; reflexivity ..|].
    apply close_closed; assumption.
Qed.

(** X19. After [close] the device refuses [getImage]: the call returns
    [false] with the error line and touches neither the runtime nor the
    image. *)
Theorem getImage_after_close c b c' evs img :
  OpenVRCameraDevice.close c = Some (b, c', evs) ->
  getImage (grabbing c' img)
  = Some (false, grabbing c' img,
          [EvLog Error [LStr "getImage() called before camera has been opened."]]).
Proof.
  intros Hclose. apply getImage_unopened. right.
  apply (close_again c b c' evs Hclose).
Qed.

(** X20. From a device without a streaming handle, a new one or a closed
    one, whatever [open] returns can be closed: [close] is defined after it,
    and leaves the null handle and the runtime pointer null. *)
Theorem open_then_close c b c' evs :
  hTrackedCamera (impl c) = INVALID_TRACKED_CAMERA_HANDLE ->
  OpenVRCameraDevice.open c = Some (b, c', evs) ->
  exists c'',
    OpenVRCameraDevice.close c' = Some (true, c'', []) /\
    hTrackedCamera (impl c'') = INVALID_TRACKED_CAMERA_HANDLE /\
    pVRSystem c'' = false.
Proof.
  intros Hh Hopen.
  pose proof (open_handle_has_interface c b c' evs Hh Hopen) as Hcam.
  assert (Hdef : exists c'', OpenVRCameraDevice.close c' = Some (true, c'', [])).
  { cbv [OpenVRCameraDevice.close op_bind modify gets op_ret release through_camera
         with_events].
    destruct (hTrackedCamera (impl c') =? INVALID_TRACKED_CAMERA_HANDLE)%Z eqn:Hz.
    - cbn. destruct (pVRSystem c'); eexists; reflexivity.
    - apply Z.eqb_neq in Hz. destruct (Hcam Hz) as (cam & Hsome).
      cbn. rewrite Hsome. cbn. destruct (pVRSystem c'); eexists; reflexivity. }
  destruct Hdef as (c'' & Hclose). exists c''. split; [exact Hclose|].
  apply (close_again c' true c'' [] Hclose).
Qed.

(** X21. [open] on a device which still holds a streaming handle, when the
    runtime starts but has no tracked camera interface any more, returns
    [false] with the interface pointer null and the handle kept; [close],
    which the destructor calls, then releases the handle through the null
    pointer: it has no defined result. *)
Theorem reopen_without_interface_breaks_close c r :
  hTrackedCamera (impl c) <> INVALID_TRACKED_CAMERA_HANDLE ->
  VR_Init (steamvr c) = (VRInitError_None, true, r) ->
  VRTrackedCamera r = None ->
  exists c' evs,
    OpenVRCameraDevice.open c = Some (false, c', evs) /\
    hTrackedCamera (impl c') = hTrackedCamera (impl c) /\
    OpenVRCameraDevice.close c' = None.
Proof.
  intros Hh Hinit Hcam.
  cbv [OpenVRCameraDevice.open op_bind log emit modify gets op_ret vr_init get_string
       with_events].
  rewrite Hinit. cbn. rewrite Hcam. cbn.
  eexists _, _. split; [reflexivity|]. split; [reflexivity|].
  cbv [OpenVRCameraDevice.close op_bind modify gets op_ret release through_camera
       with_events].
  cbn. rewrite (proj2 (Z.eqb_neq _ _) Hh). reflexivity.
Qed.

(** X22. [open] sets the last frame sequence to 0, so when the first frame
    the runtime has after a successful [open] carries the sequence number
    0, [getImage] takes it for a frame already seen: it returns [false]
    with the warning and leaves the image alone. *)
Theorem first_frame_0_is_refused
    c c' evs img (cam cam1 : C) (header : CameraVideoStreamFrameHeader_t)
    (unused : option (list byte)) :
  OpenVRCameraDevice.open c = Some (true, c', evs) ->
  pVRTrackedCamera (impl c') = Some cam ->
  GetVideoStreamFrameBuffer (hTrackedCamera (impl c')) None cam
  = (VRTrackedCameraError_None, header, unused, cam1) ->
  nFrameSequence header = 0%Z ->
  exists s',
    getImage (grabbing c' img)
    = Some (false, s', [EvLog Warning [LStr "No new frame available."]]) /\
    image s' = img.
Proof.
  intros Hopen Hcam Hq Hseq.
  assert (Hfacts : hTrackedCamera (impl c') <> 0%Z /\ nLastFrameSequence (impl c') = 0%Z).
  { clear Hcam Hq. open_paths Hopen; cbn; (split; [|reflexivity]).
    all: intros Hz; rewrite Hz in *; discriminate. }
  destruct Hfacts as (Hh & Hlast).
  destruct (getImage_same_sequence (grabbing c' img) cam cam1 header unused)
    as (s' & Hrun & _ & _ & _ & Himage); try assumption.
  - cbn. congruence.
  - exists s'. split; [exact Hrun|exact Himage].
Qed.

Lemma int_of_uint32_small n :
  (Z.of_nat n < 2 ^ 31)%Z -> int_of_uint32 n = Z.of_nat n.
Proof.
  intros Hn. unfold int_of_uint32.
  rewrite Z.mod_small by lia.
  destruct (Z.of_nat n <? 2 ^ 31)%Z eqn:Hlt; [reflexivity|].
  apply Z.ltb_ge in Hlt. lia.
Qed.

Ltac same_results :=
  repeat match goal with
         | H1 : ?x = _, H2 : ?x = _ |- _ =>
             rewrite H1 in H2; inversion H2; clear H2; subst
         end.

(** X23. After a successful [open], [width] and [height] answer the frame
    size the runtime reported, as long as it fits an [int]; the recorded
    buffer size is the reported one, except that a reported size of 0 leaves
    the buffer size as it was. *)
Theorem open_sets_frame_size c c' evs e p r cam err w h size :
  OpenVRCameraDevice.open c = Some (true, c', evs) ->
  VR_Init (steamvr c) = (e, p, r) ->
  VRTrackedCamera r = Some cam ->
  GetCameraFrameSize (nCameraFrameWidth (impl c)) (nCameraFrameHeight (impl c)) cam
  = (err, w, h, size) ->
  (Z.of_nat w < 2 ^ 31)%Z -> (Z.of_nat h < 2 ^ 31)%Z ->
  width c' = Z.of_nat w /\ height c' = Z.of_nat h /\
  nCameraFrameBufferSize (impl c')
  = (if Nat.eqb size 0 then nCameraFrameBufferSize (impl c) else size).
Proof.
  intros Hopen Hinit Hcam Hsize Hw Hh.
  open_paths Hopen; inversion Hinit; subst; same_results.
  all: unfold width, height; cbn [impl set_impl nCameraFrameWidth nCameraFrameHeight
         nCameraFrameBufferSize with_camera with_handle with_sequence with_buffer
         with_size].
  all: rewrite !int_of_uint32_small by assumption.
  all: split; [reflexivity|]; split; [reflexivity|].
  all: match goal with
       | H : negb (?n =? 0)%nat && negb (?n =? ?m)%nat = _ |- _ =>
           destruct (n =? 0)%nat eqn:H0; destruct (n =? m)%nat eqn:Hm;
           cbn in H; try discriminate H; try reflexivity
       end.
  all: apply Nat.eqb_eq in Hm; congruence.
Qed.

End DeviceMore.
Section LifeBenchFacts.
Import yarp vr vrsystem OpenVRCamera OpenVRCameraDevice CameraBench DeviceBench LifeBench.

Lemma getImage_before_open_witness :
  (pVRTrackedCamera (pImpl (grabbing new_camera empty_image)) = None \/
   hTrackedCamera (pImpl (grabbing new_camera empty_image)) = 0%Z) /\
  getImage (grabbing new_camera empty_image)
  = Some (false, grabbing new_camera empty_image,
          [EvLog Error [LStr "getImage() called before camera has been opened."]]).
Proof.
  split; [left; reflexivity|].
  apply (getImage_before_open (grabbing new_camera empty_image)).
  left. reflexivity.
Defined.

Lemma getImage_without_new_frame_witness :
  pVRTrackedCamera (pImpl seen) = Some (mkRuntime rgba_frame 7) /\
  hTrackedCamera (pImpl seen) <> 0%Z /\
  GetVideoStreamFrameBuffer (hTrackedCamera (pImpl seen)) None (mkRuntime rgba_frame 7)
  = (VRTrackedCameraError_None, mkHeader 7, None, mkRuntime rgba_frame 7) /\
  nFrameSequence (mkHeader 7) = nLastFrameSequence (pImpl seen) /\
  exists s',
    getImage seen = Some (false, s', [EvLog Warning [LStr "No new frame available."]]) /\
    pVRTrackedCamera (pImpl s') = Some (mkRuntime rgba_frame 7) /\
    pCameraFrameBuffer (pImpl s') = pCameraFrameBuffer (pImpl seen) /\
    nLastFrameSequence (pImpl s') = nLastFrameSequence (pImpl seen) /\
    image s' = image seen.
Proof.
  split; [reflexivity|]. split; [discriminate|]. split; [reflexivity|].
  split; [reflexivity|].
  apply (getImage_without_new_frame seen (mkRuntime rgba_frame 7)
           (mkRuntime rgba_frame 7) (mkHeader 7) None);
    try reflexivity; discriminate.
Defined.

Lemma getImage_failure_leaves_image_witness :
  getImage seen = Some (false, seen, [EvLog Warning [LStr "No new frame available."]]) /\
  image seen = image seen /\
  nLastFrameSequence (pImpl seen) = nLastFrameSequence (pImpl seen) /\
  hTrackedCamera (pImpl seen) = hTrackedCamera (pImpl seen) /\
  exists lvl line, [EvLog Warning [LStr "No new frame available."]] = [EvLog lvl line].
Proof.
  split; [vm_compute; reflexivity|].
  apply (getImage_failure_leaves_image seen seen
           [EvLog Warning [LStr "No new frame available."]]).
  vm_compute. reflexivity.
Defined.

Lemma getImage_refuses_same_frame_witness :
  pVRTrackedCamera (pImpl camera) = Some (mkRuntime rgba_frame 7) /\
  nFrameSequence (mkHeader 7) <> nLastFrameSequence (pImpl camera) /\
  GetVideoStreamFrameBuffer (hTrackedCamera (pImpl camera))
    (Some (pCameraFrameBuffer (pImpl camera))) (mkRuntime rgba_frame 7)
  = (VRTrackedCameraError_None, mkHeader 7, Some rgba_frame,
     mkRuntime rgba_frame 7) /\
  4 * nCameraFrameWidth (pImpl camera) * nCameraFrameHeight (pImpl camera)
  <= length rgba_frame /\
  exists s' s'',
    getImage camera = Some (true, s', []) /\
    nLastFrameSequence (pImpl s') = nFrameSequence (mkHeader 7) /\
    getImage s' = Some (false, s'', [EvLog Warning [LStr "No new frame available."]]) /\
    image s'' = image s' /\
    pCameraFrameBuffer (pImpl s'') = rgba_frame.
Proof.
  split; [reflexivity|]. split; [discriminate|]. split; [reflexivity|].
  split; [vm_compute; lia|].
  apply (getImage_refuses_same_frame camera (mkRuntime rgba_frame 7)
           (mkRuntime rgba_frame 7) (mkRuntime rgba_frame 7) (mkRuntime rgba_frame 7)
           (mkHeader 7) (mkHeader 7) (mkHeader 7) None None rgba_frame);
    try reflexivity; try discriminate; try (vm_compute; lia).
Defined.

Lemma getImage_short_buffer_is_undefined_witness :
  pVRTrackedCamera (pImpl short_camera) = Some (mkRuntime rgba_frame 7) /\
  GetVideoStreamFrameBuffer (hTrackedCamera (pImpl short_camera))
    (Some (pCameraFrameBuffer (pImpl short_camera))) (mkRuntime rgba_frame 7)
  = (VRTrackedCameraError_None, mkHeader 7, Some (take 8 rgba_frame),
     mkRuntime rgba_frame 7) /\
  length (pCameraFrameBuffer (pImpl short_camera))
  < 4 * nCameraFrameWidth (pImpl short_camera) * nCameraFrameHeight (pImpl short_camera) /\
  getImage short_camera = None.
Proof.
  split; [reflexivity|]. split; [reflexivity|]. split; [vm_compute; lia|].
  apply (getImage_short_buffer_is_undefined short_camera (mkRuntime rgba_frame 7)
           (mkRuntime rgba_frame 7) (mkRuntime rgba_frame 7)
           (mkHeader 7) (mkHeader 7) None (Some (take 8 rgba_frame)));
    try reflexivity; try discriminate; try (vm_compute; lia).
Defined.

Lemma open_success_state_witness :
  OpenVRCameraDevice.open new_camera = Some (true, opened_camera, open_log) /\
  pVRSystem opened_camera = true /\
  is_Some (pVRTrackedCamera (impl opened_camera)) /\
  hTrackedCamera (impl opened_camera) <> INVALID_TRACKED_CAMERA_HANDLE /\
  nLastFrameSequence (impl opened_camera) = 0%Z /\
  HMDSerialNumberString opened_camera
  = fst (GetStringTrackedDeviceProperty Prop_SerialNumber_String (steamvr opened_camera)) /\
  List.filter is_error_line open_log = [] /\
  last open_log = Some (EvLog Info [LStr "OpenVRCamera device ready."]).
Proof.
  split; [vm_compute; reflexivity|].
  apply (open_success_state new_camera opened_camera open_log).
  vm_compute. reflexivity.
Defined.

Lemma open_failure_is_logged_witness :
  OpenVRCameraDevice.open new_camera_no_interface
  = Some (false, failed_open, failed_open_log) /\
  exists line,
    List.filter is_error_line failed_open_log = [EvLog Error line] /\
    last failed_open_log = Some (EvLog Error line).
Proof.
  split; [vm_compute; reflexivity|].
  apply (open_failure_is_logged new_camera_no_interface failed_open failed_open_log).
  vm_compute. reflexivity.
Defined.

Lemma open_keeps_buffer_size_witness :
  length (pCameraFrameBuffer (impl new_camera)) = nCameraFrameBufferSize (impl new_camera) /\
  OpenVRCameraDevice.open new_camera = Some (true, opened_camera, open_log) /\
  length (pCameraFrameBuffer (impl opened_camera))
  = nCameraFrameBufferSize (impl opened_camera) /\
  (nCameraFrameBufferSize (impl opened_camera) <> nCameraFrameBufferSize (impl new_camera) ->
   pCameraFrameBuffer (impl opened_camera)
   = replicate (nCameraFrameBufferSize (impl opened_camera)) "000"%byte).
Proof.
  split; [reflexivity|]. split; [vm_compute; reflexivity|].
  apply (open_keeps_buffer_size new_camera true opened_camera open_log);
    [reflexivity | vm_compute; reflexivity].
Defined.

Lemma open_failure_keeps_runtime_witness :
  OpenVRCameraDevice.open new_camera_no_interface
  = Some (false, failed_open, failed_open_log) /\
  VR_Init (steamvr new_camera_no_interface)
  = (VRInitError_None, true, mkSystem true None true) /\
  pVRSystem failed_open = true /\ steamvr failed_open = mkSystem true None true.
Proof.
  split; [vm_compute; reflexivity|]. split; [reflexivity|].
  apply (open_failure_keeps_runtime new_camera_no_interface failed_open failed_open_log
           true (mkSystem true None true));
    [vm_compute; reflexivity | reflexivity].
Defined.

Lemma open_without_runtime_witness :
  VR_Init (steamvr no_runtime) = (VRInitError_Code 108, false, mkSystem false None false) /\
  VRInitError_Code 108 <> VRInitError_None /\
  OpenVRCameraDevice.open no_runtime
  = Some (false,
          mkCamera (mkSystem false None false) false
                   (HMDSerialNumberString no_runtime) (impl no_runtime),
          [EvLog Info [LStr "Starting OpenVR..."];
           EvLog Error [LStr "Unable to init VR runtime:";
                        LStr (VR_GetVRInitErrorAsSymbol (VRInitError_Code 108))]]).
Proof.
  split; [reflexivity|]. split; [discriminate|].
  apply (open_without_runtime no_runtime (VRInitError_Code 108) false
           (mkSystem false None false));
    [reflexivity | discriminate].
Defined.

Lemma close_is_idempotent_witness :
  OpenVRCameraDevice.close opened_camera = Some (true, closed_camera, []) /\
  true = true /\ @nil Event = [] /\
  hTrackedCamera (impl closed_camera) = INVALID_TRACKED_CAMERA_HANDLE /\
  pVRSystem closed_camera = false /\
  width closed_camera = width opened_camera /\
  height closed_camera = height opened_camera /\
  pCameraFrameBuffer (impl closed_camera) = pCameraFrameBuffer (impl opened_camera) /\
  OpenVRCameraDevice.close closed_camera = Some (true, closed_camera, []).
Proof.
  split; [vm_compute; reflexivity|].
  apply (close_is_idempotent opened_camera true closed_camera []).
  vm_compute. reflexivity.
Defined.

Lemma getImage_after_close_witness :
  OpenVRCameraDevice.close opened_camera = Some (true, closed_camera, []) /\
  getImage (grabbing closed_camera empty_image)
  = Some (false, grabbing closed_camera empty_image,
          [EvLog Error [LStr "getImage() called before camera has been opened."]]).
Proof.
  split; [vm_compute; reflexivity|].
  apply (getImage_after_close opened_camera true closed_camera [] empty_image).
  vm_compute. reflexivity.
Defined.

Lemma open_then_close_witness :
  hTrackedCamera (impl new_camera) = INVALID_TRACKED_CAMERA_HANDLE /\
  OpenVRCameraDevice.open new_camera = Some (true, opened_camera, open_log) /\
  exists c'',
    OpenVRCameraDevice.close opened_camera = Some (true, c'', []) /\
    hTrackedCamera (impl c'') = INVALID_TRACKED_CAMERA_HANDLE /\
    pVRSystem c'' = false.
Proof.
  split; [reflexivity|]. split; [vm_compute; reflexivity|].
  apply (open_then_close new_camera true opened_camera open_log);
    [reflexivity | vm_compute; reflexivity].
Defined.

Lemma reopen_without_interface_breaks_close_witness :
  hTrackedCamera (impl stale) <> INVALID_TRACKED_CAMERA_HANDLE /\
  VR_Init (steamvr stale) = (VRInitError_None, true, mkSystem true None true) /\
  VRTrackedCamera (mkSystem true None true) = @None Runtime /\
  exists c' evs,
    OpenVRCameraDevice.open stale = Some (false, c', evs) /\
    hTrackedCamera (impl c') = hTrackedCamera (impl stale) /\
    OpenVRCameraDevice.close c' = None.
Proof.
  assert (Hh : hTrackedCamera (impl stale) <> INVALID_TRACKED_CAMERA_HANDLE)
    by (vm_compute; discriminate).
  split; [exact Hh|]. split; [reflexivity|]. split; [reflexivity|].
  apply (reopen_without_interface_breaks_close stale (mkSystem true None true) Hh);
    reflexivity.
Defined.

Lemma first_frame_0_is_refused_witness :
  OpenVRCameraDevice.open (constructed (mkSystem true (Some (mkRuntime rgba_frame 0)) false))
  = Some (true, opened_on_frame_0, open_log) /\
  pVRTrackedCamera (impl opened_on_frame_0) = Some (mkRuntime rgba_frame 0) /\
  GetVideoStreamFrameBuffer (hTrackedCamera (impl opened_on_frame_0)) None
    (mkRuntime rgba_frame 0)
  = (VRTrackedCameraError_None, mkHeader 0, None, mkRuntime rgba_frame 0) /\
  nFrameSequence (mkHeader 0) = 0%Z /\
  exists s',
    getImage (grabbing opened_on_frame_0 empty_image)
    = Some (false, s', [EvLog Warning [LStr "No new frame available."]]) /\
    image s' = empty_image.
Proof.
  split; [vm_compute; reflexivity|]. split; [vm_compute; reflexivity|].
  split; [reflexivity|]. split; [reflexivity|].
  apply (first_frame_0_is_refused
           (constructed (mkSystem true (Some (mkRuntime rgba_frame 0)) false))
           opened_on_frame_0 open_log empty_image
           (mkRuntime rgba_frame 0) (mkRuntime rgba_frame 0) (mkHeader 0) None);
    try reflexivity; vm_compute; reflexivity.
Defined.

Lemma open_sets_frame_size_witness :
  OpenVRCameraDevice.open new_camera = Some (true, opened_camera, open_log) /\
  VR_Init (steamvr new_camera)
  = (VRInitError_None, true, mkSystem true (Some (mkRuntime rgba_frame 7)) true) /\
  GetCameraFrameSize (nCameraFrameWidth (impl new_camera))
    (nCameraFrameHeight (impl new_camera)) (mkRuntime rgba_frame 7)
  = (VRTrackedCameraError_None, 2, 2, 16) /\
  width opened_camera = Z.of_nat 2 /\ height opened_camera = Z.of_nat 2 /\
  nCameraFrameBufferSize (impl opened_camera)
  = (if Nat.eqb 16 0 then nCameraFrameBufferSize (impl new_camera) else 16).
Proof.
  split; [vm_compute; reflexivity|]. split; [reflexivity|]. split; [reflexivity|].
  apply (open_sets_frame_size new_camera opened_camera open_log VRInitError_None true
           (mkSystem true (Some (mkRuntime rgba_frame 7)) true)
           (mkRuntime rgba_frame 7) VRTrackedCameraError_None 2 2 16);
    try reflexivity; vm_compute; reflexivity.
Defined.

(** A frame of 8 bytes written into the 16 bytes of the device is copied:
    the buffer keeps its length and [getImage] returns [true]. *)
Example short_frame_is_copied :
  exists s',
    getImage (mkFrame (mkImpl (Some (mkRuntime (take 8 rgba_frame) 7)) 1 2 2 16
                              (replicate 16 "000"%byte) 0) empty_image 0)
    = Some (true, s', []) /\
    length (pCameraFrameBuffer (pImpl s')) = 16.
Proof. eexists. split; [vm_compute; reflexivity|]. reflexivity. Qed.

End LifeBenchFacts.
